(** * Packed octree nodes and the level-synchronous binary-tree builder

    A shallow embedding of [nih/octree/octree_inline.h] and
    [nih/bintree/cuda/bintree_gen_inline.h].  Unsigned 32-bit values are
    integers in [0, 2^32) with the wrap-around of each operation written
    out; [int32] values are their two's-complement readings.

    A kernel launch is embedded twice.  [Bintree] holds the work of one
    thread on one task and the reference run of a launch, one thread per
    task in the order of the task ids.  [Device] holds the launch as the
    host functions configure it - block count, grid size and base indices
    in 32-bit arithmetic - with the visits of the threads in any order.  Up
    to [2^31] tasks a launch on the device is the reference run on the
    input queue read in the order of the visits. *)

From Stdlib Require Import ZArith List Bool Lia Permutation.
Import ListNotations.
Local Open Scope Z_scope.

(** ** Machine words *)

Module Word.

Definition to_uint32 (x : Z) : Z := x mod 2 ^ 32.

Definition to_uint8 (x : Z) : Z := x mod 2 ^ 8.

(** Reading of a 32-bit pattern as an [int32]. *)
Definition to_int32 (x : Z) : Z := (x + 2 ^ 31) mod 2 ^ 32 - 2 ^ 31.

(** [x << s] on [uint32], for a shift count [s] that is itself a [uint32]:
    the bits shifted past position 31 are lost, and a count of 32 or more
    leaves no bit at all (the clamping the device shift performs). *)
Definition shl32 (x s : Z) : Z :=
  if s <? 32 then to_uint32 (Z.shiftl x s) else 0.

(** [x >> s] on [uint32]. *)
Definition shr32 (x s : Z) : Z := Z.shiftr x s.

Fixpoint popc_bits (n : nat) (x : Z) : Z :=
  match n with
  | O => 0
  | S k => Z.b2z (Z.odd x) + popc_bits k (Z.div2 x)
  end.

(** Modelled from the spec: [popc] / [__popc], the population count used by
    the octant lookup (its definition is not among the sources); the number
    of set bits of a 32-bit word. *)
Definition popc (x : Z) : Z := popc_bits 32 x.

End Word.

Import Word.

(** ** Octree nodes ([octree_inline.h]) *)

Module Octree.

(** A node is its [m_packed_info] word. *)
Definition Octree_node_base := Z.

(** Modelled from the spec: [kInvalid], the sentinel returned for an
    inactive octant; its declaration is not among the sources, the value is
    the all-ones word [uint32(-1)]. *)
Definition kInvalid : Z := 4294967295.

(** leaf constructor *)
Definition Octree_node_leaf (leaf_index : Z) : Octree_node_base :=
  shl32 leaf_index 8.

(** full constructor: [m_packed_info( (index << 8u) & mask )] *)
Definition Octree_node_full (mask index : Z) : Octree_node_base :=
  Z.land (shl32 index 8) mask.

Definition get_child_mask (n : Octree_node_base) : Z := Z.land n 255.

Definition is_leaf (n : Octree_node_base) : bool := get_child_mask n =? 0.

Definition set_child_mask (n : Octree_node_base) (mask : Z) : Octree_node_base :=
  Z.lor (Z.land n 4294967040) mask.

Definition set_child_offset (n : Octree_node_base) (child : Z) : Octree_node_base :=
  Z.lor (Z.land n 255) (shl32 child 8).

Definition get_child_offset (n : Octree_node_base) : Z := shr32 n 8.

Definition is_active (n : Octree_node_base) (i : Z) : bool :=
  negb (Z.land n (shl32 1 i) =? 0).

Definition get_child (n : Octree_node_base) (i : Z) : Z :=
  to_uint32 (shr32 n 8 + i).

(** [Octree_node<host_domain>::get_octant] *)
Definition get_octant_host (n : Octree_node_base) (i : Z) : Z :=
  let mask := get_child_mask n in
  if negb (Z.land mask (shl32 1 i) =? 0)
  then to_uint32 (get_child_offset n
                  + popc (to_uint8 (shl32 mask (to_uint32 (8 - i)))))
  else kInvalid.

(** [Octree_node<device_domain>::get_octant] (the [__CUDACC__] body): the
    shifted mask goes to [__popc] as a 32-bit word. *)
Definition get_octant_device (n : Octree_node_base) (i : Z) : Z :=
  let mask := get_child_mask n in
  if negb (Z.land mask (shl32 1 i) =? 0)
  then to_uint32 (get_child_offset n
                  + popc (shl32 mask (to_uint32 (8 - i))))
  else kInvalid.

(** The number of set bits of [m] at positions strictly below [i]. *)
Definition bits_below (m i : Z) : Z :=
  Z.of_nat (length (filter (fun k => Z.testbit m (Z.of_nat k))
                           (seq 0 (Z.to_nat i)))).

(** The integers [0 .. n-1]. *)
Definition Zrange (n : nat) : list Z := map Z.of_nat (seq 0 n).

(** On a mask [m] and an octant [i]: the activity test reads bit [i], the
    host count is the number of set bits below [i], and the device count is
    the number of set bits of the whole mask. *)
Definition octant_row_ok (m i : Z) : bool :=
  Bool.eqb (negb (Z.land m (shl32 1 i) =? 0)) (Z.testbit m i)
  && (popc (to_uint8 (shl32 m (to_uint32 (8 - i)))) =? bits_below m i)
  && (popc (shl32 m (to_uint32 (8 - i))) =? popc m)
  && (bits_below m i <=? 8) && (popc m <=? 8).

Definition octant_table_ok : bool :=
  forallb (fun m => forallb (octant_row_ok m) (Zrange 8)) (Zrange 256).

(** On a mask [m]: an active octant [i] ranks below the population count,
    an active octant [j] above it ranks strictly higher, and every rank [r]
    below the population count is the rank of an active octant. *)
Definition octant_slots_row_ok (m i j : Z) : bool :=
  implb (Z.testbit m i) (bits_below m i <? popc m)
  && implb (Z.testbit m i && Z.testbit m j && (i <? j))
       (bits_below m i <? bits_below m j)
  && implb (i <? popc m)
       (existsb (fun o => Z.testbit m o && (bits_below m o =? i)) (Zrange 8)).

Definition octant_slots_table_ok : bool :=
  forallb
    (fun m =>
       forallb (fun i => forallb (octant_slots_row_ok m i) (Zrange 8))
         (Zrange 8))
    (Zrange 256).

End Octree.

(** ** The tree builder ([bintree_gen_inline.h]) *)

Module Bintree.

(** Modelled from the spec: [Bintree_gen_context::Split_task], the record
    [(node_index, begin, end, bit_level)] of a pending task; its declaration
    is not among the sources.  The fields are [uint32], as the locals the
    kernels load them into. *)
Record Split_task : Type := mk_Split_task
  { m_node : Z; m_begin : Z; m_end : Z; m_input : Z }.

(** A device array of tasks, addressed by slot. *)
Definition task_buffer := Z -> Split_task.

Definition store (q : task_buffer) (i : Z) (t : Split_task) : task_buffer :=
  fun j => if j =? i then t else q j.

(** [codes[i]]; the kernels only read inside the key array. *)
Definition code_at (codes : list Z) (i : Z) : Z := nth (Z.to_nat i) codes 0.

(** The tree-writer capability, as the sequence of writes it receives. *)
Inductive tree_op : Type :=
| write_node (node : Z) (left_exists right_exists : bool) (index : Z)
| write_leaf (index : Z) (leaf_begin leaf_end : Z).

(** The body of the [while (level >= 0)] loop, [fuel] bounding the number of
    iterations. *)
Fixpoint find_leading_bit_difference_loop
    (fuel : nat) (level : Z) (code0 code1 : Z) : Z :=
  match fuel with
  | O => level
  | S fuel' =>
      if level >=? 0 then
        let mask := shl32 1 level in
        if negb (Z.land code0 mask =? Z.land code1 mask) then level
        else find_leading_bit_difference_loop fuel' (level - 1) code0 code1
      else level
  end.

(** find the most significant bit smaller than start by which code0 and
    code1 differ.  [start_level] is an [int32]; the loop leaves after at most
    [start_level + 1] rounds, and the [int32] result is returned through the
    [uint32] return type. *)
Definition find_leading_bit_difference (start_level code0 code1 : Z) : Z :=
  to_uint32 (find_leading_bit_difference_loop
               (Z.to_nat (start_level + 1)) start_level code0 code1).

(** Modelled from the spec: [mask_and<uint32>], the mask-and-compare
    predicate handed to the binary search (not among the sources). *)
Definition mask_and (mask : Z) (x : Z) : bool := negb (Z.land x mask =? 0).

Fixpoint find_pivot_search (fuel : nat) (codes : list Z) (pred : Z -> bool)
    (first count : Z) : Z :=
  match fuel with
  | O => first
  | S fuel' =>
      if count <=? 0 then first
      else
        let half := count / 2 in
        let mid := first + half in
        if pred (code_at codes mid)
        then find_pivot_search fuel' codes pred first half
        else find_pivot_search fuel' codes pred (mid + 1) (count - half - 1)
  end.

(** Modelled from the spec: [find_pivot], the binary search over
    [count] keys starting at [first] for the boundary where the predicate
    flips from false to true (not among the sources).  The result is the
    index [find_pivot(codes + first, count, pred) - codes]. *)
Definition find_pivot (codes : list Z) (first count : Z) (pred : Z -> bool) : Z :=
  find_pivot_search (S (Z.to_nat count)) codes pred first count.

(** Modelled from the spec: [cuda::alloc], the slot allocator, run one
    worker at a time: the worker receives the counter's value as its base
    offset and the counter advances by the number of slots requested. *)
Definition alloc (n : Z) (counter : Z) : Z * Z :=
  (counter, to_uint32 (counter + n)).

(** Modelled from the spec: [cuda::alloc<1>], one slot for each worker whose
    flag is set. *)
Definition alloc1 (p : bool) (counter : Z) : Z * Z :=
  (counter, if p then to_uint32 (counter + 1) else counter).

(** What a kernel launch writes: the tree, the output queue with its
    counter, and the leaf counter. *)
Record kernel_state : Type := mk_kernel_state
  { k_tree : list tree_op;
    k_out_tasks_count : Z;
    k_out_tasks : task_buffer;
    k_out_leaf_count : Z }.

(** The bit level a task is split at: recomputed from the first and last
    key of its range unless [keep_singletons] is set. *)
Definition split_level (keep_singletons : bool) (codes : list Z)
    (in_task : Split_task) : Z :=
  let level := m_input in_task in
  if negb keep_singletons then
    find_leading_bit_difference (to_int32 level)
      (code_at codes (m_begin in_task))
      (code_at codes (to_uint32 (m_end in_task - 1)))
  else level.

(** [split_index] of a task that needs a split. *)
Definition split_pivot (keep_singletons : bool) (codes : list Z)
    (in_task : Split_task) : Z :=
  find_pivot codes (m_begin in_task)
    (to_uint32 (m_end in_task - m_begin in_task))
    (mask_and (shl32 1 (split_level keep_singletons codes in_task))).

(** [output_count] of a task. *)
Definition split_output_count (max_leaf_size : Z) (keep_singletons : bool)
    (codes : list Z) (in_task : Split_task) : Z :=
  if to_uint32 (m_end in_task - m_begin in_task) >? max_leaf_size then
    let split_index := split_pivot keep_singletons codes in_task in
    if (split_index =? m_begin in_task) || (split_index =? m_end in_task)
    then 1 else 2
  else 0.

(** One logical thread of [split_kernel]: the work done for [task_id]. *)
Definition split_thread (max_leaf_size : Z) (keep_singletons : bool)
    (codes : list Z) (in_tasks_count : Z) (in_tasks : task_buffer)
    (out_nodes_count : Z) (task_id : Z) (ks : kernel_state) : kernel_state :=
  if task_id <? in_tasks_count then
    let in_task := in_tasks task_id in
    let node := m_node in_task in
    let begin := m_begin in_task in
    let end_ := m_end in_task in
    let level := split_level keep_singletons codes in_task in
    (* only read below when [output_count] is not 0 *)
    let split_index := split_pivot keep_singletons codes in_task in
    let output_count :=
      split_output_count max_leaf_size keep_singletons codes in_task in
    let '(offset, tasks_count) := alloc output_count (k_out_tasks_count ks) in
    let out1 :=
      if output_count >=? 1 then
        store (k_out_tasks ks) (to_uint32 (offset + 0))
          (mk_Split_task (to_uint32 (out_nodes_count + offset + 0)) begin
             (if output_count =? 1 then end_ else split_index)
             (to_uint32 (level - 1)))
      else k_out_tasks ks in
    let out2 :=
      if output_count =? 2 then
        store out1 (to_uint32 (offset + 1))
          (mk_Split_task (to_uint32 (out_nodes_count + offset + 1))
             split_index end_ (to_uint32 (level - 1)))
      else out1 in
    let generate_leaf := output_count =? 0 in
    let '(leaf_index, leaf_count) := alloc1 generate_leaf (k_out_leaf_count ks) in
    let node_write :=
      write_node node
        (if output_count =? 0 then false else negb (split_index =? begin))
        (if output_count =? 0 then false else negb (split_index =? end_))
        (if output_count =? 0 then leaf_index
         else to_uint32 (out_nodes_count + offset)) in
    {| k_tree :=
         k_tree ks ++ node_write ::
           (if output_count =? 0 then [write_leaf leaf_index begin end_] else []);
       k_out_tasks_count := tasks_count;
       k_out_tasks := out2;
       k_out_leaf_count := leaf_count |}
  else ks.

(** One logical thread of [gen_leaves_kernel], on the tree and the leaf
    counter. *)
Definition gen_leaves_thread (in_tasks_count : Z) (in_tasks : task_buffer)
    (task_id : Z) (ls : list tree_op * Z) : list tree_op * Z :=
  if task_id <? in_tasks_count then
    let in_task := in_tasks task_id in
    let '(leaf_index, leaf_count) := alloc1 true (snd ls) in
    (fst ls ++ [write_node (m_node in_task) false false leaf_index;
                write_leaf leaf_index (m_begin in_task) (m_end in_task)],
     leaf_count)
  else ls.

Definition BLOCK_SIZE : Z := 128.

(** The threads of the reference run of a launch: one logical block of
    [BLOCK_SIZE] threads for every multiple of [BLOCK_SIZE] below
    [in_tasks_count], counted without the 32-bit wrap of the host code.  The
    launch as the host code configures it is in [Device]. *)
Definition grid_threads (in_tasks_count : Z) : nat :=
  Z.to_nat (BLOCK_SIZE * ((in_tasks_count + BLOCK_SIZE - 1) / BLOCK_SIZE)).

(** The reference run: the logical threads run one after the other, in the
    order of their task ids.  It is one of the orders a device may take;
    [Device.run_visits] takes any. *)
Definition run_threads {S : Type} (thread : Z -> S -> S) (count : nat) (s : S) : S :=
  fold_left (fun st k => thread (Z.of_nat k) st) (seq 0 count) s.

Definition split_kernel (max_leaf_size : Z) (keep_singletons : bool)
    (codes : list Z) (in_tasks_count : Z) (in_tasks : task_buffer)
    (out_nodes_count : Z) (ks : kernel_state) : kernel_state :=
  run_threads
    (split_thread max_leaf_size keep_singletons codes in_tasks_count in_tasks
       out_nodes_count)
    (grid_threads in_tasks_count) ks.

Definition gen_leaves_kernel (in_tasks_count : Z) (in_tasks : task_buffer)
    (ls : list tree_op * Z) : list tree_op * Z :=
  run_threads (gen_leaves_thread in_tasks_count in_tasks)
    (grid_threads in_tasks_count) ls.

(** [Bintree_gen_context]: the two task queues and the counters (pending
    tasks of queue 0 and of queue 1, then the leaf counter). *)
Record Bintree_gen_context : Type := mk_Bintree_gen_context
  { m_task_queues : Z -> task_buffer;
    m_counters : Z -> Z;
    m_nodes : Z;
    m_leaves : Z }.

Definition set_counter (c : Z -> Z) (i v : Z) : Z -> Z :=
  fun j => if j =? i then v else c j.

Definition set_queue (q : Z -> task_buffer) (i : Z) (b : task_buffer)
  : Z -> task_buffer :=
  fun j => if j =? i then b else q j.

(** The variables of [generate] while its loop runs. *)
Record build_state : Type := mk_build_state
  { b_queues : Z -> task_buffer;
    b_counters : Z -> Z;
    b_tree : list tree_op;
    in_queue : Z;
    out_queue : Z;
    n_nodes : Z;
    level : Z }.

(** The state [generate] enters its loop with: one task spanning all keys at
    the top bit in queue 0. *)
Definition seed_state (context : Bintree_gen_context) (n_codes bits : Z)
  : build_state :=
  let in_queue := 0 in
  let out_queue := 1 in
  {| b_queues :=
       set_queue (m_task_queues context) in_queue
         (store (m_task_queues context in_queue) 0
            (mk_Split_task 0 0 n_codes (to_uint32 (bits - 1))));
     b_counters :=
       set_counter
         (set_counter (set_counter (m_counters context) in_queue 1) out_queue 0)
         2 0;
     b_tree := [];
     in_queue := in_queue;
     out_queue := out_queue;
     n_nodes := 1;
     level := to_int32 (bits - 1) |}.

(** [context.m_counters[ in_queue ] && level >= 0] *)
Definition loop_cond (s : build_state) : bool :=
  negb (b_counters s (in_queue s) =? 0) && (level s >=? 0).

(** What the round's [split] launch starts from: the tree so far, the
    cleared output counter with the output queue, and the leaf counter. *)
Definition split_entry (s : build_state) : kernel_state :=
  let counters := set_counter (b_counters s) (out_queue s) 0 in
  {| k_tree := b_tree s;
     k_out_tasks_count := counters (out_queue s);
     k_out_tasks := b_queues s (out_queue s);
     k_out_leaf_count := counters 2 |}.

(** One round of the loop: clear the output counter, split every task of the
    input queue, count the new nodes, swap the queues, decrease the level. *)
Definition loop_body (max_leaf_size : Z) (keep_singletons : bool)
    (codes : list Z) (s : build_state) : build_state :=
  let counters := set_counter (b_counters s) (out_queue s) 0 in
  let ks :=
    split_kernel max_leaf_size keep_singletons codes
      (counters (in_queue s)) (b_queues s (in_queue s)) (n_nodes s)
      (split_entry s) in
  let counters :=
    set_counter (set_counter counters (out_queue s) (k_out_tasks_count ks))
      2 (k_out_leaf_count ks) in
  {| b_queues := set_queue (b_queues s) (out_queue s) (k_out_tasks ks);
     b_counters := counters;
     b_tree := k_tree ks;
     in_queue := out_queue s;
     out_queue := in_queue s;
     n_nodes := to_uint32 (n_nodes s + counters (out_queue s));
     level := level s - 1 |}.

Fixpoint generate_loop (fuel : nat) (max_leaf_size : Z)
    (keep_singletons : bool) (codes : list Z) (s : build_state)
  : option build_state :=
  if loop_cond s then
    match fuel with
    | O => None
    | S fuel' =>
        generate_loop fuel' max_leaf_size keep_singletons codes
          (loop_body max_leaf_size keep_singletons codes s)
    end
  else Some s.

(** [generate]: the context it leaves and the writes the tree received.
    [None] stands for the division [n_codes / max_leaf_size] by zero of the
    first reservation; the reservations themselves only size buffers. *)
Definition generate (context : Bintree_gen_context) (n_codes : Z)
    (codes : list Z) (bits max_leaf_size : Z) (keep_singletons : bool)
  : option (Bintree_gen_context * list tree_op) :=
  if max_leaf_size =? 0 then None
  else
    let s0 := seed_state context n_codes bits in
    match generate_loop (Z.to_nat (level s0 + 1)) max_leaf_size
            keep_singletons codes s0 with
    | None => None
    | Some s =>
        let '(tree, leaves) :=
          if negb (b_counters s (in_queue s) =? 0) then
            gen_leaves_kernel (b_counters s (in_queue s))
              (b_queues s (in_queue s)) (b_tree s, b_counters s 2)
          else (b_tree s, b_counters s 2) in
        Some ({| m_task_queues := b_queues s;
                 m_counters := set_counter (b_counters s) 2 leaves;
                 m_nodes := n_nodes s;
                 m_leaves := leaves |},
              tree)
    end.

(** *** Reading a build *)

(** The tasks a queue holds: its first [count] slots. *)
Definition queue_list (q : task_buffer) (count : Z) : list Split_task :=
  map (fun k => q (Z.of_nat k)) (seq 0 (Z.to_nat count)).

(** The pending tasks of a build state. *)
Definition in_tasks_of (s : build_state) : list Split_task :=
  queue_list (b_queues s (in_queue s)) (b_counters s (in_queue s)).

Definition task_range (t : Split_task) : Z * Z := (m_begin t, m_end t).

(** The [(begin, end)] records handed to [write_leaf]. *)
Definition leaf_ranges (ops : list tree_op) : list (Z * Z) :=
  flat_map (fun op =>
              match op with
              | write_leaf _ b e => [(b, e)]
              | write_node _ _ _ _ => []
              end) ops.

Definition covers (i : Z) (r : Z * Z) : bool := (fst r <=? i) && (i <? snd r).

(** How many of the ranges contain index [i]. *)
Definition cover_count (i : Z) (rs : list (Z * Z)) : Z :=
  Z.of_nat (length (filter (covers i) rs)).

(** The states the loop of [generate] passes through, the one it leaves with
    included. *)
Inductive loop_reaches (max_leaf_size : Z) (keep_singletons : bool)
    (codes : list Z) (s0 : build_state) : build_state -> Prop :=
| reaches_seed : loop_reaches max_leaf_size keep_singletons codes s0 s0
| reaches_round s :
    loop_reaches max_leaf_size keep_singletons codes s0 s ->
    loop_cond s = true ->
    loop_reaches max_leaf_size keep_singletons codes s0
      (loop_body max_leaf_size keep_singletons codes s).

(** *** Invariants of a build over [n] keys *)

Definition size_sum (rs : list (Z * Z)) : Z :=
  fold_right (fun r acc => (snd r - fst r) + acc) 0 rs.

(** A non-empty range inside [0, n). *)
Definition range_ok (n : Z) (r : Z * Z) : Prop :=
  0 <= fst r /\ fst r < snd r /\ snd r <= n.

Definition task_ok (n : Z) (P : Z -> Prop) (t : Split_task) : Prop :=
  range_ok n (task_range t) /\ P (m_input t).

Definition leaf_ok (n max_leaf_size : Z) (r : Z * Z) : Prop :=
  range_ok n r /\ snd r - fst r <= max_leaf_size.

(** While a launch of [split_kernel] runs: the tasks already emitted, the
    tasks still [pending] in the input queue and the leaves written so far
    have ranges that cover every key index exactly once. *)
Record kernel_inv (n max_leaf_size : Z) (Pout Pin : Z -> Prop)
    (pending : list Split_task) (ks : kernel_state) : Prop :=
  { ki_count : 0 <= k_out_tasks_count ks;
    ki_out :
      Forall (task_ok n Pout)
        (queue_list (k_out_tasks ks) (k_out_tasks_count ks));
    ki_pending : Forall (task_ok n Pin) pending;
    ki_leaves : Forall (leaf_ok n max_leaf_size) (leaf_ranges (k_tree ks));
    ki_cover :
      forall i, 0 <= i < n ->
        cover_count i
          (map task_range (queue_list (k_out_tasks ks) (k_out_tasks_count ks)))
        + cover_count i (map task_range pending)
        + cover_count i (leaf_ranges (k_tree ks)) = 1;
    ki_size :
      size_sum
        (map task_range (queue_list (k_out_tasks ks) (k_out_tasks_count ks)))
      + size_sum (map task_range pending)
      + size_sum (leaf_ranges (k_tree ks)) = n }.

(** At the head of the loop of [generate]; [P g] is what is known of the bit
    level of a task queued while the loop is at level [g]. *)
Record build_inv (n max_leaf_size : Z) (P : Z -> Z -> Prop)
    (s : build_state) : Prop :=
  { bi_in : in_queue s = 0 \/ in_queue s = 1;
    bi_out : out_queue s = 1 - in_queue s;
    bi_count : 0 <= b_counters s (in_queue s);
    bi_tasks : Forall (task_ok n (P (level s))) (in_tasks_of s);
    bi_leaves : Forall (leaf_ok n max_leaf_size) (leaf_ranges (b_tree s));
    bi_cover :
      forall i, 0 <= i < n ->
        cover_count i (map task_range (in_tasks_of s))
        + cover_count i (leaf_ranges (b_tree s)) = 1;
    bi_size :
      size_sum (map task_range (in_tasks_of s))
      + size_sum (leaf_ranges (b_tree s)) = n }.


(** A context whose queues and counters hold nothing yet. *)
Definition fresh_context : Bintree_gen_context :=
  {| m_task_queues := fun _ _ => mk_Split_task 0 0 0 0;
     m_counters := fun _ => 0;
     m_nodes := 0;
     m_leaves := 0 |}.

(** *** Sample inputs *)

Definition keys8 : list Z := [0; 1; 2; 3; 4; 5; 6; 7].

(** A queue whose slot 0 holds the task [(node 0, [0, 1), level 2)]. *)
Definition one_key_queue : task_buffer := fun _ => mk_Split_task 0 0 1 2.

(** A queue whose slot 0 holds the task [(node 0, [0, 8), level 2)]. *)
Definition eight_key_queue : task_buffer := fun _ => mk_Split_task 0 0 8 2.

(** A launch that has written nothing yet. *)
Definition launch_start : kernel_state :=
  {| k_tree := [];
     k_out_tasks_count := 0;
     k_out_tasks := fun _ => mk_Split_task 0 0 0 0;
     k_out_leaf_count := 0 |}.

(** *** Reading the writes of a build *)

(** The node indices handed to [write_node], in the order of the writes. *)
Definition node_writes (ops : list tree_op) : list Z :=
  flat_map (fun op =>
              match op with
              | write_node node _ _ _ => [node]
              | write_leaf _ _ _ => []
              end) ops.

(** The leaf indices handed to [write_leaf], in the order of the writes. *)
Definition leaf_writes (ops : list tree_op) : list Z :=
  flat_map (fun op =>
              match op with
              | write_leaf index _ _ => [index]
              | write_node _ _ _ _ => []
              end) ops.

(** The writes of the Leaf-Generation Stage for the task in slot [k], the
    leaf counter standing at [leaf_count] when the launch starts. *)
Definition leaf_task_writes (in_tasks : task_buffer) (leaf_count k : Z)
  : list tree_op :=
  [write_node (m_node (in_tasks k)) false false (leaf_count + k);
   write_leaf (leaf_count + k) (m_begin (in_tasks k)) (m_end (in_tasks k))].

(** *** The launch configuration of [split] and [gen_leaves] *)

(** [n_blocks]; [max_blocks] is the number of active blocks the runtime
    reports for the kernel. *)
Definition launch_blocks (max_blocks in_tasks_count : Z) : Z :=
  Z.min max_blocks (to_uint32 (in_tasks_count + BLOCK_SIZE - 1) / BLOCK_SIZE).

(** [grid_size], as the kernel receives it in its [uint32] parameter. *)
Definition launch_grid_size (max_blocks in_tasks_count : Z) : Z :=
  to_uint32 (launch_blocks max_blocks in_tasks_count * BLOCK_SIZE).

(** [blockIdx.x * BLOCK_SIZE], the first base index of a physical block. *)
Definition block_start (block : Z) : Z := to_uint32 (block * BLOCK_SIZE).

(** The [for] loop of a kernel over the logical blocks of one physical
    block: the base indices it visits from [base_idx] on.  [None] when
    [fuel] rounds do not end the loop. *)
Fixpoint block_bases (fuel : nat) (grid_size in_tasks_count base_idx : Z)
  : option (list Z) :=
  if base_idx <? in_tasks_count then
    match fuel with
    | O => None
    | S fuel' =>
        option_map (cons base_idx)
          (block_bases fuel' grid_size in_tasks_count
             (to_uint32 (base_idx + grid_size)))
    end
  else Some [].

(** [resize_if_needed] on a vector held as a list; [filler] stands for the
    elements [resize] adds. *)
Definition resize_if_needed {A : Type} (filler : A) (vec : list A) (size : Z)
  : list A :=
  if Z.of_nat (length vec) <? size
  then vec ++ repeat filler (Z.to_nat size - length vec)
  else vec.

(** The leaf indices written so far are [0 .. leaf_count - 1], in order. *)
Definition leaves_numbered (tree : list tree_op) (leaf_count : Z) : Prop :=
  0 <= leaf_count /\ leaf_writes tree = Octree.Zrange (Z.to_nat leaf_count).

End Bintree.

(** ** The launches as the device runs them

    [Bintree.split_kernel] and [Bintree.gen_leaves_kernel] run one logical
    thread per task, in the order of the task ids: the reference run of a
    launch.  Here a launch is what the host functions [split] and
    [gen_leaves] configure: [n_blocks] physical blocks of [BLOCK_SIZE]
    threads, each block stepping through its logical blocks with the
    [uint32] arithmetic of the kernels, and the visits of the threads
    taking their turn in an order the device chooses. *)

Module Device.

Import Bintree.

(** The task ids of the threads of one logical block,
    [threadIdx.x + base_idx] for [threadIdx.x] from 0 to [BLOCK_SIZE - 1],
    a [uint32] sum. *)
Definition block_tasks (base_idx : Z) : list Z :=
  map (fun thread => to_uint32 (thread + base_idx))
    (Octree.Zrange (Z.to_nat BLOCK_SIZE)).

(** The task ids the threads of the physical blocks [blocks] come to, block
    by block and round by round of the loop of a block.  A task id appears
    as often as a thread comes to it.  The loop of a block that ends does so
    within [in_tasks_count] rounds, its base indices being distinct and
    below [in_tasks_count]; [None] when the loop of some block does not
    end. *)
Fixpoint grid_tasks (grid_size in_tasks_count : Z) (blocks : list Z)
  : option (list Z) :=
  match blocks with
  | [] => Some []
  | block :: blocks' =>
      match block_bases (Z.to_nat in_tasks_count) grid_size in_tasks_count
              (block_start block) with
      | None => None
      | Some bases =>
          option_map (app (flat_map block_tasks bases))
            (grid_tasks grid_size in_tasks_count blocks')
      end
  end.

(** The visits of a launch [<<<n_blocks, BLOCK_SIZE>>>] over
    [in_tasks_count] tasks; none when [n_blocks] is 0. *)
Definition launch_tasks (max_blocks in_tasks_count : Z) : option (list Z) :=
  grid_tasks (launch_grid_size max_blocks in_tasks_count) in_tasks_count
    (Octree.Zrange (Z.to_nat (launch_blocks max_blocks in_tasks_count))).

(** The visits take their turn one at a time, in the order given.  A thread
    whose task becomes a leaf takes no slot of the output queue and a thread
    whose task is split takes no leaf slot, so the orders in which the two
    counters are advanced do not constrain each other and one order of the
    visits stands for both. *)
Definition run_visits {S : Type} (thread : Z -> S -> S) (order : list Z)
    (s : S) : S :=
  fold_left (fun st task_id => thread task_id st) order s.

(** [split]: the launch of [split_kernel].  [sched] is the order the device
    gives the visits, [max_blocks] the number of active blocks the runtime
    reports. *)
Definition split (sched : list Z -> list Z) (max_blocks : Z)
    (max_leaf_size : Z) (keep_singletons : bool) (codes : list Z)
    (in_tasks_count : Z) (in_tasks : task_buffer) (out_nodes_count : Z)
    (ks : kernel_state) : option kernel_state :=
  option_map
    (fun ids =>
       run_visits
         (split_thread max_leaf_size keep_singletons codes in_tasks_count
            in_tasks out_nodes_count)
         (sched ids) ks)
    (launch_tasks max_blocks in_tasks_count).

(** [gen_leaves]: the launch of [gen_leaves_kernel]. *)
Definition gen_leaves (sched : list Z -> list Z) (max_blocks : Z)
    (in_tasks_count : Z) (in_tasks : task_buffer) (ls : list tree_op * Z)
  : option (list tree_op * Z) :=
  option_map
    (fun ids =>
       run_visits (gen_leaves_thread in_tasks_count in_tasks) (sched ids) ls)
    (launch_tasks max_blocks in_tasks_count).

(** What the device brings to a build: the number of active blocks the
    runtime reports for each of the two kernels, and the order of the
    visits of each launch, the launches of a build being told apart by the
    level of the loop. *)
Record runtime : Type := mk_runtime
  { split_blocks : Z;
    gen_leaves_blocks : Z;
    visit_order : Z -> list Z -> list Z }.

(** Both kernels can run, and an order of visits leaves none out and adds
    none. *)
Definition runtime_ok (d : runtime) : Prop :=
  1 <= split_blocks d /\ 1 <= gen_leaves_blocks d
  /\ forall g ids, Permutation (visit_order d g ids) ids.

(** One round of the loop of [generate], the launch run by the device. *)
Definition loop_body (d : runtime) (max_leaf_size : Z)
    (keep_singletons : bool) (codes : list Z) (s : build_state)
  : option build_state :=
  let counters := set_counter (b_counters s) (out_queue s) 0 in
  match split (visit_order d (level s)) (split_blocks d)
          max_leaf_size keep_singletons codes
          (counters (in_queue s)) (b_queues s (in_queue s)) (n_nodes s)
          (split_entry s) with
  | None => None
  | Some ks =>
      let counters :=
        set_counter (set_counter counters (out_queue s) (k_out_tasks_count ks))
          2 (k_out_leaf_count ks) in
      Some {| b_queues := set_queue (b_queues s) (out_queue s) (k_out_tasks ks);
              b_counters := counters;
              b_tree := k_tree ks;
              in_queue := out_queue s;
              out_queue := in_queue s;
              n_nodes := to_uint32 (n_nodes s + counters (out_queue s));
              level := level s - 1 |}
  end.

Fixpoint generate_loop (d : runtime) (fuel : nat) (max_leaf_size : Z)
    (keep_singletons : bool) (codes : list Z) (s : build_state)
  : option build_state :=
  if loop_cond s then
    match fuel with
    | O => None
    | S fuel' =>
        match loop_body d max_leaf_size keep_singletons codes s with
        | None => None
        | Some s' =>
            generate_loop d fuel' max_leaf_size keep_singletons codes s'
        end
    end
  else Some s.

(** [generate] with its launches run by the device.  [None] stands for the
    division by zero of the first reservation and for a launch that does
    not end. *)
Definition generate (d : runtime) (context : Bintree_gen_context)
    (n_codes : Z) (codes : list Z) (bits max_leaf_size : Z)
    (keep_singletons : bool)
  : option (Bintree_gen_context * list tree_op) :=
  if max_leaf_size =? 0 then None
  else
    let s0 := seed_state context n_codes bits in
    match generate_loop d (Z.to_nat (level s0 + 1)) max_leaf_size
            keep_singletons codes s0 with
    | None => None
    | Some s =>
        match
          (if negb (b_counters s (in_queue s) =? 0) then
             gen_leaves (visit_order d (level s)) (gen_leaves_blocks d)
               (b_counters s (in_queue s)) (b_queues s (in_queue s))
               (b_tree s, b_counters s 2)
           else Some (b_tree s, b_counters s 2))
        with
        | None => None
        | Some (tree, leaves) =>
            Some ({| m_task_queues := b_queues s;
                     m_counters := set_counter (b_counters s) 2 leaves;
                     m_nodes := n_nodes s;
                     m_leaves := leaves |},
                  tree)
        end
    end.

(** The states the loop passes through on the device. *)
Inductive loop_reaches (d : runtime) (max_leaf_size : Z)
    (keep_singletons : bool) (codes : list Z) (s0 : build_state)
  : build_state -> Prop :=
| reaches_seed : loop_reaches d max_leaf_size keep_singletons codes s0 s0
| reaches_round s s' :
    loop_reaches d max_leaf_size keep_singletons codes s0 s ->
    loop_cond s = true ->
    loop_body d max_leaf_size keep_singletons codes s = Some s' ->
    loop_reaches d max_leaf_size keep_singletons codes s0 s'.

(** The two writes of the Leaf-Generation Stage for the task of slot
    [snd p], visited as the [fst p]-th of the launch. *)
Definition leaf_visit_writes (in_tasks : task_buffer) (leaf_count : Z)
    (p : Z * Z) : list tree_op :=
  [write_node (m_node (in_tasks (snd p))) false false (leaf_count + fst p);
   write_leaf (leaf_count + fst p) (m_begin (in_tasks (snd p)))
     (m_end (in_tasks (snd p)))].

(** The input queue as the visits of a launch read it: slot [k] is the task
    the [k]-th visit comes to. *)
Definition reorder (in_tasks : task_buffer) (live : list Z) : task_buffer :=
  fun k => in_tasks (nth (Z.to_nat k) live 0).

(** The indices carried by the nodes written with neither child flag set. *)
Definition leaf_node_indices (ops : list tree_op) : list Z :=
  flat_map (fun op =>
              match op with
              | write_node _ false false index => [index]
              | _ => []
              end) ops.

(** At the head of the loop: the nodes written so far are those numbered
    below [n_nodes - pending], each once, and the pending task of slot [j]
    owns the node [n_nodes - pending + j]. *)
Definition nodes_counted (s : build_state) : Prop :=
  let pending := b_counters s (in_queue s) in
  0 <= n_nodes s - pending
  /\ Permutation (node_writes (b_tree s))
       (Octree.Zrange (Z.to_nat (n_nodes s - pending)))
  /\ forall j, 0 <= j < pending ->
                m_node (b_queues s (in_queue s) j) = n_nodes s - pending + j.

(** *** A build over counting keys

    The keys [0 .. n - 1] with 32 bits, [keep_singletons] set and one key
    per leaf: the Split Stage halves aligned blocks of keys level by
    level. *)




(** *** Sample inputs *)

(** Two active blocks for either kernel; the visits of a launch run from the
    last to the first. *)
Definition backwards : runtime :=
  {| split_blocks := 2;
     gen_leaves_blocks := 2;
     visit_order := fun _ ids => rev ids |}.

(** Three equal keys, then two keys that differ from them in bit 2. *)
Definition keys5 : list Z := [0; 0; 0; 4; 5].

(** A queue whose slot [k] holds the task [(node 10 + k, [2k, 2k + 2),
    level 0)]. *)
Definition pair_queue : task_buffer :=
  fun k => mk_Split_task (10 + k) (2 * k) (2 * k + 2) 0.

End Device.

(** * Properties *)

Import Octree Bintree.

(** ** Words *)

Section WordFacts.

Lemma to_uint32_range x : 0 <= to_uint32 x < 2 ^ 32.
Proof. unfold to_uint32. apply Z.mod_pos_bound. lia. Qed.

Lemma to_uint32_small x : 0 <= x < 2 ^ 32 -> to_uint32 x = x.
Proof. intros H. unfold to_uint32. apply Z.mod_small. exact H. Qed.

Lemma to_int32_small x : - 2 ^ 31 <= x < 2 ^ 31 -> to_int32 x = x.
Proof. intros H. unfold to_int32. rewrite Z.mod_small; lia. Qed.

Lemma to_int32_to_uint32 x : to_int32 (to_uint32 x) = to_int32 x.
Proof.
  unfold to_int32, to_uint32.
  rewrite Zplus_mod_idemp_l. reflexivity.
Qed.


Lemma testbit_small x w k :
  0 <= x < 2 ^ w -> w <= k -> Z.testbit x k = false.
Proof.
  intros [Hx0 Hxw] Hk.
  destruct (Z.eq_dec x 0) as [->|Hne].
  - apply Z.testbit_0_l.
  - apply Z.bits_above_log2; [lia|].
    assert (Z.log2 x < w) by (apply Z.log2_lt_pow2; lia). lia.
Qed.

Lemma shl32_8_small c : 0 <= c < 2 ^ 24 -> shl32 c 8 = c * 256.
Proof.
  intros H. unfold shl32. cbn [Z.ltb Z.compare Pos.compare Pos.compare_cont].
  rewrite Z.shiftl_mul_pow2 by lia.
  apply to_uint32_small. change (2 ^ 8) with 256. lia.
Qed.

Lemma land_255 n : Z.land n 255 = n mod 256.
Proof. change 255 with (Z.ones 8). rewrite Z.land_ones by lia. reflexivity. Qed.

Lemma shr32_8 n : shr32 n 8 = n / 256.
Proof. unfold shr32. rewrite Z.shiftr_div_pow2 by lia. reflexivity. Qed.

Lemma testbit_high_mask k :
  0 <= k -> Z.testbit 4294967040 k = (8 <=? k) && (k <? 32).
Proof.
  intros Hk. change 4294967040 with (Z.shiftl (Z.ones 24) 8).
  rewrite Z.shiftl_spec by lia.
  destruct (Z.leb_spec 8 k) as [H8|H8].
  - rewrite Z.testbit_ones_nonneg by lia.
    destruct (Z.ltb_spec (k - 8) 24), (Z.ltb_spec k 32); simpl; lia || reflexivity.
  - rewrite Z.testbit_neg_r by lia. reflexivity.
Qed.

End WordFacts.

(** ** Octree nodes *)

Section OctreeFacts.

Lemma Zrange_In (n : nat) (x : Z) : 0 <= x < Z.of_nat n -> In x (Zrange n).
Proof.
  intros H. unfold Zrange. apply in_map_iff.
  exists (Z.to_nat x). split; [lia|]. apply in_seq. lia.
Qed.

Lemma octant_table : octant_table_ok = true.
Proof. vm_compute. reflexivity. Qed.

Lemma octant_row m i :
  0 <= m < 256 -> 0 <= i < 8 -> octant_row_ok m i = true.
Proof.
  intros Hm Hi. pose proof octant_table as T. unfold octant_table_ok in T.
  rewrite forallb_forall in T.
  specialize (T m (Zrange_In 256 m ltac:(lia))).
  rewrite forallb_forall in T.
  exact (T i (Zrange_In 8 i ltac:(lia))).
Qed.

Lemma get_child_mask_range n : 0 <= get_child_mask n < 256.
Proof.
  unfold get_child_mask. rewrite land_255. apply Z.mod_pos_bound. lia.
Qed.

Lemma get_child_offset_range n :
  0 <= n < 2 ^ 32 -> 0 <= get_child_offset n < 2 ^ 24.
Proof.
  intros H. unfold get_child_offset. rewrite shr32_8.
  split; [apply Z.div_pos; lia|].
  apply Z.div_lt_upper_bound; [lia|].
  change (256 * 2 ^ 24) with (2 ^ 32). lia.
Qed.

Lemma popc_bits_nonneg k x : 0 <= popc_bits k x.
Proof.
  revert x. induction k as [|k IH]; intros x; cbn [popc_bits]; [lia|].
  specialize (IH (Z.div2 x)). destruct (Z.odd x); cbn [Z.b2z]; lia.
Qed.

(** The host variant of [get_octant] is the rank lookup: the sentinel
    exactly on the inactive octants, and on an active octant the child offset
    plus the number of mask bits strictly below it. *)
Lemma get_octant_host_rank n i :
  0 <= n < 2 ^ 32 -> 0 <= i < 8 ->
  (get_octant_host n i = kInvalid <-> Z.testbit (get_child_mask n) i = false)
  /\ (Z.testbit (get_child_mask n) i = true ->
      get_octant_host n i
      = get_child_offset n + bits_below (get_child_mask n) i).
Proof.
  intros Hn Hi.
  pose proof (octant_row _ _ (get_child_mask_range n) Hi) as R.
  pose proof (get_child_offset_range n Hn) as Ho.
  unfold octant_row_ok in R.
  repeat (apply andb_prop in R; destruct R as [R ?]).
  apply Bool.eqb_prop in R.
  unfold get_octant_host. rewrite R.
  destruct (Z.testbit (get_child_mask n) i).
  - assert (E : popc (to_uint8 (shl32 (get_child_mask n) (to_uint32 (8 - i))))
                = bits_below (get_child_mask n) i) by lia.
    rewrite E.
    assert (0 <= bits_below (get_child_mask n) i <= 8)
      by (unfold bits_below in *; lia).
    rewrite to_uint32_small by lia.
    unfold kInvalid. split; [split; [lia|discriminate]|reflexivity].
  - split; [tauto|discriminate].
Qed.

(** The device variant counts every bit of the mask: on an active octant it
    returns the child offset plus the population count of the whole mask. *)
Lemma get_octant_device_counts_all n i :
  0 <= n < 2 ^ 32 -> 0 <= i < 8 ->
  Z.testbit (get_child_mask n) i = true ->
  get_octant_device n i = get_child_offset n + popc (get_child_mask n).
Proof.
  intros Hn Hi Hb.
  pose proof (octant_row _ _ (get_child_mask_range n) Hi) as R.
  pose proof (get_child_offset_range n Hn) as Ho.
  unfold octant_row_ok in R.
  repeat (apply andb_prop in R; destruct R as [R ?]).
  apply Bool.eqb_prop in R.
  unfold get_octant_device. rewrite R, Hb.
  assert (E : popc (shl32 (get_child_mask n) (to_uint32 (8 - i)))
              = popc (get_child_mask n)) by lia.
  rewrite E.
  pose proof (popc_bits_nonneg 32 (get_child_mask n)) as Hp.
  fold (popc (get_child_mask n)) in Hp.
  apply to_uint32_small. lia.
Qed.

(** C2: on the node with child mask [0b11] and child offset 0, octant 0 is
    active and no mask bit lies below it, so the lookup is to return 0 + 0;
    the host variant does, the device variant returns 2. *)
Theorem get_octant_device_skips_truncation :
  get_child_mask 3 = 3 /\ get_child_offset 3 = 0
  /\ Z.testbit (get_child_mask 3) 0 = true
  /\ bits_below (get_child_mask 3) 0 = 0
  /\ get_octant_host 3 0 = 0
  /\ get_octant_device 3 0 = 2.
Proof. vm_compute. repeat split. Qed.

(** The full constructor keeps nothing of an 8-bit mask and an offset: the
    shifted offset has no bit below position 8, the mask none above 7. *)
Lemma Octree_node_full_zero mask index :
  0 <= mask < 256 -> Octree_node_full mask index = 0.
Proof.
  intros Hm. unfold Octree_node_full, shl32, to_uint32.
  cbn [Z.ltb Z.compare Pos.compare Pos.compare_cont].
  apply Z.bits_inj'. intros k Hk.
  rewrite Z.land_spec, Z.bits_0.
  destruct (Z.ltb_spec k 8) as [Hlt|Hge].
  - rewrite Z.mod_pow2_bits_low by lia.
    rewrite Z.shiftl_spec by lia.
    rewrite Z.testbit_neg_r by lia. reflexivity.
  - rewrite (testbit_small mask 8 k) by (change (2 ^ 8) with 256; lia).
    apply andb_false_r.
Qed.

(** C3: built from mask 1 and offset 2, the node is to be [(2 << 8) | 1],
    that is 513, with mask 1 and offset 2; the constructor yields the word 0,
    whose mask and offset are both 0. *)
Theorem Octree_node_full_drops_fields :
  Octree_node_full 1 2 = 0
  /\ Z.lor (shl32 2 8) 1 = 513
  /\ get_child_mask (Octree_node_full 1 2) = 0
  /\ get_child_offset (Octree_node_full 1 2) = 0.
Proof. vm_compute. repeat split. Qed.

(** C10: on a node word, writing an 8-bit mask is read back by
    [get_child_mask] and leaves [get_child_offset] as it was; writing a
    24-bit offset is read back by [get_child_offset] and leaves
    [get_child_mask] as it was. *)
Theorem set_child_fields_frame n m c :
  0 <= n < 2 ^ 32 -> 0 <= m < 256 -> 0 <= c < 2 ^ 24 ->
  get_child_mask (set_child_mask n m) = m
  /\ get_child_offset (set_child_mask n m) = get_child_offset n
  /\ get_child_offset (set_child_offset n c) = c
  /\ get_child_mask (set_child_offset n c) = get_child_mask n.
Proof.
  intros Hn Hm Hc.
  assert (Hm8 : forall k, 8 <= k -> Z.testbit m k = false)
    by (intros; apply (testbit_small m 8); [change (2 ^ 8) with 256|]; lia).
  assert (Hn32 : forall k, 32 <= k -> Z.testbit n k = false)
    by (intros; apply (testbit_small n 32); lia).
  unfold get_child_mask, get_child_offset, set_child_mask, set_child_offset,
    shr32.
  rewrite (shl32_8_small c Hc).
  change 256 with (2 ^ 8). rewrite <- Z.shiftl_mul_pow2 by lia.
  change 255 with (Z.ones 8).
  repeat split; apply Z.bits_inj'; intros k Hk.
  - rewrite Z.land_spec, Z.lor_spec, Z.land_spec, testbit_high_mask by lia.
    rewrite Z.testbit_ones_nonneg by lia.
    destruct (Z.ltb_spec k 8), (Z.leb_spec 8 k); try lia; simpl.
    + rewrite andb_false_r, andb_true_r. reflexivity.
    + rewrite Hm8 by lia. rewrite andb_false_r. reflexivity.
  - rewrite !Z.shiftr_spec, Z.lor_spec, Z.land_spec, testbit_high_mask by lia.
    rewrite Hm8 by lia. rewrite orb_false_r.
    destruct (Z.leb_spec 8 (k + 8)); try lia; simpl.
    destruct (Z.ltb_spec (k + 8) 32); simpl.
    + apply andb_true_r.
    + rewrite Hn32 by lia. reflexivity.
  - rewrite Z.shiftr_spec, Z.lor_spec, Z.land_spec, Z.shiftl_spec by lia.
    rewrite Z.testbit_ones_nonneg by lia.
    destruct (Z.ltb_spec (k + 8) 8); try lia.
    rewrite andb_false_r. simpl. f_equal. lia.
  - rewrite Z.land_spec, Z.lor_spec, !Z.land_spec, Z.shiftl_spec by lia.
    rewrite Z.testbit_ones_nonneg by lia.
    destruct (Z.ltb_spec k 8); simpl.
    + rewrite (Z.testbit_neg_r c) by lia.
      rewrite andb_true_r, orb_false_r. reflexivity.
    + rewrite !andb_false_r. reflexivity.
Qed.

Lemma set_child_fields_frame_witness :
  get_child_mask (set_child_mask 513 7) = 7
  /\ get_child_offset (set_child_mask 513 7) = get_child_offset 513
  /\ get_child_offset (set_child_offset 513 9) = 9
  /\ get_child_mask (set_child_offset 513 9) = get_child_mask 513.
Proof. apply (set_child_fields_frame 513 7 9); lia. Defined.

End OctreeFacts.

(** ** The leading bit difference *)

Section LeadingBit.

Lemma shl32_1_bit l : 0 <= l < 32 -> shl32 1 l = 2 ^ l.
Proof.
  intros H. unfold shl32. destruct (Z.ltb_spec l 32); [|lia].
  rewrite Z.shiftl_1_l.
  apply to_uint32_small. split; [lia|].
  apply Z.pow_lt_mono_r; lia.
Qed.

Lemma land_pow2 c l :
  0 <= l -> Z.land c (2 ^ l) = if Z.testbit c l then 2 ^ l else 0.
Proof.
  intros Hl. apply Z.bits_inj'. intros k Hk.
  rewrite Z.land_spec, Z.pow2_bits_eqb by lia.
  destruct (Z.eqb_spec l k) as [->|Hne].
  - destruct (Z.testbit c k); simpl.
    + rewrite Z.pow2_bits_true by lia. reflexivity.
    + rewrite Z.bits_0. reflexivity.
  - rewrite andb_false_r.
    destruct (Z.testbit c l).
    + rewrite Z.pow2_bits_false by lia. reflexivity.
    + rewrite Z.bits_0. reflexivity.
Qed.

(** The comparison of the loop body is the comparison of bit [l]. *)
Lemma masked_differ c0 c1 l :
  0 <= l < 32 ->
  negb (Z.land c0 (shl32 1 l) =? Z.land c1 (shl32 1 l))
  = negb (Bool.eqb (Z.testbit c0 l) (Z.testbit c1 l)).
Proof.
  intros Hl. rewrite shl32_1_bit by exact Hl.
  rewrite !land_pow2 by lia.
  assert (0 < 2 ^ l) by (apply Z.pow_pos_nonneg; lia).
  destruct (Z.testbit c0 l), (Z.testbit c1 l); cbn [Bool.eqb negb];
    rewrite ?Z.eqb_refl; try reflexivity.
  - replace (2 ^ l =? 0) with false by (symmetry; apply Z.eqb_neq; lia).
    reflexivity.
  - replace (0 =? 2 ^ l) with false by (symmetry; apply Z.eqb_neq; lia).
    reflexivity.
Qed.

(** The loop stops at the first differing position at or below [level]
    and runs down to -1 when there is none; [fuel] suffices as soon as it
    covers the positions [level .. 0]. *)
Lemma find_leading_bit_difference_loop_spec fuel :
  forall level c0 c1,
    -1 <= level < 32 -> level + 1 <= Z.of_nat fuel ->
    let r := find_leading_bit_difference_loop fuel level c0 c1 in
    -1 <= r <= level
    /\ (forall j, r < j <= level -> Z.testbit c0 j = Z.testbit c1 j)
    /\ (0 <= r -> Z.testbit c0 r <> Z.testbit c1 r).
Proof.
  induction fuel as [|fuel IH]; intros level c0 c1 Hl Hf; cbn zeta.
  - cbn [find_leading_bit_difference_loop].
    repeat split; try lia; intros; lia.
  - cbn [find_leading_bit_difference_loop].
    destruct (Z.geb_spec level 0) as [Hge|Hlt].
    + rewrite masked_differ by lia.
      destruct (Bool.eqb (Z.testbit c0 level) (Z.testbit c1 level)) eqn:E;
        cbn [negb].
      * apply Bool.eqb_prop in E.
        specialize (IH (level - 1) c0 c1 ltac:(lia) ltac:(lia)).
        cbn zeta in IH. destruct IH as (Hr & Hagree & Hdiff).
        split; [lia|]. split; [|exact Hdiff].
        intros j Hj. destruct (Z.eq_dec j level) as [->|Hne]; [exact E|].
        apply Hagree. lia.
      * apply Bool.eqb_false_iff in E.
        split; [lia|]. split; [intros; lia|intros _; exact E].
    + repeat split; try lia; intros; lia.
Qed.

(** A negative start level is handed back as it is. *)
Lemma find_leading_bit_difference_loop_neg fuel level c0 c1 :
  level < 0 -> find_leading_bit_difference_loop fuel level c0 c1 = level.
Proof.
  intros H. destruct fuel; cbn [find_leading_bit_difference_loop];
    [reflexivity|].
  destruct (Z.geb_spec level 0); [lia|reflexivity].
Qed.

(** More fuel than the positions to visit changes nothing. *)
Lemma find_leading_bit_difference_loop_fuel fuel :
  forall level c0 c1,
    level + 1 <= Z.of_nat fuel ->
    find_leading_bit_difference_loop (S fuel) level c0 c1
    = find_leading_bit_difference_loop fuel level c0 c1.
Proof.
  induction fuel as [|fuel IH]; intros level c0 c1 Hf.
  - rewrite !find_leading_bit_difference_loop_neg by lia. reflexivity.
  - cbn [find_leading_bit_difference_loop] in *.
    destruct (level >=? 0); [|reflexivity].
    destruct (negb _); [reflexivity|].
    apply IH. lia.
Qed.

(** The [int32] reading of the returned word, for a start level that is a
    bit position or -1. *)
Lemma find_leading_bit_difference_int start c0 c1 :
  -1 <= start < 32 ->
  let r := to_int32 (find_leading_bit_difference start c0 c1) in
  -1 <= r <= start
  /\ (forall j, r < j <= start -> Z.testbit c0 j = Z.testbit c1 j)
  /\ (0 <= r -> Z.testbit c0 r <> Z.testbit c1 r).
Proof.
  intros Hs. unfold find_leading_bit_difference.
  pose proof (find_leading_bit_difference_loop_spec
                (Z.to_nat (start + 1)) start c0 c1 Hs ltac:(lia)) as H.
  cbn zeta in *. destruct H as (Hr & Ha & Hd).
  rewrite to_int32_to_uint32, to_int32_small by lia.
  auto.
Qed.

End LeadingBit.

(** ** Queues, ranges and counts *)

Section QueueFacts.

Lemma queue_list_length q c : length (queue_list q c) = Z.to_nat c.
Proof. unfold queue_list. rewrite length_map, length_seq. reflexivity. Qed.

Lemma queue_list_ext q q' c :
  (forall j, 0 <= j < c -> q j = q' j) -> queue_list q c = queue_list q' c.
Proof.
  intros H. unfold queue_list. apply map_ext_in.
  intros k Hk. apply in_seq in Hk. apply H. lia.
Qed.

Lemma queue_list_succ q c :
  0 <= c -> queue_list q (c + 1) = queue_list q c ++ [q c].
Proof.
  intros Hc. unfold queue_list.
  replace (Z.to_nat (c + 1)) with (S (Z.to_nat c)) by lia.
  rewrite seq_S, map_app. cbn [map Nat.add].
  rewrite Z2Nat.id by lia. reflexivity.
Qed.

Lemma queue_list_store_above q c j t :
  c <= j -> queue_list (store q j t) c = queue_list q c.
Proof.
  intros H. apply queue_list_ext. intros i Hi. unfold store.
  destruct (Z.eqb_spec i j); [lia|reflexivity].
Qed.

Lemma queue_list_snoc q c t :
  0 <= c -> queue_list (store q c t) (c + 1) = queue_list q c ++ [t].
Proof.
  intros Hc. rewrite queue_list_succ by exact Hc.
  rewrite queue_list_store_above by lia.
  unfold store. rewrite Z.eqb_refl. reflexivity.
Qed.

Lemma queue_list_snoc2 q c t u :
  0 <= c ->
  queue_list (store (store q c t) (c + 1) u) (c + 2)
  = queue_list q c ++ [t; u].
Proof.
  intros Hc. replace (c + 2) with (c + 1 + 1) by lia.
  rewrite queue_list_snoc by lia.
  rewrite queue_list_snoc by lia.
  rewrite <- app_assoc. reflexivity.
Qed.

Lemma cover_count_cons i r rs :
  cover_count i (r :: rs) = (if covers i r then 1 else 0) + cover_count i rs.
Proof.
  unfold cover_count. cbn [filter].
  destruct (covers i r); cbn [length]; lia.
Qed.

Lemma cover_count_app i rs rs' :
  cover_count i (rs ++ rs') = cover_count i rs + cover_count i rs'.
Proof.
  unfold cover_count. rewrite filter_app, length_app. lia.
Qed.

Lemma cover_count_nil i : cover_count i [] = 0.
Proof. reflexivity. Qed.

(** Cutting a range in two at an inner point leaves every index covered as
    often as before. *)
Lemma cover_count_cut i b s e :
  b <= s <= e ->
  (if covers i (b, s) then 1 else 0) + (if covers i (s, e) then 1 else 0)
  = if covers i (b, e) then 1 else 0.
Proof.
  intros H. unfold covers. cbn [fst snd].
  destruct (Z.leb_spec b i), (Z.ltb_spec i s), (Z.leb_spec s i),
    (Z.ltb_spec i e); cbn [andb]; lia.
Qed.

Lemma size_sum_cons r rs : size_sum (r :: rs) = (snd r - fst r) + size_sum rs.
Proof. reflexivity. Qed.

Lemma size_sum_app rs rs' : size_sum (rs ++ rs') = size_sum rs + size_sum rs'.
Proof.
  induction rs as [|r rs IH]; [reflexivity|].
  cbn [app]. rewrite !size_sum_cons, IH. lia.
Qed.

(** Non-empty ranges are no more numerous than the keys they hold. *)
Lemma length_le_size_sum n P (ts : list Split_task) :
  Forall (task_ok n P) ts ->
  Z.of_nat (length ts) <= size_sum (map task_range ts).
Proof.
  induction 1 as [|t ts [Hr _] _ IH]; [reflexivity|].
  cbn [map length]. rewrite size_sum_cons.
  unfold range_ok, task_range in *. cbn [fst snd] in *. lia.
Qed.

Lemma size_sum_nonneg_tasks n P (ts : list Split_task) :
  Forall (task_ok n P) ts -> 0 <= size_sum (map task_range ts).
Proof.
  intros H. pose proof (length_le_size_sum n P ts H). lia.
Qed.

Lemma size_sum_nonneg_leaves n m (rs : list (Z * Z)) :
  Forall (leaf_ok n m) rs -> 0 <= size_sum rs.
Proof.
  induction 1 as [|r rs [Hr _] _ IH]; [reflexivity|].
  rewrite size_sum_cons. unfold range_ok in Hr. lia.
Qed.

Lemma leaf_ranges_app ops ops' :
  leaf_ranges (ops ++ ops') = leaf_ranges ops ++ leaf_ranges ops'.
Proof. unfold leaf_ranges. apply flat_map_app. Qed.

(** The binary search never leaves the range it is given. *)
Lemma find_pivot_search_range fuel codes pred :
  forall first count,
    0 <= count ->
    first <= find_pivot_search fuel codes pred first count <= first + count.
Proof.
  induction fuel as [|fuel IH]; intros first count Hc;
    cbn [find_pivot_search]; [lia|].
  destruct (Z.leb_spec count 0); [lia|].
  assert (0 <= count / 2 < count).
  { split; [apply Z.div_pos; lia|apply Z.div_lt; lia]. }
  cbn zeta. destruct (pred _).
  - specialize (IH first (count / 2) ltac:(lia)). lia.
  - specialize (IH (first + count / 2 + 1) (count - count / 2 - 1)
                  ltac:(lia)). lia.
Qed.

Lemma find_pivot_range codes first count pred :
  0 <= count -> first <= find_pivot codes first count pred <= first + count.
Proof. intros H. apply find_pivot_search_range. exact H. Qed.

Lemma run_threads_S {S : Type} (thread : Z -> S -> S) k s :
  run_threads thread (Datatypes.S k) s
  = thread (Z.of_nat k) (run_threads thread k s).
Proof.
  unfold run_threads. rewrite seq_S, fold_left_app. reflexivity.
Qed.

(** Threads past the last task do nothing, so only the first [count] matter. *)
Lemma run_threads_idle {S : Type} (thread : Z -> S -> S) (count extra : nat) s :
  (forall k st, Z.of_nat count <= k -> thread k st = st) ->
  run_threads thread (count + extra) s = run_threads thread count s.
Proof.
  intros Hidle. induction extra as [|extra IH].
  - rewrite Nat.add_0_r. reflexivity.
  - rewrite Nat.add_succ_r, run_threads_S, IH. apply Hidle. lia.
Qed.

Lemma grid_threads_covers c :
  0 <= c -> exists extra, grid_threads c = (Z.to_nat c + extra)%nat.
Proof.
  intros Hc. unfold grid_threads, BLOCK_SIZE.
  exists (Z.to_nat (128 * ((c + 128 - 1) / 128) - c)).
  assert (c <= 128 * ((c + 128 - 1) / 128)).
  { pose proof (Z.div_mod (c + 128 - 1) 128 ltac:(lia)).
    pose proof (Z.mod_pos_bound (c + 128 - 1) 128 ltac:(lia)). lia. }
  lia.
Qed.

Lemma split_thread_idle mls ks codes c in_tasks onc k st :
  c <= k -> split_thread mls ks codes c in_tasks onc k st = st.
Proof.
  intros H. unfold split_thread.
  destruct (Z.ltb_spec k c); [lia|reflexivity].
Qed.

Lemma gen_leaves_thread_idle c in_tasks k ls :
  c <= k -> gen_leaves_thread c in_tasks k ls = ls.
Proof.
  intros H. unfold gen_leaves_thread.
  destruct (Z.ltb_spec k c); [lia|reflexivity].
Qed.

(** A launch is the run of the threads of its tasks. *)
Lemma split_kernel_tasks mls ks codes c in_tasks onc st :
  0 <= c ->
  split_kernel mls ks codes c in_tasks onc st
  = run_threads (split_thread mls ks codes c in_tasks onc) (Z.to_nat c) st.
Proof.
  intros Hc. unfold split_kernel.
  destruct (grid_threads_covers c Hc) as [extra ->].
  apply run_threads_idle. intros k st' Hk.
  apply split_thread_idle. lia.
Qed.

Lemma gen_leaves_kernel_tasks c in_tasks ls :
  0 <= c ->
  gen_leaves_kernel c in_tasks ls
  = run_threads (gen_leaves_thread c in_tasks) (Z.to_nat c) ls.
Proof.
  intros Hc. unfold gen_leaves_kernel.
  destruct (grid_threads_covers c Hc) as [extra ->].
  apply run_threads_idle. intros k st' Hk.
  apply gen_leaves_thread_idle. lia.
Qed.

End QueueFacts.

(** ** One thread of the Split Stage *)

Section SplitThread.

Variables (max_leaf_size : Z) (keep_singletons : bool) (codes : list Z).
Variables (in_tasks_count : Z) (in_tasks : task_buffer) (out_nodes_count : Z).

Let thread := split_thread max_leaf_size keep_singletons codes in_tasks_count
                in_tasks out_nodes_count.
Let output_count := split_output_count max_leaf_size keep_singletons codes.
Let pivot := split_pivot keep_singletons codes.
Let bit_level := split_level keep_singletons codes.

Lemma split_output_count_leaf t :
  to_uint32 (m_end t - m_begin t) <= max_leaf_size -> output_count t = 0.
Proof.
  intros H. unfold output_count, split_output_count.
  destruct (Z.gtb_spec (to_uint32 (m_end t - m_begin t)) max_leaf_size);
    [lia|reflexivity].
Qed.

Lemma split_output_count_one t :
  max_leaf_size < to_uint32 (m_end t - m_begin t) ->
  pivot t = m_begin t \/ pivot t = m_end t ->
  output_count t = 1.
Proof.
  intros H Hp. unfold output_count, split_output_count.
  destruct (Z.gtb_spec (to_uint32 (m_end t - m_begin t)) max_leaf_size);
    [|lia].
  fold (pivot t).
  destruct (Z.eqb_spec (pivot t) (m_begin t)),
    (Z.eqb_spec (pivot t) (m_end t)); cbn [orb]; try reflexivity.
  destruct Hp; contradiction.
Qed.

Lemma split_output_count_two t :
  max_leaf_size < to_uint32 (m_end t - m_begin t) ->
  pivot t <> m_begin t -> pivot t <> m_end t ->
  output_count t = 2.
Proof.
  intros H Hb He. unfold output_count, split_output_count.
  destruct (Z.gtb_spec (to_uint32 (m_end t - m_begin t)) max_leaf_size);
    [|lia].
  fold (pivot t).
  destruct (Z.eqb_spec (pivot t) (m_begin t)),
    (Z.eqb_spec (pivot t) (m_end t)); cbn [orb]; try reflexivity;
    contradiction.
Qed.

(** The thread of a task with [output_count = 0]. *)
Lemma split_thread_leaf task_id st :
  task_id < in_tasks_count ->
  output_count (in_tasks task_id) = 0 ->
  thread task_id st
  = {| k_tree :=
         k_tree st ++
           [write_node (m_node (in_tasks task_id)) false false
              (k_out_leaf_count st);
            write_leaf (k_out_leaf_count st) (m_begin (in_tasks task_id))
              (m_end (in_tasks task_id))];
       k_out_tasks_count := to_uint32 (k_out_tasks_count st + 0);
       k_out_tasks := k_out_tasks st;
       k_out_leaf_count := to_uint32 (k_out_leaf_count st + 1) |}.
Proof.
  intros Hid Hoc. unfold thread, split_thread.
  destruct (Z.ltb_spec task_id in_tasks_count); [|lia].
  fold (output_count (in_tasks task_id)). rewrite Hoc. reflexivity.
Qed.

(** The thread of a task with [output_count = 1]. *)
Lemma split_thread_one task_id st :
  task_id < in_tasks_count ->
  output_count (in_tasks task_id) = 1 ->
  let t := in_tasks task_id in
  let offset := k_out_tasks_count st in
  thread task_id st
  = {| k_tree :=
         k_tree st ++
           [write_node (m_node t)
              (negb (pivot t =? m_begin t)) (negb (pivot t =? m_end t))
              (to_uint32 (out_nodes_count + offset))];
       k_out_tasks_count := to_uint32 (offset + 1);
       k_out_tasks :=
         store (k_out_tasks st) (to_uint32 (offset + 0))
           (mk_Split_task (to_uint32 (out_nodes_count + offset + 0))
              (m_begin t) (m_end t) (to_uint32 (bit_level t - 1)));
       k_out_leaf_count := k_out_leaf_count st |}.
Proof.
  intros Hid Hoc. cbn zeta. unfold thread, split_thread.
  destruct (Z.ltb_spec task_id in_tasks_count); [|lia].
  fold (output_count (in_tasks task_id)). rewrite Hoc. reflexivity.
Qed.

(** The thread of a task with [output_count = 2]. *)
Lemma split_thread_two task_id st :
  task_id < in_tasks_count ->
  output_count (in_tasks task_id) = 2 ->
  let t := in_tasks task_id in
  let offset := k_out_tasks_count st in
  thread task_id st
  = {| k_tree :=
         k_tree st ++
           [write_node (m_node t)
              (negb (pivot t =? m_begin t)) (negb (pivot t =? m_end t))
              (to_uint32 (out_nodes_count + offset))];
       k_out_tasks_count := to_uint32 (offset + 2);
       k_out_tasks :=
         store
           (store (k_out_tasks st) (to_uint32 (offset + 0))
              (mk_Split_task (to_uint32 (out_nodes_count + offset + 0))
                 (m_begin t) (pivot t) (to_uint32 (bit_level t - 1))))
           (to_uint32 (offset + 1))
           (mk_Split_task (to_uint32 (out_nodes_count + offset + 1))
              (pivot t) (m_end t) (to_uint32 (bit_level t - 1)));
       k_out_leaf_count := k_out_leaf_count st |}.
Proof.
  intros Hid Hoc. cbn zeta. unfold thread, split_thread.
  destruct (Z.ltb_spec task_id in_tasks_count); [|lia].
  fold (output_count (in_tasks task_id)). rewrite Hoc. reflexivity.
Qed.

End SplitThread.

(** ** The Split Stage on one task *)

Section SplitStageClaims.

(** C4: a task [begin <= end] of the input queue becomes a leaf - no output
    slot, one leaf slot taken, the node written as a leaf and the record
    [(begin, end)] written - when [end - begin <= max_leaf_size]; otherwise
    it gets one or two output slots, takes no leaf slot and writes its node
    only.  With [max_leaf_size >= 1] a task of size 1 is of the first kind. *)
Theorem split_thread_leaf_iff
    max_leaf_size keep_singletons codes in_tasks_count in_tasks
    out_nodes_count task_id st :
  0 <= task_id < in_tasks_count ->
  0 <= m_begin (in_tasks task_id) ->
  m_begin (in_tasks task_id) <= m_end (in_tasks task_id) ->
  m_end (in_tasks task_id) < 2 ^ 32 ->
  let t := in_tasks task_id in
  let st' := split_thread max_leaf_size keep_singletons codes in_tasks_count
               in_tasks out_nodes_count task_id st in
  let is_leaf :=
    split_output_count max_leaf_size keep_singletons codes t = 0
    /\ k_out_leaf_count st' = to_uint32 (k_out_leaf_count st + 1)
    /\ k_tree st'
       = k_tree st ++
           [write_node (m_node t) false false (k_out_leaf_count st);
            write_leaf (k_out_leaf_count st) (m_begin t) (m_end t)] in
  let is_split :=
    (split_output_count max_leaf_size keep_singletons codes t = 1
     \/ split_output_count max_leaf_size keep_singletons codes t = 2)
    /\ k_out_leaf_count st' = k_out_leaf_count st
    /\ leaf_ranges (k_tree st') = leaf_ranges (k_tree st) in
  (m_end t - m_begin t <= max_leaf_size -> is_leaf)
  /\ (max_leaf_size < m_end t - m_begin t -> is_split)
  /\ (is_leaf -> m_end t - m_begin t <= max_leaf_size)
  /\ (1 <= max_leaf_size -> m_end t - m_begin t = 1 -> is_leaf).
Proof.
  intros Hid Hb Hbe He. cbn zeta.
  set (t := in_tasks task_id) in *.
  assert (Hsz : to_uint32 (m_end t - m_begin t) = m_end t - m_begin t)
    by (apply to_uint32_small; lia).
  assert (Hleaf : m_end t - m_begin t <= max_leaf_size ->
                  split_output_count max_leaf_size keep_singletons codes t = 0
                  /\ k_out_leaf_count
                       (split_thread max_leaf_size keep_singletons codes
                          in_tasks_count in_tasks out_nodes_count task_id st)
                     = to_uint32 (k_out_leaf_count st + 1)
                  /\ k_tree
                       (split_thread max_leaf_size keep_singletons codes
                          in_tasks_count in_tasks out_nodes_count task_id st)
                     = k_tree st ++
                         [write_node (m_node t) false false (k_out_leaf_count st);
                          write_leaf (k_out_leaf_count st) (m_begin t) (m_end t)]).
  { intros Hle.
    assert (Hoc : split_output_count max_leaf_size keep_singletons codes t = 0)
      by (apply split_output_count_leaf; lia).
    rewrite (split_thread_leaf _ _ _ _ _ _ task_id st) by (lia || exact Hoc).
    cbn [k_out_leaf_count k_tree]. auto. }
  assert (Hsplit : max_leaf_size < m_end t - m_begin t ->
                   split_output_count max_leaf_size keep_singletons codes t = 1
                   \/ split_output_count max_leaf_size keep_singletons codes t = 2).
  { intros Hgt.
    destruct (Z.eq_dec (split_pivot keep_singletons codes t) (m_begin t)).
    - left. apply split_output_count_one; [lia|auto].
    - destruct (Z.eq_dec (split_pivot keep_singletons codes t) (m_end t)).
      + left. apply split_output_count_one; [lia|auto].
      + right. apply split_output_count_two; [lia|auto|auto]. }
  split; [exact Hleaf|]. split; [|split].
  - intros Hgt. split; [exact (Hsplit Hgt)|].
    destruct (Hsplit Hgt) as [Hoc|Hoc].
    + rewrite (split_thread_one _ _ _ _ _ _ task_id st) by (lia || exact Hoc).
      cbn [k_out_leaf_count k_tree]. rewrite leaf_ranges_app.
      cbn. rewrite app_nil_r. auto.
    + rewrite (split_thread_two _ _ _ _ _ _ task_id st) by (lia || exact Hoc).
      cbn [k_out_leaf_count k_tree]. rewrite leaf_ranges_app.
      cbn. rewrite app_nil_r. auto.
  - intros (Hoc & _).
    destruct (Z_le_gt_dec (m_end t - m_begin t) max_leaf_size); [assumption|].
    destruct (Hsplit ltac:(lia)); lia.
  - intros Hm H1. apply Hleaf. lia.
Qed.


(** C9: on a task the Split Stage gives [output_count = 0], the tree and the
    leaf counter it leaves are those the Leaf-Generation Stage leaves on the
    same task: one leaf slot taken, [write_node(node, false, false,
    leaf_index)], then [write_leaf(leaf_index, begin, end)]. *)
Theorem gen_leaves_thread_as_split_leaf
    max_leaf_size keep_singletons codes in_tasks_count in_tasks
    out_nodes_count task_id st :
  0 <= task_id < in_tasks_count ->
  split_output_count max_leaf_size keep_singletons codes (in_tasks task_id) = 0 ->
  let t := in_tasks task_id in
  let st' := split_thread max_leaf_size keep_singletons codes in_tasks_count
               in_tasks out_nodes_count task_id st in
  gen_leaves_thread in_tasks_count in_tasks task_id
    (k_tree st, k_out_leaf_count st)
  = (k_tree st', k_out_leaf_count st')
  /\ k_tree st'
     = k_tree st ++
         [write_node (m_node t) false false (k_out_leaf_count st);
          write_leaf (k_out_leaf_count st) (m_begin t) (m_end t)]
  /\ k_out_leaf_count st' = to_uint32 (k_out_leaf_count st + 1)
  /\ k_out_tasks st' = k_out_tasks st.
Proof.
  intros Hid Hoc. cbn zeta.
  rewrite (split_thread_leaf _ _ _ _ _ _ task_id st) by (lia || exact Hoc).
  cbn [k_tree k_out_leaf_count k_out_tasks].
  unfold gen_leaves_thread.
  destruct (Z.ltb_spec task_id in_tasks_count); [|lia].
  cbn. auto.
Qed.

End SplitStageClaims.

Section LeadingBitClaim.

Lemma store_other_slot (q : task_buffer) off t u :
  0 <= off < 2 ^ 32 ->
  m_input t = m_input u ->
  m_input (store (store q off t) (to_uint32 (off + 1)) u off) = m_input t.
Proof.
  intros Hoff Hlv. unfold store.
  destruct (Z.eqb_spec off (to_uint32 (off + 1))); [congruence|].
  rewrite Z.eqb_refl. reflexivity.
Qed.

(** C6, amended: for a start level from 0 to 31,
    [find_leading_bit_difference] returns the highest bit position at or
    below it where the two codes differ, and the word of -1 (all ones, read
    -1 as an [int32]) when they agree on every position from the start level
    down to 0; for a negative start level the loop is not entered and the
    start level itself comes back, whatever the codes - which is -1 only for
    the start level -1.  With [keep_singletons] off, the Split Stage splits a
    task at the level this function gives on the task's level, [key[begin]]
    and [key[end-1]]: the pivot tests that bit and the emitted children
    carry the level below it. *)
Theorem find_leading_bit_difference_highest start code0 code1 :
  - 2 ^ 31 <= start < 32 ->
  (forall l,
      0 <= l <= start ->
      Z.testbit code0 l <> Z.testbit code1 l ->
      (forall j, l < j <= start -> Z.testbit code0 j = Z.testbit code1 j) ->
      find_leading_bit_difference start code0 code1 = l)
  /\ (0 <= start ->
      (forall j, 0 <= j <= start -> Z.testbit code0 j = Z.testbit code1 j) ->
      find_leading_bit_difference start code0 code1 = to_uint32 (-1)
      /\ to_int32 (find_leading_bit_difference start code0 code1) = -1)
  /\ (start < 0 ->
      find_leading_bit_difference start code0 code1 = to_uint32 start
      /\ to_int32 (find_leading_bit_difference start code0 code1) = start)
  /\ (forall max_leaf_size codes in_tasks_count in_tasks out_nodes_count
             task_id st,
         0 <= task_id < in_tasks_count ->
         0 <= k_out_tasks_count st < 2 ^ 32 ->
         max_leaf_size
         < to_uint32 (m_end (in_tasks task_id) - m_begin (in_tasks task_id)) ->
         let t := in_tasks task_id in
         let level :=
           find_leading_bit_difference (to_int32 (m_input t))
             (code_at codes (m_begin t))
             (code_at codes (to_uint32 (m_end t - 1))) in
         let st' := split_thread max_leaf_size false codes in_tasks_count
                      in_tasks out_nodes_count task_id st in
         split_pivot false codes t
         = find_pivot codes (m_begin t) (to_uint32 (m_end t - m_begin t))
             (mask_and (shl32 1 level))
         /\ m_input (k_out_tasks st' (k_out_tasks_count st))
            = to_uint32 (level - 1)).
Proof.
  intros Hs.
  assert (Hpos : 0 <= start ->
            let r := find_leading_bit_difference_loop
                       (Z.to_nat (start + 1)) start code0 code1 in
            -1 <= r <= start
            /\ (forall j, r < j <= start ->
                          Z.testbit code0 j = Z.testbit code1 j)
            /\ (0 <= r -> Z.testbit code0 r <> Z.testbit code1 r)).
  { intros H0.
    apply (find_leading_bit_difference_loop_spec
             (Z.to_nat (start + 1)) start code0 code1); lia. }
  cbn zeta in Hpos. unfold find_leading_bit_difference.
  set (r := find_leading_bit_difference_loop _ start code0 code1) in *.
  split; [|split; [|split]].
  - intros l Hl Hdl Hal.
    destruct (Hpos ltac:(lia)) as (Hr & Hagree & Hdiff).
    assert (r = l).
    { destruct (Z.lt_trichotomy r l) as [Hlt|[Heq|Hgt]]; [|exact Heq|].
      - exfalso. apply Hdl. apply Hagree. lia.
      - exfalso. apply (Hdiff ltac:(lia)). apply Hal. lia. }
    subst l. apply to_uint32_small. lia.
  - intros H0 Hall.
    destruct (Hpos H0) as (Hr & Hagree & Hdiff).
    assert (r = -1).
    { destruct (Z_lt_ge_dec r 0); [lia|].
      exfalso. apply (Hdiff ltac:(lia)). apply Hall. lia. }
    rewrite H. split; [reflexivity|].
    rewrite to_int32_to_uint32. apply to_int32_small. lia.
  - intros Hneg.
    assert (r = start)
      by (apply find_leading_bit_difference_loop_neg; exact Hneg).
    rewrite H. split; [reflexivity|].
    rewrite to_int32_to_uint32. apply to_int32_small. lia.
  - intros mls codes c in_tasks onc task_id st Hid Hc Hgt. cbn zeta.
    split; [reflexivity|].
    assert (H0 : to_uint32 (k_out_tasks_count st + 0) = k_out_tasks_count st)
      by (rewrite Z.add_0_r; apply to_uint32_small; exact Hc).
    destruct (Z.eq_dec (split_pivot false codes (in_tasks task_id))
                (m_begin (in_tasks task_id))) as [Hb|Hb];
      [|destruct (Z.eq_dec (split_pivot false codes (in_tasks task_id))
                   (m_end (in_tasks task_id))) as [He|He]].
    + rewrite (split_thread_one _ _ _ _ _ _ task_id st)
        by (lia || (apply split_output_count_one; auto)).
      cbn [k_out_tasks]. rewrite H0.
      unfold store. rewrite Z.eqb_refl. reflexivity.
    + rewrite (split_thread_one _ _ _ _ _ _ task_id st)
        by (lia || (apply split_output_count_one; auto)).
      cbn [k_out_tasks]. rewrite H0.
      unfold store. rewrite Z.eqb_refl. reflexivity.
    + rewrite (split_thread_two _ _ _ _ _ _ task_id st)
        by (lia || (apply split_output_count_two; auto)).
      cbn [k_out_tasks]. rewrite H0.
      rewrite store_other_slot by (exact Hc || reflexivity).
      reflexivity.
Qed.

End LeadingBitClaim.

(** ** The invariant of a launch *)

Section KernelInvariant.

Variables (n max_leaf_size : Z) (keep_singletons : bool) (codes : list Z).
Variables (in_tasks_count : Z) (in_tasks : task_buffer) (out_nodes_count : Z).
Variables (Pout Pin : Z -> Prop).

Hypothesis n_word : n < 2 ^ 32.
Hypothesis level_step :
  forall t, task_ok n Pin t ->
            Pout (to_uint32 (split_level keep_singletons codes t - 1)).

Lemma leaf_ranges_node_write ops nd l r i :
  leaf_ranges (ops ++ [write_node nd l r i]) = leaf_ranges ops.
Proof. rewrite leaf_ranges_app. cbn. apply app_nil_r. Qed.

Lemma leaf_ranges_leaf_write ops nd l r i j b e :
  leaf_ranges (ops ++ [write_node nd l r i; write_leaf j b e])
  = leaf_ranges ops ++ [(b, e)].
Proof. rewrite leaf_ranges_app. reflexivity. Qed.

Lemma task_range_unfold t : task_range t = (m_begin t, m_end t).
Proof. reflexivity. Qed.

(** One thread keeps the invariant and takes its task off the pending
    ones. *)
Lemma split_thread_inv task_id pending st :
  0 <= task_id < in_tasks_count ->
  kernel_inv n max_leaf_size Pout Pin (in_tasks task_id :: pending) st ->
  kernel_inv n max_leaf_size Pout Pin pending
    (split_thread max_leaf_size keep_singletons codes in_tasks_count in_tasks
       out_nodes_count task_id st).
Proof.
  intros Hid [Hc Hout Hpend Hleaves Hcov Hsz].
  set (t := in_tasks task_id) in *.
  inversion Hpend as [|t' ps Ht Hps]; subst t' ps.
  pose proof Ht as [Hr HP].
  unfold range_ok, task_range in Hr. cbn [fst snd] in Hr.
  destruct Hr as (Hb0 & Hbe & Hen).
  pose proof (length_le_size_sum _ _ _ Hout) as Hlen.
  rewrite queue_list_length in Hlen.
  pose proof (size_sum_nonneg_tasks _ _ _ Hps) as Hps0.
  pose proof (size_sum_nonneg_leaves _ _ _ Hleaves) as Hlv0.
  cbn [map] in Hsz, Hcov. rewrite size_sum_cons in Hsz.
  cbn [task_range fst snd] in Hsz.
  assert (Hsz32 : to_uint32 (m_end t - m_begin t) = m_end t - m_begin t)
    by (apply to_uint32_small; lia).
  assert (Hc0 : to_uint32 (k_out_tasks_count st + 0) = k_out_tasks_count st)
    by (rewrite Z.add_0_r; apply to_uint32_small; lia).
  assert (Hcov' : forall i, 0 <= i < n ->
            cover_count i
              (map task_range
                 (queue_list (k_out_tasks st) (k_out_tasks_count st)))
            + (if covers i (m_begin t, m_end t) then 1 else 0)
            + cover_count i (map task_range pending)
            + cover_count i (leaf_ranges (k_tree st)) = 1).
  { intros i Hi. specialize (Hcov i Hi).
    rewrite cover_count_cons, task_range_unfold in Hcov. lia. }
  clear Hcov.
  destruct (Z_le_gt_dec (m_end t - m_begin t) max_leaf_size) as [Hle|Hgt].
  - (* the task becomes a leaf *)
    rewrite (split_thread_leaf _ _ _ _ _ _ task_id st)
      by (lia || (apply split_output_count_leaf; fold t; lia)).
    fold t. constructor;
      cbn [k_tree k_out_tasks_count k_out_tasks k_out_leaf_count];
      rewrite ?Hc0, ?leaf_ranges_leaf_write; try assumption.
    + apply Forall_app. split; [assumption|].
      constructor; [|constructor].
      unfold leaf_ok, range_ok. cbn [fst snd]. lia.
    + intros i Hi. specialize (Hcov' i Hi).
      rewrite cover_count_app, cover_count_cons, cover_count_nil. lia.
    + rewrite size_sum_app, size_sum_cons. cbn [fst snd size_sum fold_right].
      lia.
  - (* the task is split *)
    pose proof (find_pivot_range codes (m_begin t)
                  (to_uint32 (m_end t - m_begin t))
                  (mask_and (shl32 1 (split_level keep_singletons codes t)))
                  ltac:(lia)) as Hpiv.
    fold (split_pivot keep_singletons codes t) in Hpiv.
    rewrite Hsz32 in Hpiv.
    set (s := split_pivot keep_singletons codes t) in *.
    assert (Hone : s = m_begin t \/ s = m_end t
                   \/ (s <> m_begin t /\ s <> m_end t)) by lia.
    destruct Hone as [Hs|[Hs|[Hsb Hse]]].
    1,2: rewrite (split_thread_one _ _ _ _ _ _ task_id st)
           by (lia || (apply split_output_count_one; fold t; fold s; lia));
         fold t; fold s; rewrite Hc0;
         rewrite (to_uint32_small (k_out_tasks_count st + 1)) by lia;
         constructor;
           cbn [k_tree k_out_tasks_count k_out_tasks k_out_leaf_count];
           rewrite ?leaf_ranges_node_write, ?queue_list_snoc by lia;
           try assumption; try lia;
         [ apply Forall_app; split; [assumption|];
           constructor; [|constructor];
           split; [unfold range_ok; cbn [task_range fst snd m_begin m_end]; lia
                  |cbn [m_input]; apply level_step; exact Ht]
         | intros i Hi; specialize (Hcov' i Hi);
           rewrite map_app, cover_count_app; cbn [map];
           rewrite cover_count_cons, cover_count_nil, task_range_unfold;
           cbn [m_begin m_end]; lia
         | rewrite map_app, size_sum_app; cbn [map];
           rewrite size_sum_cons;
           cbn [task_range m_begin m_end fst snd size_sum fold_right]; lia ].
    rewrite (split_thread_two _ _ _ _ _ _ task_id st)
      by (lia || (apply split_output_count_two; fold t; fold s; lia)).
    fold t; fold s. rewrite Hc0.
    rewrite (to_uint32_small (k_out_tasks_count st + 1)) by lia.
    rewrite (to_uint32_small (k_out_tasks_count st + 2)) by lia.
    constructor;
      cbn [k_tree k_out_tasks_count k_out_tasks k_out_leaf_count];
      rewrite ?leaf_ranges_node_write, ?queue_list_snoc2 by lia;
      try assumption; try lia.
    + apply Forall_app. split; [assumption|].
      constructor; [|constructor; [|constructor]];
        (split; [unfold range_ok; cbn [task_range fst snd m_begin m_end]; lia
                |cbn [m_input]; apply level_step; exact Ht]).
    + intros i Hi. specialize (Hcov' i Hi).
      rewrite map_app, cover_count_app. cbn [map].
      rewrite !cover_count_cons, cover_count_nil.
      rewrite !task_range_unfold. cbn [m_begin m_end].
      pose proof (cover_count_cut i (m_begin t) s (m_end t) ltac:(lia)). lia.
    + rewrite map_app, size_sum_app. cbn [map].
      rewrite !size_sum_cons.
      cbn [task_range m_begin m_end fst snd size_sum fold_right]. lia.
Qed.

End KernelInvariant.

(** ** The invariant of a build *)

Section BuildInvariant.

Variables (n max_leaf_size : Z) (keep_singletons : bool) (codes : list Z).
Variable P : Z -> Z -> Prop.

Hypothesis n_word : n < 2 ^ 32.
Hypothesis level_round :
  forall g t, 0 <= g -> task_ok n (P g) t ->
              P (g - 1) (to_uint32 (split_level keep_singletons codes t - 1)).



Lemma set_counter_same c i v : set_counter c i v i = v.
Proof. unfold set_counter. rewrite Z.eqb_refl. reflexivity. Qed.

Lemma set_counter_other c i v j : j <> i -> set_counter c i v j = c j.
Proof.
  intros H. unfold set_counter. destruct (Z.eqb_spec j i); [contradiction|].
  reflexivity.
Qed.

Lemma set_queue_same q i b : set_queue q i b i = b.
Proof. unfold set_queue. rewrite Z.eqb_refl. reflexivity. Qed.

(** The launch of a round starts in its invariant. *)
Lemma split_entry_inv s :
  build_inv n max_leaf_size P s ->
  kernel_inv n max_leaf_size (P (level s - 1)) (P (level s))
    (in_tasks_of s) (split_entry s).
Proof.
  intros [Hin Hout Hc Ht Hl Hcov Hsz].
  unfold split_entry.
  constructor; cbn [k_tree k_out_tasks_count k_out_tasks k_out_leaf_count];
    rewrite ?set_counter_same; try assumption.
  - lia.
  - constructor.
Qed.



(** The seed state has the invariant. *)
Lemma seed_state_inv context bits :
  0 < n ->
  P (to_int32 (bits - 1)) (to_uint32 (bits - 1)) ->
  build_inv n max_leaf_size P (seed_state context n bits).
Proof.
  intros Hn HP.
  assert (Hq : in_tasks_of (seed_state context n bits)
               = [mk_Split_task 0 0 n (to_uint32 (bits - 1))]) by reflexivity.
  constructor; rewrite ?Hq;
    cbn [seed_state in_queue out_queue b_counters b_tree level leaf_ranges
         flat_map map].
  - left. reflexivity.
  - reflexivity.
  - cbn. lia.
  - constructor; [|constructor].
    split; [unfold range_ok; cbn; lia|exact HP].
  - constructor.
  - intros i Hi. rewrite cover_count_cons, !cover_count_nil, task_range_unfold.
    cbn [m_begin m_end]. unfold covers. cbn [fst snd].
    destruct (Z.leb_spec 0 i), (Z.ltb_spec i n); cbn [andb]; lia.
  - cbn. lia.
Qed.


End BuildInvariant.

(** ** Bit levels along a build *)

Section Levels.

Variables (keep_singletons : bool) (codes : list Z).





End Levels.

(** ** Builds *)

Section BuildClaims.




End BuildClaims.

(** ** The claims on concrete inputs *)

Section Witnesses.

Lemma split_thread_leaf_iff_witness :
  split_output_count 1 false keys8 (one_key_queue 0) = 0
  /\ k_out_leaf_count
       (split_thread 1 false keys8 1 one_key_queue 1 0 launch_start)
     = to_uint32 (0 + 1)
  /\ k_tree (split_thread 1 false keys8 1 one_key_queue 1 0 launch_start)
     = [] ++ [write_node 0 false false 0; write_leaf 0 0 1].
Proof.
  apply (split_thread_leaf_iff 1 false keys8 1 one_key_queue 1 0 launch_start);
    cbn; lia.
Defined.


Lemma find_leading_bit_difference_highest_witness :
  find_leading_bit_difference 3 10 12 = 2
  /\ find_leading_bit_difference 3 5 5 = to_uint32 (-1)
  /\ to_int32 (find_leading_bit_difference (-2) 5 9) = -2.
Proof.
  split; [|split].
  - apply (find_leading_bit_difference_highest 3 10 12 ltac:(lia)).
    + lia.
    + vm_compute. discriminate.
    + intros j Hj. assert (j = 3) as -> by lia. reflexivity.
  - apply (find_leading_bit_difference_highest 3 5 5 ltac:(lia)).
    + lia.
    + intros j Hj. reflexivity.
  - apply (find_leading_bit_difference_highest (-2) 5 9 ltac:(lia)). lia.
Defined.

(** Started below -1 on two equal codes - they agree on every position from
    the start level down to 0, there being none - the function returns the
    start level, not -1.  The Split Stage makes such calls: a task whose
    keys are all equal gets level -1 - 1 on its child, and the child is
    scanned from -2 in the next round. *)
Lemma find_leading_bit_difference_below_start :
  (forall j, 0 <= j <= -2 -> Z.testbit 5 j = Z.testbit 5 j)
  /\ find_leading_bit_difference (-2) 5 5 = 4294967294
  /\ to_int32 (find_leading_bit_difference (-2) 5 5) = -2
  /\ find_leading_bit_difference (-2) 5 5 <> to_uint32 (-1)
  /\ split_level false [5; 5] (mk_Split_task 0 0 2 (to_uint32 (-2)))
     = 4294967294.
Proof.
  split; [reflexivity|].
  split; [reflexivity|].
  split; [reflexivity|].
  split; [vm_compute; discriminate|reflexivity].
Qed.


Lemma gen_leaves_thread_as_split_leaf_witness :
  gen_leaves_thread 1 one_key_queue 0 ([], 0)
  = (k_tree (split_thread 1 false keys8 1 one_key_queue 1 0 launch_start),
     k_out_leaf_count
       (split_thread 1 false keys8 1 one_key_queue 1 0 launch_start)).
Proof.
  apply (gen_leaves_thread_as_split_leaf 1 false keys8 1 one_key_queue 1 0
           launch_start); [lia|reflexivity].
Defined.

End Witnesses.

(** * Further properties of the node encoding *)

Section NodeWords.

Lemma testbit_land_255 n k :
  0 <= k -> Z.testbit (Z.land n 255) k = Z.testbit n k && (k <? 8).
Proof.
  intros Hk. rewrite Z.land_spec. change 255 with (Z.ones 8).
  rewrite Z.testbit_ones_nonneg by lia. reflexivity.
Qed.

Lemma testbit_shl32_8 c k :
  0 <= k ->
  Z.testbit (shl32 c 8) k = (8 <=? k) && (k <? 32) && Z.testbit c (k - 8).
Proof.
  intros Hk. unfold shl32, to_uint32.
  cbn [Z.ltb Z.compare Pos.compare Pos.compare_cont].
  destruct (Z.ltb_spec k 32).
  - rewrite Z.mod_pow2_bits_low by lia. rewrite Z.shiftl_spec by lia.
    destruct (Z.leb_spec 8 k); cbn [andb]; [reflexivity|].
    apply Z.testbit_neg_r. lia.
  - rewrite Z.mod_pow2_bits_high by lia. rewrite andb_false_r. reflexivity.
Qed.

Lemma testbit_shr32_8 n k :
  0 <= k -> Z.testbit (shr32 n 8) k = Z.testbit n (k + 8).
Proof. intros Hk. unfold shr32. apply Z.shiftr_spec. exact Hk. Qed.

Lemma testbit_word n k : 0 <= n < 2 ^ 32 -> 32 <= k -> Z.testbit n k = false.
Proof. intros Hn Hk. exact (testbit_small n 32 k Hn Hk). Qed.

End NodeWords.

(** Rewrites the bits of a node expression into the bits of its parts. *)
Ltac node_rw :=
  repeat first
    [ rewrite Z.lor_spec
    | rewrite testbit_land_255 by lia
    | rewrite testbit_shl32_8 by lia
    | rewrite testbit_shr32_8 by lia
    | rewrite Z.land_spec, testbit_high_mask by lia ].

(** The same, splitting on where the position [k] lies. *)
Ltac node_bits k :=
  node_rw;
  destruct (Z.ltb_spec k 8); destruct (Z.leb_spec 8 k); try lia;
  destruct (Z.ltb_spec k 32); node_rw; cbn [andb orb];
  rewrite ?Z.sub_add, ?Z.add_simpl_r.

(** Closes a goal that is a Boolean identity in the bits it mentions. *)
Ltac bit_cases :=
  repeat match goal with
         | |- context [Z.testbit ?a ?b] => destruct (Z.testbit a b)
         end;
  reflexivity.

Section NodeFields.

(** X1: a node built by the leaf constructor from a 32-bit index is a leaf,
    with no active octant on the host lookup; its child offset is the index
    reduced to 24 bits, so an index below [2^24] is read back unchanged. *)
Theorem Octree_node_leaf_fields leaf_index :
  0 <= leaf_index < 2 ^ 32 ->
  is_leaf (Octree_node_leaf leaf_index) = true
  /\ get_child_mask (Octree_node_leaf leaf_index) = 0
  /\ get_child_offset (Octree_node_leaf leaf_index) = leaf_index mod 2 ^ 24
  /\ (leaf_index < 2 ^ 24 ->
      get_child_offset (Octree_node_leaf leaf_index) = leaf_index)
  /\ (forall i, 0 <= i < 8 ->
                get_octant_host (Octree_node_leaf leaf_index) i = kInvalid).
Proof.
  intros Hi.
  assert (Hm : get_child_mask (Octree_node_leaf leaf_index) = 0).
  { unfold get_child_mask, Octree_node_leaf.
    apply Z.bits_inj'. intros k Hk. rewrite Z.bits_0. node_bits k; bit_cases. }
  assert (Ho : get_child_offset (Octree_node_leaf leaf_index)
               = leaf_index mod 2 ^ 24).
  { unfold get_child_offset, Octree_node_leaf.
    apply Z.bits_inj'. intros k Hk. rewrite testbit_shr32_8 by lia.
    rewrite testbit_shl32_8 by lia.
    replace (k + 8 - 8) with k by lia.
    destruct (Z.ltb_spec k 24).
    - rewrite Z.mod_pow2_bits_low by lia.
      destruct (Z.leb_spec 8 (k + 8)), (Z.ltb_spec (k + 8) 32); try lia.
      reflexivity.
    - rewrite Z.mod_pow2_bits_high by lia.
      destruct (Z.ltb_spec (k + 8) 32); [lia|].
      rewrite andb_false_r. reflexivity. }
  split; [unfold is_leaf; rewrite Hm; reflexivity|].
  split; [exact Hm|]. split; [exact Ho|]. split.
  - intros Hlt. rewrite Ho. apply Z.mod_small. lia.
  - intros i Hi8. unfold get_octant_host. rewrite Hm.
    rewrite Z.land_0_l. reflexivity.
Qed.

(** X2: a 32-bit node word is the packing [(offset << 8) | mask] of its own
    two fields; and setting an 8-bit mask and a 24-bit offset, in either
    order and on any node word, leaves exactly the packed word
    [(offset << 8) | mask]. *)
Theorem node_word_is_packed_fields n mask offset :
  0 <= n < 2 ^ 32 -> 0 <= mask < 256 -> 0 <= offset < 2 ^ 24 ->
  Z.lor (shl32 (get_child_offset n) 8) (get_child_mask n) = n
  /\ set_child_offset (set_child_mask n mask) offset
     = Z.lor (shl32 offset 8) mask
  /\ set_child_mask (set_child_offset n offset) mask
     = Z.lor (shl32 offset 8) mask.
Proof.
  intros Hn Hm Ho.
  assert (Hm8 : forall k, 8 <= k -> Z.testbit mask k = false)
    by (intros; apply (testbit_small mask 8); [change (2 ^ 8) with 256|]; lia).
  assert (Ho24 : forall k, 24 <= k -> Z.testbit offset k = false)
    by (intros; apply (testbit_small offset 24); lia).
  unfold get_child_offset, get_child_mask, set_child_offset, set_child_mask.
  repeat split; apply Z.bits_inj'; intros k Hk;
    node_bits k;
    rewrite ?Hm8, ?Ho24, ?(testbit_word n) by lia;
    bit_cases.
Qed.

End NodeFields.

Section NodeSetters.

(** X3: the setters do not check their argument.  A mask wider than 8 bits
    keeps its low 8 bits as the mask and ORs the rest into the child offset;
    an offset wider than 24 bits is stored reduced to 24 bits, and the mask
    is kept whatever the offset. *)
Theorem setters_with_wide_arguments n mask child :
  0 <= n < 2 ^ 32 -> 0 <= mask < 2 ^ 32 -> 0 <= child < 2 ^ 32 ->
  get_child_mask (set_child_mask n mask) = mask mod 256
  /\ get_child_offset (set_child_mask n mask)
     = Z.lor (get_child_offset n) (mask / 256)
  /\ get_child_offset (set_child_offset n child) = child mod 2 ^ 24
  /\ get_child_mask (set_child_offset n child) = get_child_mask n.
Proof.
  intros Hn Hm Hc.
  rewrite <- land_255, <- (shr32_8 mask).
  unfold get_child_offset, get_child_mask, set_child_offset, set_child_mask.
  repeat split; apply Z.bits_inj'; intros k Hk.
  - node_bits k; bit_cases.
  - node_rw.
    destruct (Z.leb_spec 8 (k + 8)); [|lia].
    destruct (Z.ltb_spec (k + 8) 32); cbn [andb].
    + rewrite andb_true_r. reflexivity.
    + rewrite (testbit_word n (k + 8)) by lia. reflexivity.
  - node_rw. rewrite Z.add_simpl_r.
    destruct (Z.leb_spec 8 (k + 8)); [|lia].
    destruct (Z.ltb_spec (k + 8) 8); [lia|].
    rewrite andb_false_r. cbn [andb orb].
    destruct (Z.ltb_spec k 24).
    + rewrite Z.mod_pow2_bits_low by lia.
      destruct (Z.ltb_spec (k + 8) 32); [|lia]. reflexivity.
    + rewrite Z.mod_pow2_bits_high by lia.
      destruct (Z.ltb_spec (k + 8) 32); [lia|]. reflexivity.
  - node_bits k; bit_cases.
Qed.

(** X4: a setter overwrites what the same setter wrote before, and the two
    setters commute: for 8-bit masks, setting the mask twice is setting the
    second mask, setting the offset twice is setting the second offset, and
    mask and offset may be set in either order. *)
Theorem setters_overwrite_and_commute n mask mask' child child' :
  0 <= n < 2 ^ 32 -> 0 <= mask < 256 -> 0 <= mask' < 256 ->
  0 <= child < 2 ^ 32 -> 0 <= child' < 2 ^ 32 ->
  set_child_mask (set_child_mask n mask) mask' = set_child_mask n mask'
  /\ set_child_offset (set_child_offset n child) child'
     = set_child_offset n child'
  /\ set_child_mask (set_child_offset n child) mask
     = set_child_offset (set_child_mask n mask) child.
Proof.
  intros Hn Hm Hm' Hc Hc'.
  assert (Hm8 : forall k, 8 <= k -> Z.testbit mask k = false)
    by (intros; apply (testbit_small mask 8); [change (2 ^ 8) with 256|]; lia).
  unfold set_child_offset, set_child_mask.
  repeat split; apply Z.bits_inj'; intros k Hk;
    node_bits k; rewrite ?Hm8 by lia; bit_cases.
Qed.

End NodeSetters.

Section OctantSlots.

Lemma octant_slots_table : octant_slots_table_ok = true.
Proof. vm_compute. reflexivity. Qed.

Lemma octant_slots_row m i j :
  0 <= m < 256 -> 0 <= i < 8 -> 0 <= j < 8 -> octant_slots_row_ok m i j = true.
Proof.
  intros Hm Hi Hj. pose proof octant_slots_table as T.
  unfold octant_slots_table_ok in T. rewrite forallb_forall in T.
  specialize (T m (Zrange_In 256 m ltac:(lia))).
  rewrite forallb_forall in T.
  specialize (T i (Zrange_In 8 i ltac:(lia))).
  rewrite forallb_forall in T.
  exact (T j (Zrange_In 8 j ltac:(lia))).
Qed.

(** [is_active] on an octant reads the bit of the child mask. *)
Lemma is_active_mask_bit n i :
  0 <= i < 8 -> is_active n i = Z.testbit (get_child_mask n) i.
Proof.
  intros Hi. unfold is_active, get_child_mask.
  rewrite shl32_1_bit by lia. rewrite land_pow2 by lia.
  rewrite testbit_land_255 by lia.
  destruct (Z.ltb_spec i 8); [|lia]. rewrite andb_true_r.
  assert (0 < 2 ^ i) by (apply Z.pow_pos_nonneg; lia).
  destruct (Z.testbit n i).
  - destruct (Z.eqb_spec (2 ^ i) 0); [lia|reflexivity].
  - reflexivity.
Qed.

(** X5: on a 32-bit node word and the octants 0..7, [is_active] holds
    exactly where the host [get_octant] returns a slot rather than
    [kInvalid]; and the node is a leaf exactly when no octant is active. *)
Theorem active_octants_have_slots n :
  0 <= n < 2 ^ 32 ->
  (forall i, 0 <= i < 8 ->
             (is_active n i = true <-> get_octant_host n i <> kInvalid))
  /\ (is_leaf n = true <-> forall i, 0 <= i < 8 -> is_active n i = false).
Proof.
  intros Hn. split.
  - intros i Hi. rewrite is_active_mask_bit by exact Hi.
    destruct (get_octant_host_rank n i Hn Hi) as [Hinv _].
    destruct (Z.testbit (get_child_mask n) i).
    + split; [|reflexivity]. intros _ H. apply Hinv in H. discriminate.
    + split; [discriminate|]. intros H. exfalso. apply H. apply Hinv.
      reflexivity.
  - unfold is_leaf. split.
    + intros H i Hi. rewrite is_active_mask_bit by exact Hi.
      apply Z.eqb_eq in H. rewrite H. apply Z.bits_0.
    + intros H. apply Z.eqb_eq. apply Z.bits_inj'. intros k Hk.
      rewrite Z.bits_0. destruct (Z_lt_ge_dec k 8).
      * rewrite <- is_active_mask_bit by lia. apply H. lia.
      * apply (testbit_small (get_child_mask n) 8 k); [|lia].
        change (2 ^ 8) with 256. apply get_child_mask_range.
Qed.

(** X6: on a 32-bit node word, the host [get_octant] maps the active
    octants onto the child slots [offset .. offset + popc(mask) - 1] in
    increasing order: every active octant gets a slot in that range, a
    higher active octant gets a higher slot, and every slot [get_child(r)]
    with [r] below the population count is the slot of an active octant. *)
Theorem octant_slots_dense n :
  0 <= n < 2 ^ 32 ->
  (forall i, 0 <= i < 8 -> is_active n i = true ->
             get_child_offset n <= get_octant_host n i
             < get_child_offset n + popc (get_child_mask n))
  /\ (forall i j, 0 <= i -> i < j -> j < 8 ->
                  is_active n i = true -> is_active n j = true ->
                  get_octant_host n i < get_octant_host n j)
  /\ (forall r, 0 <= r < popc (get_child_mask n) ->
                exists i, 0 <= i < 8 /\ is_active n i = true
                          /\ get_octant_host n i = get_child n r).
Proof.
  intros Hn.
  pose proof (get_child_mask_range n) as Hm.
  assert (Hslot : forall i, 0 <= i < 8 -> is_active n i = true ->
            get_octant_host n i
            = get_child_offset n + bits_below (get_child_mask n) i).
  { intros i Hi Ha. rewrite is_active_mask_bit in Ha by exact Hi.
    apply (get_octant_host_rank n i Hn Hi). exact Ha. }
  split; [|split].
  - intros i Hi Ha. rewrite (Hslot i Hi Ha).
    rewrite is_active_mask_bit in Ha by exact Hi.
    pose proof (octant_slots_row _ i i Hm Hi Hi) as R.
    unfold octant_slots_row_ok in R.
    apply andb_prop in R. destruct R as [R _].
    apply andb_prop in R. destruct R as [R _].
    rewrite Ha in R. cbn [implb] in R. apply Z.ltb_lt in R.
    unfold bits_below in *. lia.
  - intros i j Hi Hij Hj Hai Haj.
    rewrite (Hslot i ltac:(lia) Hai), (Hslot j ltac:(lia) Haj).
    rewrite is_active_mask_bit in Hai, Haj by lia.
    pose proof (octant_slots_row _ i j Hm ltac:(lia) ltac:(lia)) as R.
    unfold octant_slots_row_ok in R.
    apply andb_prop in R. destruct R as [R _].
    apply andb_prop in R. destruct R as [_ R].
    rewrite Hai, Haj in R. destruct (Z.ltb_spec i j); [|lia].
    cbn [andb implb] in R. apply Z.ltb_lt in R. lia.
  - intros r Hr.
    pose proof (octant_row _ 0 Hm ltac:(lia)) as R8.
    unfold octant_row_ok in R8. apply andb_prop in R8.
    destruct R8 as [_ R8]. apply Z.leb_le in R8.
    pose proof (octant_slots_row _ r 0 Hm ltac:(lia) ltac:(lia)) as R.
    unfold octant_slots_row_ok in R.
    apply andb_prop in R. destruct R as [_ R].
    destruct (Z.ltb_spec r (popc (get_child_mask n))); [|lia].
    cbn [implb] in R. apply existsb_exists in R.
    destruct R as (i & Hin & Hi).
    apply andb_prop in Hi. destruct Hi as [Hbit Hrank].
    apply Z.eqb_eq in Hrank.
    unfold Zrange in Hin. apply in_map_iff in Hin.
    destruct Hin as (k & <- & Hk). apply in_seq in Hk.
    exists (Z.of_nat k). split; [lia|].
    assert (Ha : is_active n (Z.of_nat k) = true)
      by (rewrite is_active_mask_bit by lia; exact Hbit).
    split; [exact Ha|].
    rewrite (Hslot (Z.of_nat k) ltac:(lia) Ha), Hrank.
    unfold get_child. fold (get_child_offset n).
    pose proof (get_child_offset_range n Hn).
    symmetry. apply to_uint32_small. lia.
Qed.

(** X7: on an active octant the device [get_octant] returns
    [offset + popc(mask)], the index one past the last child slot: it is
    above the slot the host variant gives to any active octant, the queried
    one included. *)
Theorem get_octant_device_past_slots n i j :
  0 <= n < 2 ^ 32 -> 0 <= i < 8 -> 0 <= j < 8 ->
  is_active n i = true -> is_active n j = true ->
  get_octant_device n i = get_child_offset n + popc (get_child_mask n)
  /\ get_octant_host n j < get_octant_device n i.
Proof.
  intros Hn Hi Hj Hai Haj.
  pose proof (get_child_mask_range n) as Hm.
  assert (Hd : get_octant_device n i
               = get_child_offset n + popc (get_child_mask n)).
  { apply get_octant_device_counts_all; [exact Hn|exact Hi|].
    rewrite <- is_active_mask_bit by exact Hi. exact Hai. }
  split; [exact Hd|]. rewrite Hd.
  rewrite is_active_mask_bit in Haj by exact Hj.
  destruct (get_octant_host_rank n j Hn Hj) as [_ Hh].
  rewrite (Hh Haj).
  pose proof (octant_slots_row _ j j Hm Hj Hj) as R.
  unfold octant_slots_row_ok in R.
  apply andb_prop in R. destruct R as [R _].
  apply andb_prop in R. destruct R as [R _].
  rewrite Haj in R. cbn [implb] in R. apply Z.ltb_lt in R. lia.
Qed.

End OctantSlots.

(** * Further properties of the tree builder *)

Section LeadingBitAlgebra.

Lemma to_uint32_to_int32 x : to_uint32 (to_int32 x) = to_uint32 x.
Proof.
  unfold to_int32, to_uint32.
  rewrite Zminus_mod_idemp_l. f_equal. lia.
Qed.

Lemma find_leading_bit_difference_loop_sym fuel :
  forall level c0 c1,
    find_leading_bit_difference_loop fuel level c0 c1
    = find_leading_bit_difference_loop fuel level c1 c0.
Proof.
  induction fuel as [|fuel IH]; intros level c0 c1;
    cbn [find_leading_bit_difference_loop]; [reflexivity|].
  rewrite (Z.eqb_sym (Z.land c0 (shl32 1 level))).
  rewrite IH. reflexivity.
Qed.

(** At a position where the codes differ the scan stops at once. *)
Lemma find_leading_bit_difference_at_difference l c0 c1 :
  0 <= l < 32 -> Z.testbit c0 l <> Z.testbit c1 l ->
  find_leading_bit_difference l c0 c1 = l.
Proof.
  intros Hl Hd. unfold find_leading_bit_difference.
  replace (Z.to_nat (l + 1)) with (S (Z.to_nat l)) by lia.
  cbn [find_leading_bit_difference_loop].
  destruct (Z.geb_spec l 0); [|lia].
  rewrite masked_differ by lia.
  destruct (Bool.eqb (Z.testbit c0 l) (Z.testbit c1 l)) eqn:E.
  - apply Bool.eqb_prop in E. contradiction.
  - cbn [negb]. apply to_uint32_small. lia.
Qed.

(** X8: a negative start level is handed back unchanged (as its 32-bit
    word), whatever the codes; and from a start level in [-1, 31] the result
    read as an [int32] lies between -1 and the start level. *)
Theorem find_leading_bit_difference_bounds start code0 code1 :
  - 2 ^ 31 <= start < 32 ->
  (start < 0 -> find_leading_bit_difference start code0 code1 = to_uint32 start)
  /\ (-1 <= start ->
      -1 <= to_int32 (find_leading_bit_difference start code0 code1) <= start).
Proof.
  intros Hs. split.
  - intros Hneg. unfold find_leading_bit_difference.
    rewrite find_leading_bit_difference_loop_neg by exact Hneg. reflexivity.
  - intros Hge.
    pose proof (find_leading_bit_difference_int start code0 code1 ltac:(lia))
      as H.
    cbn zeta in H. lia.
Qed.

(** X9: the scan does not depend on the order of the two codes, and it is
    idempotent: started again from the level it returned, on the same codes,
    it returns that level. *)
Theorem find_leading_bit_difference_sym_idem start code0 code1 :
  - 2 ^ 31 <= start < 32 ->
  find_leading_bit_difference start code0 code1
  = find_leading_bit_difference start code1 code0
  /\ find_leading_bit_difference
       (to_int32 (find_leading_bit_difference start code0 code1)) code0 code1
     = find_leading_bit_difference start code0 code1.
Proof.
  intros Hs. split.
  - unfold find_leading_bit_difference.
    rewrite find_leading_bit_difference_loop_sym. reflexivity.
  - destruct (Z_lt_ge_dec start 0) as [Hneg|Hpos].
    + unfold find_leading_bit_difference at 2 3.
      rewrite find_leading_bit_difference_loop_neg by exact Hneg.
      rewrite to_int32_to_uint32, to_int32_small by lia.
      unfold find_leading_bit_difference.
      rewrite find_leading_bit_difference_loop_neg by exact Hneg.
      reflexivity.
    + pose proof (find_leading_bit_difference_int start code0 code1
                    ltac:(lia)) as H.
      cbn zeta in H. destruct H as (Hr & _ & Hd).
      set (w := find_leading_bit_difference start code0 code1) in *.
      assert (Hw : w = to_uint32 (to_int32 w)).
      { rewrite to_uint32_to_int32. unfold w, find_leading_bit_difference.
        symmetry. apply to_uint32_small. apply to_uint32_range. }
      destruct (Z_lt_ge_dec (to_int32 w) 0) as [Hn|Hp].
      * unfold find_leading_bit_difference.
        rewrite find_leading_bit_difference_loop_neg by exact Hn.
        symmetry. exact Hw.
      * rewrite find_leading_bit_difference_at_difference
          by (lia || (apply Hd; lia)).
        rewrite Hw at 2. symmetry. apply to_uint32_small. lia.
Qed.

End LeadingBitAlgebra.

Section PivotInside.

(** The binary search, run to its end, stops at a boundary: the key before
    the result (if the result is not the first index) fails the predicate and
    the key at the result (if there is one) passes it. *)
Lemma find_pivot_search_boundary codes pred fuel :
  forall first count,
    0 <= count <= Z.of_nat fuel ->
    let r := find_pivot_search fuel codes pred first count in
    first <= r <= first + count
    /\ (r = first \/ pred (code_at codes (r - 1)) = false)
    /\ (r = first + count \/ pred (code_at codes r) = true).
Proof.
  induction fuel as [|fuel IH]; intros first count Hc; cbn zeta;
    cbn [find_pivot_search].
  - split; [lia|]. split; [left; reflexivity|left; lia].
  - destruct (Z.leb_spec count 0).
    + split; [lia|]. split; [left; reflexivity|left; lia].
    + assert (0 <= count / 2 < count)
        by (split; [apply Z.div_pos; lia|apply Z.div_lt; lia]).
      cbn zeta. destruct (pred (code_at codes (first + count / 2))) eqn:Hp.
      * specialize (IH first (count / 2) ltac:(lia)). cbn zeta in IH.
        destruct IH as (Hr & Hl & Hu).
        split; [lia|]. split; [exact Hl|].
        destruct Hu as [Hu|Hu]; [|right; exact Hu].
        right. rewrite Hu. exact Hp.
      * specialize (IH (first + count / 2 + 1) (count - count / 2 - 1)
                      ltac:(lia)).
        cbn zeta in IH. destruct IH as (Hr & Hl & Hu).
        split; [lia|]. split.
        -- right. destruct Hl as [Hl|Hl]; [|exact Hl].
           rewrite Hl. replace (first + count / 2 + 1 - 1)
             with (first + count / 2) by lia. exact Hp.
        -- destruct Hu as [Hu|Hu]; [left; lia|right; exact Hu].
Qed.

Lemma mask_and_bit l x : 0 <= l < 32 -> mask_and (shl32 1 l) x = Z.testbit x l.
Proof.
  intros Hl. unfold mask_and. rewrite shl32_1_bit by exact Hl.
  rewrite land_pow2 by lia.
  assert (0 < 2 ^ l) by (apply Z.pow_pos_nonneg; lia).
  destruct (Z.testbit x l); [|reflexivity].
  destruct (Z.eqb_spec (2 ^ l) 0); [lia|reflexivity].
Qed.

(** A code is its part above bit [l], bit [l], and its part below. *)
Lemma code_around_bit c l :
  0 <= l ->
  c = 2 ^ (l + 1) * Z.shiftr c (l + 1)
      + 2 ^ l * Z.b2z (Z.testbit c l) + c mod 2 ^ l.
Proof.
  intros Hl. rewrite Z.shiftr_div_pow2 by lia.
  rewrite Z.testbit_spec' by lia.
  assert (0 < 2 ^ l) by (apply Z.pow_pos_nonneg; lia).
  rewrite Z.pow_add_r by lia. change (2 ^ 1) with 2.
  pose proof (Z.div_mod c (2 ^ l * 2) ltac:(lia)) as Hdm.
  rewrite (Z.rem_mul_r c (2 ^ l) 2) in Hdm by lia. lia.
Qed.

(** Of two codes that agree above bit [l] and differ at bit [l], the smaller
    has the bit clear and the larger has it set. *)
Lemma ordered_leading_bit c0 c1 l :
  0 <= l -> c0 < c1 ->
  Z.shiftr c0 (l + 1) = Z.shiftr c1 (l + 1) ->
  Z.testbit c0 l <> Z.testbit c1 l ->
  Z.testbit c0 l = false /\ Z.testbit c1 l = true.
Proof.
  intros Hl Hlt Hhigh Hd.
  pose proof (code_around_bit c0 l Hl) as H0.
  pose proof (code_around_bit c1 l Hl) as H1.
  assert (0 < 2 ^ l) by (apply Z.pow_pos_nonneg; lia).
  pose proof (Z.mod_pos_bound c0 (2 ^ l) ltac:(lia)).
  pose proof (Z.mod_pos_bound c1 (2 ^ l) ltac:(lia)).
  rewrite Hhigh in H0.
  destruct (Z.testbit c0 l), (Z.testbit c1 l); cbn [Z.b2z] in *;
    try (exfalso; apply Hd; reflexivity); [exfalso; lia|auto].
Qed.

Lemma shiftr_agree c0 c1 l j :
  0 <= l -> Z.shiftr c0 l = Z.shiftr c1 l -> l <= j ->
  Z.testbit c0 j = Z.testbit c1 j.
Proof.
  intros Hl H Hj.
  replace j with (j - l + l) by lia.
  rewrite <- !Z.shiftr_spec by lia. rewrite H. reflexivity.
Qed.

Lemma to_int32_nonneg_word w :
  0 <= w < 2 ^ 32 -> 0 <= to_int32 w -> to_int32 w = w.
Proof.
  intros Hw H. unfold to_int32 in *.
  destruct (Z_lt_ge_dec w (2 ^ 31)).
  - rewrite Z.mod_small by lia. lia.
  - exfalso.
    assert (E : (w + 2 ^ 31) mod 2 ^ 32 = w - 2 ^ 31).
    { symmetry. apply (Z.mod_unique _ _ 1); [left|]; lia. }
    lia.
Qed.

(** X10: with [keep_singletons] off, a task whose first key is smaller than
    its last key, the two agreeing above the task's bit level, is split at
    the highest bit where they differ, and really split: the first key has
    that bit clear, the last has it set, the pivot lies strictly inside the
    range, and an oversized task gets two children. *)
Theorem distinct_end_keys_split_in_two max_leaf_size codes t :
  0 <= to_int32 (m_input t) < 32 ->
  0 <= m_begin t -> m_begin t < m_end t -> m_end t < 2 ^ 32 ->
  code_at codes (m_begin t) < code_at codes (m_end t - 1) ->
  Z.shiftr (code_at codes (m_begin t)) (to_int32 (m_input t) + 1)
  = Z.shiftr (code_at codes (m_end t - 1)) (to_int32 (m_input t) + 1) ->
  let level := split_level false codes t in
  0 <= level <= to_int32 (m_input t)
  /\ Z.testbit (code_at codes (m_begin t)) level = false
  /\ Z.testbit (code_at codes (m_end t - 1)) level = true
  /\ m_begin t < split_pivot false codes t < m_end t
  /\ (max_leaf_size < m_end t - m_begin t ->
      split_output_count max_leaf_size false codes t = 2).
Proof.
  intros HL Hb Hbe He Hlt Hhigh. cbn zeta.
  set (c0 := code_at codes (m_begin t)) in *.
  set (c1 := code_at codes (m_end t - 1)) in *.
  assert (Hlvl : split_level false codes t
                 = find_leading_bit_difference (to_int32 (m_input t)) c0 c1).
  { unfold split_level. cbn [negb].
    rewrite (to_uint32_small (m_end t - 1)) by lia. reflexivity. }
  pose proof (find_leading_bit_difference_int (to_int32 (m_input t)) c0 c1
                ltac:(lia)) as H.
  cbn zeta in H. rewrite <- Hlvl in H. destruct H as (Hr & Hagree & Hdiff).
  set (w := split_level false codes t) in *.
  assert (Hw32 : 0 <= w < 2 ^ 32)
    by (rewrite Hlvl; apply to_uint32_range).
  assert (Hpos : 0 <= to_int32 w).
  { destruct (Z_lt_ge_dec (to_int32 w) 0) as [Hn|Hp]; [|lia].
    exfalso. assert (c0 = c1); [|lia].
    apply Z.bits_inj'. intros j Hj.
    destruct (Z_le_gt_dec j (to_int32 (m_input t))).
    - apply Hagree. lia.
    - apply (shiftr_agree c0 c1 (to_int32 (m_input t) + 1)); [lia|exact Hhigh|lia]. }
  pose proof (to_int32_nonneg_word w Hw32 Hpos) as Hwi.
  rewrite Hwi in *.
  assert (Hsh : Z.shiftr c0 (w + 1) = Z.shiftr c1 (w + 1)).
  { apply Z.bits_inj'. intros j Hj. rewrite !Z.shiftr_spec by lia.
    destruct (Z_le_gt_dec (j + (w + 1)) (to_int32 (m_input t))).
    - apply Hagree. lia.
    - apply (shiftr_agree c0 c1 (to_int32 (m_input t) + 1)); [lia|exact Hhigh|lia]. }
  destruct (ordered_leading_bit c0 c1 w ltac:(lia) Hlt Hsh (Hdiff Hpos))
    as [Hc0 Hc1].
  assert (Hsz : to_uint32 (m_end t - m_begin t) = m_end t - m_begin t)
    by (apply to_uint32_small; lia).
  assert (Hpiv : m_begin t < split_pivot false codes t < m_end t).
  { unfold split_pivot, find_pivot. fold w. rewrite Hsz.
    pose proof (find_pivot_search_boundary codes (mask_and (shl32 1 w))
                  (S (Z.to_nat (m_end t - m_begin t))) (m_begin t)
                  (m_end t - m_begin t) ltac:(lia)) as B.
    cbn zeta in B.
    set (r := find_pivot_search _ codes _ (m_begin t) (m_end t - m_begin t))
      in *.
    destruct B as (Hrange & Hlo & Hhi).
    rewrite !mask_and_bit in Hlo, Hhi by lia.
    assert (r <> m_begin t).
    { intros E. destruct Hhi as [Hhi|Hhi]; [lia|].
      rewrite E in Hhi. fold c0 in Hhi. congruence. }
    assert (r <> m_end t).
    { intros E. destruct Hlo as [Hlo|Hlo]; [lia|].
      rewrite E in Hlo. fold c1 in Hlo. congruence. }
    lia. }
  split; [lia|]. split; [exact Hc0|]. split; [exact Hc1|].
  split; [exact Hpiv|].
  intros Hgt. apply split_output_count_two; lia.
Qed.

End PivotInside.

Section ThreadShape.

Variables (n max_leaf_size : Z) (keep_singletons : bool) (codes : list Z).
Variables (in_tasks_count : Z) (in_tasks : task_buffer) (out_nodes_count : Z).
Variables (Pout Pin : Z -> Prop).

Hypothesis n_word : n < 2 ^ 32.

Lemma length_le_size_sum_leaves m (rs : list (Z * Z)) :
  Forall (leaf_ok n m) rs -> Z.of_nat (length rs) <= size_sum rs.
Proof.
  induction 1 as [|r rs [Hr _] _ IH]; [reflexivity|].
  cbn [length]. rewrite size_sum_cons. unfold range_ok in Hr. lia.
Qed.

(** Under the invariant of the launch, what the thread of a task leaves:
    the task is inside [0, n), the slots and leaves counted so far leave
    room for its keys, and the thread is of one of three kinds - a leaf, one
    child, or two children around a pivot strictly inside the range - with
    no counter wrapping. *)
Lemma split_thread_shape task_id pending st :
  0 <= task_id < in_tasks_count ->
  kernel_inv n max_leaf_size Pout Pin (in_tasks task_id :: pending) st ->
  let t := in_tasks task_id in
  let s := split_pivot keep_singletons codes t in
  let lvl := split_level keep_singletons codes t in
  let cnt := k_out_tasks_count st in
  let st' := split_thread max_leaf_size keep_singletons codes in_tasks_count
               in_tasks out_nodes_count task_id st in
  (0 <= m_begin t /\ m_begin t < m_end t /\ m_end t <= n /\ 0 <= cnt
   /\ cnt + Z.of_nat (length (leaf_ranges (k_tree st)))
      + (m_end t - m_begin t) <= n)
  /\ ((m_end t - m_begin t <= max_leaf_size
       /\ st' = {| k_tree :=
                     k_tree st ++
                       [write_node (m_node t) false false (k_out_leaf_count st);
                        write_leaf (k_out_leaf_count st) (m_begin t) (m_end t)];
                   k_out_tasks_count := cnt;
                   k_out_tasks := k_out_tasks st;
                   k_out_leaf_count := to_uint32 (k_out_leaf_count st + 1) |})
      \/ (max_leaf_size < m_end t - m_begin t
          /\ (s = m_begin t \/ s = m_end t)
          /\ st' = {| k_tree :=
                        k_tree st ++
                          [write_node (m_node t)
                             (negb (s =? m_begin t)) (negb (s =? m_end t))
                             (to_uint32 (out_nodes_count + cnt))];
                      k_out_tasks_count := cnt + 1;
                      k_out_tasks :=
                        store (k_out_tasks st) cnt
                          (mk_Split_task (to_uint32 (out_nodes_count + cnt + 0))
                             (m_begin t) (m_end t) (to_uint32 (lvl - 1)));
                      k_out_leaf_count := k_out_leaf_count st |})
      \/ (max_leaf_size < m_end t - m_begin t
          /\ m_begin t < s < m_end t
          /\ st' = {| k_tree :=
                        k_tree st ++
                          [write_node (m_node t)
                             (negb (s =? m_begin t)) (negb (s =? m_end t))
                             (to_uint32 (out_nodes_count + cnt))];
                      k_out_tasks_count := cnt + 2;
                      k_out_tasks :=
                        store
                          (store (k_out_tasks st) cnt
                             (mk_Split_task
                                (to_uint32 (out_nodes_count + cnt + 0))
                                (m_begin t) s (to_uint32 (lvl - 1))))
                          (cnt + 1)
                          (mk_Split_task
                             (to_uint32 (out_nodes_count + cnt + 1))
                             s (m_end t) (to_uint32 (lvl - 1)));
                      k_out_leaf_count := k_out_leaf_count st |})).
Proof.
  intros Hid [Hc Hout Hpend Hleaves Hcov Hsz]. cbn zeta.
  set (t := in_tasks task_id) in *.
  inversion Hpend as [|t' ps Ht Hps]; subst t' ps.
  pose proof Ht as [Hr HP].
  unfold range_ok in Hr. rewrite task_range_unfold in Hr. cbn [fst snd] in Hr.
  destruct Hr as (Hb0 & Hbe & Hen).
  pose proof (length_le_size_sum _ _ _ Hout) as Hlen.
  rewrite queue_list_length in Hlen.
  pose proof (size_sum_nonneg_tasks _ _ _ Hps) as Hps0.
  pose proof (length_le_size_sum_leaves _ _ Hleaves) as Hlv0.
  cbn [map] in Hsz. rewrite size_sum_cons, task_range_unfold in Hsz.
  cbn [fst snd] in Hsz.
  assert (Hsz32 : to_uint32 (m_end t - m_begin t) = m_end t - m_begin t)
    by (apply to_uint32_small; lia).
  assert (Hc0 : to_uint32 (k_out_tasks_count st + 0) = k_out_tasks_count st)
    by (rewrite Z.add_0_r; apply to_uint32_small; lia).
  split; [repeat split; lia|].
  destruct (Z_le_gt_dec (m_end t - m_begin t) max_leaf_size) as [Hle|Hgt].
  - left. split; [exact Hle|].
    rewrite (split_thread_leaf _ _ _ _ _ _ task_id st)
      by (lia || (apply split_output_count_leaf; fold t; lia)).
    fold t. rewrite Hc0. reflexivity.
  - right.
    pose proof (find_pivot_range codes (m_begin t)
                  (to_uint32 (m_end t - m_begin t))
                  (mask_and (shl32 1 (split_level keep_singletons codes t)))
                  ltac:(lia)) as Hpiv.
    fold (split_pivot keep_singletons codes t) in Hpiv.
    rewrite Hsz32 in Hpiv.
    set (s := split_pivot keep_singletons codes t) in *.
    assert (Hone : (s = m_begin t \/ s = m_end t)
                   \/ (s <> m_begin t /\ s <> m_end t)) by lia.
    destruct Hone as [Hs|[Hsb Hse]].
    + left. split; [lia|]. split; [exact Hs|].
      rewrite (split_thread_one _ _ _ _ _ _ task_id st)
        by (lia || (apply split_output_count_one; fold t; fold s; lia)).
      fold t; fold s. rewrite Hc0.
      rewrite (to_uint32_small (k_out_tasks_count st + 1)) by lia.
      reflexivity.
    + right. split; [lia|]. split; [lia|].
      rewrite (split_thread_two _ _ _ _ _ _ task_id st)
        by (lia || (apply split_output_count_two; fold t; fold s; lia)).
      fold t; fold s. rewrite Hc0.
      rewrite (to_uint32_small (k_out_tasks_count st + 1)) by lia.
      rewrite (to_uint32_small (k_out_tasks_count st + 2)) by lia.
      reflexivity.
Qed.

End ThreadShape.

(** ** Inductions over a launch and over a build *)

Section RunInduction.

Variables (n max_leaf_size : Z) (keep_singletons : bool) (codes : list Z).

Hypothesis n_word : n < 2 ^ 32.




End RunInduction.

(** ** What the kernels write *)

Section KernelWrites.

Lemma Zrange_S k : Zrange (S k) = Zrange k ++ [Z.of_nat k].
Proof. unfold Zrange. rewrite seq_S, map_app. reflexivity. Qed.

Lemma Zrange_succ x :
  0 <= x -> Zrange (Z.to_nat (x + 1)) = Zrange (Z.to_nat x) ++ [x].
Proof.
  intros Hx. replace (Z.to_nat (x + 1)) with (S (Z.to_nat x)) by lia.
  rewrite Zrange_S, Z2Nat.id by exact Hx. reflexivity.
Qed.

Lemma Zrange_length k : length (Zrange k) = k.
Proof. unfold Zrange. rewrite length_map, length_seq. reflexivity. Qed.

Lemma node_writes_app ops ops' :
  node_writes (ops ++ ops') = node_writes ops ++ node_writes ops'.
Proof. unfold node_writes. apply flat_map_app. Qed.

Lemma leaf_writes_app ops ops' :
  leaf_writes (ops ++ ops') = leaf_writes ops ++ leaf_writes ops'.
Proof. unfold leaf_writes. apply flat_map_app. Qed.

Lemma leaf_writes_length ops :
  length (leaf_writes ops) = length (leaf_ranges ops).
Proof.
  induction ops as [|op ops IH]; [reflexivity|].
  destruct op; cbn; [exact IH|f_equal; exact IH].
Qed.

Lemma succ_word_differs x : 0 <= x < 2 ^ 32 -> to_uint32 (x + 1) <> x.
Proof.
  intros Hx. destruct (Z.eq_dec x (2 ^ 32 - 1)) as [->|Hne].
  - vm_compute. discriminate.
  - rewrite to_uint32_small by lia. lia.
Qed.

(** X11: the node written for a task that is split records the split: its
    left flag says that [begin, split_index) holds keys, its right flag that
    [split_index, end) does, the number of flags set is the number of child
    tasks emitted, and its index is the node index given to the first
    child. *)
Theorem split_thread_node_flags
    max_leaf_size keep_singletons codes in_tasks_count in_tasks
    out_nodes_count task_id st :
  0 <= task_id < in_tasks_count ->
  0 <= k_out_tasks_count st < 2 ^ 32 ->
  0 <= m_begin (in_tasks task_id) ->
  m_begin (in_tasks task_id) < m_end (in_tasks task_id) ->
  m_end (in_tasks task_id) < 2 ^ 32 ->
  max_leaf_size < m_end (in_tasks task_id) - m_begin (in_tasks task_id) ->
  let t := in_tasks task_id in
  let s := split_pivot keep_singletons codes t in
  let st' := split_thread max_leaf_size keep_singletons codes in_tasks_count
               in_tasks out_nodes_count task_id st in
  k_tree st'
  = k_tree st ++
      [write_node (m_node t) (m_begin t <? s) (s <? m_end t)
         (to_uint32 (out_nodes_count + k_out_tasks_count st))]
  /\ split_output_count max_leaf_size keep_singletons codes t
     = Z.b2z (m_begin t <? s) + Z.b2z (s <? m_end t)
  /\ m_node (k_out_tasks st' (k_out_tasks_count st))
     = to_uint32 (out_nodes_count + k_out_tasks_count st).
Proof.
  intros Hid Hc Hb Hbe He Hgt. cbn zeta.
  set (t := in_tasks task_id) in *.
  assert (Hsz32 : to_uint32 (m_end t - m_begin t) = m_end t - m_begin t)
    by (apply to_uint32_small; lia).
  assert (Hc0 : to_uint32 (k_out_tasks_count st + 0) = k_out_tasks_count st)
    by (rewrite Z.add_0_r; apply to_uint32_small; lia).
  pose proof (find_pivot_range codes (m_begin t)
                (to_uint32 (m_end t - m_begin t))
                (mask_and (shl32 1 (split_level keep_singletons codes t)))
                ltac:(lia)) as Hpiv.
  fold (split_pivot keep_singletons codes t) in Hpiv.
  rewrite Hsz32 in Hpiv.
  set (s := split_pivot keep_singletons codes t) in *.
  assert (Hl : negb (s =? m_begin t) = (m_begin t <? s))
    by (destruct (Z.eqb_spec s (m_begin t)), (Z.ltb_spec (m_begin t) s);
        cbn [negb]; lia || reflexivity).
  assert (Hr : negb (s =? m_end t) = (s <? m_end t))
    by (destruct (Z.eqb_spec s (m_end t)), (Z.ltb_spec s (m_end t));
        cbn [negb]; lia || reflexivity).
  assert (Hone : (s = m_begin t \/ s = m_end t)
                 \/ (s <> m_begin t /\ s <> m_end t)) by lia.
  destruct Hone as [Hs|[Hsb Hse]].
  - assert (Hoc : split_output_count max_leaf_size keep_singletons codes t = 1)
      by (apply split_output_count_one; fold s; lia || exact Hs).
    rewrite (split_thread_one _ _ _ _ _ _ task_id st) by (lia || exact Hoc).
    fold t; fold s. cbn [k_tree k_out_tasks]. rewrite Hoc, Hl, Hr, Hc0.
    split; [reflexivity|]. split.
    + destruct (Z.ltb_spec (m_begin t) s), (Z.ltb_spec s (m_end t));
        cbn [Z.b2z]; lia.
    + unfold store. rewrite Z.eqb_refl. cbn [m_node].
      rewrite Z.add_0_r. reflexivity.
  - assert (Hoc : split_output_count max_leaf_size keep_singletons codes t = 2)
      by (apply split_output_count_two; fold s; lia).
    rewrite (split_thread_two _ _ _ _ _ _ task_id st) by (lia || exact Hoc).
    fold t; fold s. cbn [k_tree k_out_tasks]. rewrite Hoc, Hl, Hr, Hc0.
    split; [reflexivity|]. split.
    + destruct (Z.ltb_spec (m_begin t) s), (Z.ltb_spec s (m_end t));
        cbn [Z.b2z]; lia.
    + unfold store.
      destruct (Z.eqb_spec (k_out_tasks_count st)
                  (to_uint32 (k_out_tasks_count st + 1))) as [E|_].
      * exfalso. symmetry in E. exact (succ_word_differs _ Hc E).
      * rewrite Z.eqb_refl. cbn [m_node]. rewrite Z.add_0_r. reflexivity.
Qed.

Lemma split_thread_node_write mls ks codes c in_tasks onc k st :
  0 <= k < c ->
  node_writes (k_tree (split_thread mls ks codes c in_tasks onc k st))
  = node_writes (k_tree st) ++ [m_node (in_tasks k)].
Proof.
  intros Hk. unfold split_thread.
  destruct (Z.ltb_spec k c); [|lia].
  cbn [alloc alloc1 k_tree]. rewrite node_writes_app.
  destruct (split_output_count mls ks codes (in_tasks k) =? 0); reflexivity.
Qed.

Lemma gen_leaves_thread_node_write c in_tasks k ls :
  0 <= k < c ->
  node_writes (fst (gen_leaves_thread c in_tasks k ls))
  = node_writes (fst ls) ++ [m_node (in_tasks k)].
Proof.
  intros Hk. unfold gen_leaves_thread.
  destruct (Z.ltb_spec k c); [|lia].
  cbn [alloc1 fst]. rewrite node_writes_app. reflexivity.
Qed.

Lemma run_gen_leaves_threads_writes c in_tasks tree lc k :
  0 <= lc -> lc + c < 2 ^ 32 -> (k <= Z.to_nat c)%nat ->
  run_threads (gen_leaves_thread c in_tasks) k (tree, lc)
  = (tree ++ flat_map (leaf_task_writes in_tasks lc) (Zrange k),
     lc + Z.of_nat k).
Proof.
  intros Hlc Hw Hk. induction k as [|k IH].
  - cbn. rewrite app_nil_r, Z.add_0_r. reflexivity.
  - rewrite run_threads_S, IH by lia. unfold gen_leaves_thread.
    destruct (Z.ltb_spec (Z.of_nat k) c); [|lia].
    cbn [alloc1 fst snd].
    rewrite (to_uint32_small (lc + Z.of_nat k + 1)) by lia.
    rewrite Zrange_S, flat_map_app, <- app_assoc.
    cbn [flat_map]. rewrite app_nil_r. unfold leaf_task_writes at 3.
    f_equal. lia.
Qed.

Lemma run_gen_leaves_kernel_writes c in_tasks tree lc :
  0 <= c -> 0 <= lc -> lc + c < 2 ^ 32 ->
  gen_leaves_kernel c in_tasks (tree, lc)
  = (tree ++ flat_map (leaf_task_writes in_tasks lc) (Zrange (Z.to_nat c)),
     lc + c).
Proof.
  intros Hc Hlc Hw. rewrite gen_leaves_kernel_tasks by exact Hc.
  rewrite run_gen_leaves_threads_writes by lia.
  rewrite Z2Nat.id by exact Hc. reflexivity.
Qed.

End KernelWrites.

(** ** Counters and indices along a build *)

Section BuildCounters.

Variables (context : Bintree_gen_context) (n_codes : Z) (codes : list Z).
Variables (bits max_leaf_size : Z) (keep_singletons : bool).

Hypothesis n_range : 0 < n_codes < 2 ^ 32.

Let reaches :=
  loop_reaches max_leaf_size keep_singletons codes
    (seed_state context n_codes bits).

Lemma loop_cond_level s : loop_cond s = true -> 0 <= level s.
Proof.
  unfold loop_cond. intros H. apply andb_prop in H. destruct H as [_ H].
  destruct (Z.geb_spec (level s) 0); [lia|discriminate].
Qed.

(** The pending tasks and the leaves written never outnumber the keys. *)
Lemma pending_plus_leaves s :
  build_inv n_codes max_leaf_size (fun _ _ => True) s ->
  0 <= b_counters s (in_queue s)
  /\ b_counters s (in_queue s)
     + Z.of_nat (length (leaf_ranges (b_tree s))) <= n_codes.
Proof.
  intros [_ _ Hc Ht Hl _ Hsz].
  pose proof (length_le_size_sum _ _ _ Ht) as H1.
  pose proof (length_le_size_sum_leaves _ _ _ Hl) as H2.
  unfold in_tasks_of in H1 at 1. rewrite queue_list_length in H1. lia.
Qed.



Lemma generate_loop_done fuel s :
  loop_cond s = false ->
  generate_loop fuel max_leaf_size keep_singletons codes s = Some s.
Proof.
  intros H. destruct fuel; cbn [generate_loop]; rewrite H; reflexivity.
Qed.

Lemma Zrange_add x k :
  Zrange (x + k) = Zrange x ++ map (fun j => Z.of_nat x + j) (Zrange k).
Proof.
  induction k as [|k IH].
  - rewrite Nat.add_0_r. cbn. rewrite app_nil_r. reflexivity.
  - rewrite Nat.add_succ_r, !Zrange_S, IH, map_app, <- app_assoc.
    cbn [map]. repeat f_equal. lia.
Qed.

Lemma Zrange_add_Z a c :
  0 <= a -> 0 <= c ->
  Zrange (Z.to_nat (a + c))
  = Zrange (Z.to_nat a) ++ map (fun j => a + j) (Zrange (Z.to_nat c)).
Proof.
  intros Ha Hc. rewrite Z2Nat.inj_add by lia. rewrite Zrange_add.
  rewrite Z2Nat.id by exact Ha. reflexivity.
Qed.

End BuildCounters.

(** ** Builds that do not split *)

Section SingleLeaf.

Variables (context : Bintree_gen_context) (n_codes : Z) (codes : list Z).
Variables (bits max_leaf_size : Z) (keep_singletons : bool).

Hypothesis n_word : 0 < n_codes < 2 ^ 32.
Hypothesis fits : n_codes <= max_leaf_size.
Hypothesis leaf_size : 1 <= max_leaf_size.

Let s0 := seed_state context n_codes bits.
Let s1 := loop_body max_leaf_size keep_singletons codes s0.

Lemma seed_round_fields :
  b_counters s1 (in_queue s1) = 0
  /\ b_tree s1 = [write_node 0 false false 0; write_leaf 0 0 n_codes]
  /\ b_counters s1 2 = 1
  /\ n_nodes s1 = 1.
Proof.
  assert (Hq : b_queues s0 (in_queue s0) 0
               = mk_Split_task 0 0 n_codes (to_uint32 (bits - 1)))
    by reflexivity.
  assert (Hoc : split_output_count max_leaf_size keep_singletons codes
                  (b_queues s0 (in_queue s0) 0) = 0).
  { apply split_output_count_leaf. rewrite Hq. cbn [m_begin m_end].
    rewrite Z.sub_0_r, to_uint32_small; lia. }
  assert (Hk : split_kernel max_leaf_size keep_singletons codes 1
                 (b_queues s0 (in_queue s0)) (n_nodes s0) (split_entry s0)
               = {| k_tree := [write_node 0 false false 0;
                               write_leaf 0 0 n_codes];
                    k_out_tasks_count := 0;
                    k_out_tasks := b_queues s0 (out_queue s0);
                    k_out_leaf_count := 1 |}).
  { rewrite split_kernel_tasks by lia.
    change (Z.to_nat 1) with 1%nat. rewrite run_threads_S.
    change (run_threads _ 0 (split_entry s0)) with (split_entry s0).
    rewrite (split_thread_leaf _ _ _ _ _ _ 0 (split_entry s0))
      by (lia || exact Hoc).
    rewrite Hq. reflexivity. }
  unfold s1, loop_body.
  change (set_counter (b_counters s0) (out_queue s0) 0 (in_queue s0)) with 1.
  rewrite Hk. repeat split; reflexivity.
Qed.

(** X17: when all the keys fit in one leaf ([0 < n_codes <= max_leaf_size])
    the build makes no split, whatever the keys, the bit count and
    [keep_singletons]: it writes node 0 as a leaf and the single leaf
    [0, n_codes) under index 0, and reports one node and one leaf. *)
Theorem generate_single_leaf :
  exists context',
    generate context n_codes codes bits max_leaf_size keep_singletons
    = Some (context',
            [write_node 0 false false 0; write_leaf 0 0 n_codes])
    /\ m_nodes context' = 1 /\ m_leaves context' = 1.
Proof.
  unfold generate. destruct (Z.eqb_spec max_leaf_size 0); [lia|].
  fold s0.
  destruct (Z_lt_ge_dec (level s0) 0) as [Hneg|Hpos].
  - (* no bit to test: the finalize path makes the leaf *)
    assert (Hc : loop_cond s0 = false).
    { unfold loop_cond. destruct (Z.geb_spec (level s0) 0); [lia|].
      apply andb_false_r. }
    rewrite (generate_loop_done codes max_leaf_size keep_singletons _ s0 Hc).
    change (negb (b_counters s0 (in_queue s0) =? 0)) with true. cbv iota.
    change (b_counters s0 (in_queue s0)) with 1.
    change (b_tree s0) with (@nil tree_op).
    change (b_counters s0 2) with 0.
    rewrite run_gen_leaves_kernel_writes by lia.
    eexists. split; [reflexivity|]. split; reflexivity.
  - (* the first round makes the leaf and empties the queue *)
    assert (Hc : loop_cond s0 = true).
    { unfold loop_cond. destruct (Z.geb_spec (level s0) 0); [|lia].
      reflexivity. }
    replace (Z.to_nat (level s0 + 1)) with (S (Z.to_nat (level s0))) by lia.
    cbn [generate_loop]. rewrite Hc. fold s1.
    destruct seed_round_fields as (H1 & H2 & H3 & H4).
    assert (Hc1 : loop_cond s1 = false)
      by (unfold loop_cond; rewrite H1; reflexivity).
    rewrite (generate_loop_done codes max_leaf_size keep_singletons _ s1 Hc1).
    rewrite H1, H2, H3, H4. cbn [Z.eqb negb].
    eexists. split; [reflexivity|]. split; reflexivity.
Qed.

End SingleLeaf.

(** ** The level of the loop and the levels of the tasks *)

Section LoopLevel.

Variables (keep_singletons : bool) (codes : list Z).



End LoopLevel.

(** ** The launch configuration *)

Section LaunchGeometry.

(** The loop of a block, entered at the logical block [u], visits the
    logical blocks [u], [u + blocks], [u + 2 blocks], ... that start below
    [in_tasks_count], each once, and ends. *)
Lemma block_bases_from blocks in_tasks_count fuel :
  1 <= blocks ->
  in_tasks_count + blocks * BLOCK_SIZE <= 2 ^ 32 ->
  forall u,
    0 <= u ->
    u * BLOCK_SIZE < in_tasks_count + blocks * BLOCK_SIZE ->
    in_tasks_count - u * BLOCK_SIZE <= Z.of_nat fuel ->
    exists bases,
      block_bases fuel (blocks * BLOCK_SIZE) in_tasks_count (u * BLOCK_SIZE)
      = Some bases
      /\ (forall base,
             In base bases <->
             exists i, 0 <= i /\ base = (u + i * blocks) * BLOCK_SIZE
                       /\ base < in_tasks_count)
      /\ NoDup bases.
Proof.
  unfold BLOCK_SIZE in *. intros blocks_pos no_wrap.
  induction fuel as [|fuel IH]; intros u Hu Hlt Hf; cbn [block_bases].
  - destruct (Z.ltb_spec (u * 128) in_tasks_count); [lia|].
    exists []. split; [reflexivity|]. split; [|constructor].
    intros base. split; [intros []|].
    intros (i & Hi & -> & Hb). exfalso. nia.
  - destruct (Z.ltb_spec (u * 128) in_tasks_count) as [Hin|Hout].
    + rewrite (to_uint32_small (u * 128 + blocks * 128)) by lia.
      replace (u * 128 + blocks * 128) with ((u + blocks) * 128) by ring.
      destruct (IH (u + blocks) ltac:(lia) ltac:(lia) ltac:(lia))
        as (bases & Hrun & Hmem & Hnd).
      rewrite Hrun. exists (u * 128 :: bases).
      split; [reflexivity|]. split.
      * intros base. cbn [In]. rewrite Hmem. split.
        -- intros [<-|(i & Hi & -> & Hb)].
           ++ exists 0. split; [lia|]. split; [ring|exact Hin].
           ++ exists (i + 1). split; [lia|]. split; [ring|].
              replace ((u + (i + 1) * blocks) * 128)
                with ((u + blocks + i * blocks) * 128) by ring.
              exact Hb.
        -- intros (i & Hi & -> & Hb).
           destruct (Z.eq_dec i 0) as [->|Hne].
           ++ left. ring.
           ++ right. exists (i - 1). split; [lia|]. split; [ring|].
              replace ((u + blocks + (i - 1) * blocks) * 128)
                with ((u + i * blocks) * 128) by ring.
              exact Hb.
      * constructor; [|exact Hnd].
        rewrite Hmem. intros (i & Hi & E & _). nia.
    + exists []. split; [reflexivity|]. split; [|constructor].
      intros base. split; [intros []|].
      intros (i & Hi & -> & Hb). exfalso. nia.
Qed.

End LaunchGeometry.

Section LaunchCover.

(** The blocks a launch over [c > 0] tasks uses. *)
Lemma launch_blocks_range max_blocks c :
  1 <= max_blocks -> 0 < c -> c + 127 < 2 ^ 32 ->
  1 <= launch_blocks max_blocks c
  /\ launch_blocks max_blocks c * BLOCK_SIZE <= c + 127.
Proof.
  intros Hm Hc Hw. unfold launch_blocks, BLOCK_SIZE.
  rewrite (to_uint32_small (c + 128 - 1)) by lia.
  assert (1 <= (c + 128 - 1) / 128)
    by (apply Z.div_le_lower_bound; lia).
  pose proof (Z.mul_div_le (c + 128 - 1) 128 ltac:(lia)).
  lia.
Qed.

(** X19: the launch of [split] / [gen_leaves] over [c > 0] tasks uses at
    least one block; the loop of each physical block ends, visiting once
    each the logical blocks [block + j * n_blocks] that start below [c];
    and every task id below [c] is reached by exactly one thread of one
    block in one round of its loop. *)
Theorem launch_visits_each_task_once max_blocks in_tasks_count :
  1 <= max_blocks -> 0 < in_tasks_count ->
  2 * in_tasks_count + 127 < 2 ^ 32 ->
  let n_blocks := launch_blocks max_blocks in_tasks_count in
  let grid_size := launch_grid_size max_blocks in_tasks_count in
  1 <= n_blocks
  /\ grid_size = n_blocks * BLOCK_SIZE
  /\ (forall block,
         0 <= block < n_blocks ->
         exists bases,
           block_bases (Z.to_nat in_tasks_count) grid_size in_tasks_count
             (block_start block) = Some bases
           /\ NoDup bases
           /\ forall base,
               In base bases <->
               exists j, 0 <= j
                         /\ base = (block + j * n_blocks) * BLOCK_SIZE
                         /\ base < in_tasks_count)
  /\ (forall task_id,
         0 <= task_id < in_tasks_count ->
         exists block j thread,
           (0 <= block < n_blocks /\ 0 <= j /\ 0 <= thread < BLOCK_SIZE
            /\ (block + j * n_blocks) * BLOCK_SIZE < in_tasks_count
            /\ task_id = thread + (block + j * n_blocks) * BLOCK_SIZE)
           /\ forall block' j' thread',
               0 <= block' < n_blocks -> 0 <= j' ->
               0 <= thread' < BLOCK_SIZE ->
               task_id = thread' + (block' + j' * n_blocks) * BLOCK_SIZE ->
               block' = block /\ j' = j /\ thread' = thread).
Proof.
  intros Hm Hc Hw. cbn zeta.
  destruct (launch_blocks_range max_blocks in_tasks_count Hm Hc ltac:(lia))
    as [Hnb Hgrid].
  set (nb := launch_blocks max_blocks in_tasks_count) in *.
  assert (HG : launch_grid_size max_blocks in_tasks_count = nb * BLOCK_SIZE).
  { unfold launch_grid_size. fold nb. apply to_uint32_small.
    unfold BLOCK_SIZE in *. lia. }
  split; [exact Hnb|]. split; [exact HG|]. split.
  - intros block Hb. rewrite HG.
    assert (Hs : block_start block = block * BLOCK_SIZE).
    { unfold block_start. apply to_uint32_small. unfold BLOCK_SIZE in *. nia. }
    rewrite Hs.
    destruct (block_bases_from nb in_tasks_count (Z.to_nat in_tasks_count)
                Hnb ltac:(unfold BLOCK_SIZE in *; lia) block)
      as (bases & Hrun & Hmem & Hnd);
      try (unfold BLOCK_SIZE in *; nia).
    exists bases. split; [exact Hrun|]. split; [exact Hnd|].
    intros base. rewrite Hmem. split; intros (i & Hi & E & Hlt);
      exists i; repeat split; assumption.
  - intros task_id Ht. unfold BLOCK_SIZE in *.
    pose proof (Z.div_mod task_id 128 ltac:(lia)) as Hdm.
    pose proof (Z.mod_pos_bound task_id 128 ltac:(lia)) as Hmb.
    assert (Hq0 : 0 <= task_id / 128) by (apply Z.div_pos; lia).
    pose proof (Z.div_mod (task_id / 128) nb ltac:(lia)) as Hdm2.
    pose proof (Z.mod_pos_bound (task_id / 128) nb ltac:(lia)) as Hmb2.
    assert (Hj0 : 0 <= task_id / 128 / nb) by (apply Z.div_pos; lia).
    exists ((task_id / 128) mod nb), (task_id / 128 / nb), (task_id mod 128).
    split.
    + split; [lia|]. split; [lia|]. split; [lia|].
      replace (((task_id / 128) mod nb + task_id / 128 / nb * nb) * 128)
        with (128 * (task_id / 128)) by nia.
      split; lia.
    + intros block' j' thread' Hb' Hj' Ht' E.
      assert (Hq : block' + j' * nb = task_id / 128).
      { apply (Z.div_unique task_id 128 _ thread'); [left; lia|lia]. }
      assert (Hth : thread' = task_id mod 128).
      { apply (Z.mod_unique task_id 128 (block' + j' * nb) thread');
          [left; lia|lia]. }
      assert (Hjj : j' = task_id / 128 / nb).
      { apply (Z.div_unique (task_id / 128) nb j' block'); [left; lia|lia]. }
      assert (Hbb : block' = (task_id / 128) mod nb).
      { apply (Z.mod_unique (task_id / 128) nb j' block'); [left; lia|lia]. }
      auto.
Qed.

End LaunchCover.

(** ** Growing a buffer *)

Section Resize.

Context {A : Type} (filler : A).

(** X21: [resize_if_needed] never shrinks a vector and never touches what
    it holds: the result has the larger of the two sizes and starts with
    the old contents; and two calls in a row are one call with the larger
    size. *)
Theorem resize_if_needed_grows (vec : list A) (size size' : Z) :
  0 <= size -> 0 <= size' ->
  Z.of_nat (length (resize_if_needed filler vec size))
  = Z.max (Z.of_nat (length vec)) size
  /\ firstn (length vec) (resize_if_needed filler vec size) = vec
  /\ resize_if_needed filler (resize_if_needed filler vec size) size'
     = resize_if_needed filler vec (Z.max size size').
Proof.
  intros Hs Hs'. unfold resize_if_needed.
  destruct (Z.ltb_spec (Z.of_nat (length vec)) size) as [Hlt|Hge].
  - rewrite length_app, repeat_length.
    split; [lia|]. split.
    + rewrite firstn_app, Nat.sub_diag, firstn_all. cbn. apply app_nil_r.
    + replace (length vec + (Z.to_nat size - length vec))%nat
        with (Z.to_nat size) by lia.
      rewrite Z2Nat.id by lia.
      destruct (Z.ltb_spec size size') as [Hlt'|Hge'].
      * destruct (Z.ltb_spec (Z.of_nat (length vec)) (Z.max size size'));
          [|lia].
        rewrite <- app_assoc, <- repeat_app. do 2 f_equal. lia.
      * destruct (Z.ltb_spec (Z.of_nat (length vec)) (Z.max size size'));
          [|lia].
        do 2 f_equal. lia.
  - split; [lia|]. split; [apply firstn_all|].
    destruct (Z.ltb_spec (Z.of_nat (length vec)) size'),
      (Z.ltb_spec (Z.of_nat (length vec)) (Z.max size size')); try lia.
    + do 2 f_equal. lia.
    + reflexivity.
Qed.

End Resize.

(** ** Orders of visits *)

Section Orders.

Lemma cover_count_perm i rs rs' :
  Permutation rs rs' -> cover_count i rs = cover_count i rs'.
Proof.
  induction 1 as [|r rs rs' _ IH|r r' rs|rs rs' rs'' _ IH _ IH'].
  - reflexivity.
  - rewrite !cover_count_cons, IH. reflexivity.
  - rewrite !cover_count_cons. lia.
  - congruence.
Qed.

Lemma size_sum_perm rs rs' : Permutation rs rs' -> size_sum rs = size_sum rs'.
Proof.
  induction 1 as [|r rs rs' _ IH|r r' rs|rs rs' rs'' _ IH _ IH'].
  - reflexivity.
  - rewrite !size_sum_cons, IH. reflexivity.
  - rewrite !size_sum_cons. lia.
  - congruence.
Qed.

(** The invariant of a launch does not depend on the order in which the
    pending tasks are listed. *)
Lemma kernel_inv_perm n max_leaf_size Pout Pin pending pending' ks :
  Permutation pending pending' ->
  kernel_inv n max_leaf_size Pout Pin pending ks ->
  kernel_inv n max_leaf_size Pout Pin pending' ks.
Proof.
  intros Hp [Hc Hout Hpend Hleaves Hcov Hsz].
  pose proof (Permutation_map task_range Hp) as Hr.
  constructor; try assumption.
  - exact (Permutation_Forall Hp Hpend).
  - intros i Hi. rewrite <- (cover_count_perm i _ _ Hr). apply Hcov. exact Hi.
  - rewrite <- (size_sum_perm _ _ Hr). exact Hsz.
Qed.

Lemma Zrange_NoDup k : NoDup (Zrange k).
Proof.
  unfold Zrange. apply NoDup_map_NoDup_ForallPairs; [|apply seq_NoDup].
  intros x y _ _ H. lia.
Qed.

Lemma Zrange_mem (k : nat) (x : Z) : In x (Zrange k) <-> 0 <= x < Z.of_nat k.
Proof.
  split; [|apply Zrange_In].
  unfold Zrange. intros H. apply in_map_iff in H.
  destruct H as (j & <- & Hj). apply in_seq in Hj. lia.
Qed.

Lemma queue_list_Zrange q c : queue_list q c = map q (Zrange (Z.to_nat c)).
Proof. unfold queue_list, Zrange. rewrite map_map. reflexivity. Qed.

(** A duplicate-free list holding exactly the numbers below [c] lists them
    in some order. *)
Lemma Zrange_order (l : list Z) c :
  NoDup l -> (forall x, In x l <-> 0 <= x < c) ->
  Permutation l (Zrange (Z.to_nat c)).
Proof.
  intros Hnd Hin. apply NoDup_Permutation; [exact Hnd|apply Zrange_NoDup|].
  intros x. rewrite Hin, Zrange_mem. lia.
Qed.

Lemma NoDup_flat_map {A B : Type} (f : A -> list B) (l : list A) :
  NoDup l ->
  (forall a, In a l -> NoDup (f a)) ->
  (forall a a' b, In a l -> In a' l -> In b (f a) -> In b (f a') -> a = a') ->
  NoDup (flat_map f l).
Proof.
  induction 1 as [|a l Hnin Hnd IH]; intros Hf Hdis; cbn [flat_map].
  - constructor.
  - apply NoDup_app.
    + apply Hf. left. reflexivity.
    + apply IH.
      * intros a' Ha'. apply Hf. right. exact Ha'.
      * intros a1 a2 b H1 H2. apply Hdis; right; assumption.
    + intros b Hb Hb'. apply in_flat_map in Hb'.
      destruct Hb' as (a' & Ha' & Hb').
      assert (a = a') by (apply (Hdis a a' b); auto; [left|right]; auto).
      subst a'. contradiction.
Qed.

Lemma run_visits_app {S : Type} (thread : Z -> S -> S) order order' s :
  Device.run_visits thread (order ++ order') s
  = Device.run_visits thread order' (Device.run_visits thread order s).
Proof. unfold Device.run_visits. apply fold_left_app. Qed.

(** Visits that do nothing can be left out. *)
Lemma run_visits_live {S : Type} (thread : Z -> S -> S) (live : Z -> bool)
    order s :
  (forall task_id st, live task_id = false -> thread task_id st = st) ->
  Device.run_visits thread order s
  = Device.run_visits thread (filter live order) s.
Proof.
  intros Hidle. revert s.
  induction order as [|task_id order IH]; intros s; [reflexivity|].
  cbn [filter]. destruct (live task_id) eqn:E.
  - cbn [Device.run_visits fold_left]. apply IH.
  - cbn [Device.run_visits fold_left]. rewrite (Hidle _ _ E). apply IH.
Qed.

End Orders.

(** ** The visits of a launch *)

Section LaunchTasks.

Lemma block_tasks_mem base x :
  0 <= base -> base + 127 < 2 ^ 32 ->
  In x (Device.block_tasks base) <-> base <= x < base + 128.
Proof.
  intros H0 Hw. unfold Device.block_tasks, BLOCK_SIZE.
  rewrite in_map_iff. split.
  - intros (thread & <- & Ht). apply Zrange_mem in Ht.
    rewrite to_uint32_small; lia.
  - intros Hx. exists (x - base). split.
    + rewrite to_uint32_small; lia.
    + apply Zrange_mem. lia.
Qed.

Lemma block_tasks_NoDup base :
  0 <= base -> base + 127 < 2 ^ 32 -> NoDup (Device.block_tasks base).
Proof.
  intros H0 Hw. unfold Device.block_tasks, BLOCK_SIZE.
  apply NoDup_map_NoDup_ForallPairs; [|apply Zrange_NoDup].
  intros x y Hx Hy. apply Zrange_mem in Hx, Hy.
  rewrite !to_uint32_small by lia. lia.
Qed.

(** The logical block a task id lies in. *)
Lemma logical_block q x : q * 128 <= x < q * 128 + 128 -> x / 128 = q.
Proof.
  intros H. symmetry. apply (Z.div_unique x 128 q (x - q * 128)); lia.
Qed.

(** The visits of one physical block: the task ids of the logical blocks
    that are its own and start below [c]. *)
Lemma block_visits blocks c block :
  1 <= blocks -> 0 < c -> c + blocks * 128 <= 2 ^ 32 ->
  0 <= block < blocks ->
  exists bases,
    block_bases (Z.to_nat c) (blocks * 128) c (block * 128) = Some bases
    /\ NoDup (flat_map Device.block_tasks bases)
    /\ forall x,
         In x (flat_map Device.block_tasks bases)
         <-> 0 <= x /\ (x / 128) mod blocks = block /\ x / 128 * 128 < c.
Proof.
  intros Hb Hc Hw Hblock.
  destruct (block_bases_from blocks c (Z.to_nat c) Hb
              ltac:(unfold BLOCK_SIZE; lia) block)
    as (bases & Hrun & Hmem & Hnd);
    try (unfold BLOCK_SIZE; nia).
  unfold BLOCK_SIZE in *.
  assert (Hbase : forall base, In base bases ->
            0 <= base /\ base + 127 < 2 ^ 32
            /\ exists i, 0 <= i /\ base = (block + i * blocks) * 128
                         /\ base < c).
  { intros base Hin. apply Hmem in Hin. destruct Hin as (i & Hi & E & Hlt).
    split; [nia|]. split; [lia|]. exists i. auto. }
  exists bases. split; [exact Hrun|]. split.
  - apply NoDup_flat_map; [exact Hnd| |].
    + intros base Hin. destruct (Hbase base Hin) as (H0 & H1 & _).
      apply block_tasks_NoDup; assumption.
    + intros base base' x Hin Hin' Hx Hx'.
      destruct (Hbase base Hin) as (H0 & H1 & i & Hi & E & _).
      destruct (Hbase base' Hin') as (H0' & H1' & i' & Hi' & E' & _).
      apply block_tasks_mem in Hx; [|assumption..].
      apply block_tasks_mem in Hx'; [|assumption..].
      pose proof (logical_block (block + i * blocks) x ltac:(lia)).
      pose proof (logical_block (block + i' * blocks) x ltac:(lia)).
      lia.
  - intros x. rewrite in_flat_map. split.
    + intros (base & Hin & Hx).
      destruct (Hbase base Hin) as (H0 & H1 & i & Hi & E & Hlt).
      apply block_tasks_mem in Hx; [|assumption..].
      pose proof (logical_block (block + i * blocks) x ltac:(lia)) as Hq.
      split; [lia|]. split.
      * rewrite Hq. symmetry.
        apply (Z.mod_unique (block + i * blocks) blocks i block);
          [left; lia|lia].
      * rewrite Hq. lia.
    + intros (H0 & Hmod & Hlt).
      pose proof (Z.div_mod x 128 ltac:(lia)) as Hdm.
      pose proof (Z.mod_pos_bound x 128 ltac:(lia)) as Hmb.
      assert (Hq0 : 0 <= x / 128) by (apply Z.div_pos; lia).
      pose proof (Z.div_mod (x / 128) blocks ltac:(lia)) as Hdm2.
      assert (Hi0 : 0 <= x / 128 / blocks) by (apply Z.div_pos; lia).
      exists (x / 128 * 128). split.
      * apply Hmem. exists (x / 128 / blocks).
        split; [exact Hi0|]. split; [|exact Hlt]. nia.
      * apply block_tasks_mem; lia.
Qed.

(** The visits of the physical blocks [bl]. *)
Lemma grid_visits blocks c bl :
  1 <= blocks -> 0 < c -> c + blocks * 128 <= 2 ^ 32 ->
  NoDup bl -> (forall block, In block bl -> 0 <= block < blocks) ->
  exists ids,
    Device.grid_tasks (blocks * 128) c bl = Some ids
    /\ NoDup ids
    /\ forall x,
         In x ids
         <-> 0 <= x /\ In ((x / 128) mod blocks) bl /\ x / 128 * 128 < c.
Proof.
  intros Hb Hc Hw Hnd Hin. induction Hnd as [|block bl Hnin Hnd IH].
  - exists []. split; [reflexivity|]. split; [constructor|].
    intros x. cbn [In]. tauto.
  - destruct IH as (ids & Hrun & Hnd' & Hmem).
    { intros b' Hb'. apply Hin. right. exact Hb'. }
    assert (Hblock : 0 <= block < blocks) by (apply Hin; left; reflexivity).
    destruct (block_visits blocks c block Hb Hc Hw Hblock)
      as (bases & Hbases & Hnd1 & Hmem1).
    cbn [Device.grid_tasks].
    assert (Hs : block_start block = block * 128).
    { unfold block_start, BLOCK_SIZE. apply to_uint32_small. nia. }
    rewrite Hs, Hbases, Hrun. cbn [option_map].
    eexists. split; [reflexivity|]. split.
    + apply NoDup_app; [exact Hnd1|exact Hnd'|].
      intros x Hx Hx'. apply Hmem1 in Hx. apply Hmem in Hx'.
      destruct Hx as (_ & E & _). destruct Hx' as (_ & Hx' & _).
      rewrite E in Hx'. contradiction.
    + intros x. rewrite in_app_iff, Hmem1, Hmem. cbn [In]. split.
      * intros [(H0 & E & Hlt)|(H0 & Hx & Hlt)]; auto.
      * intros (H0 & [E|Hx] & Hlt); auto.
Qed.

(** A launch over [c > 0] tasks, no more than [2^31]: every block
    ends, no task id is visited twice, and the task ids visited are those of
    the logical blocks that start below [c]. *)
Lemma launch_tasks_exact max_blocks c :
  1 <= max_blocks -> 0 < c -> c <= 2 ^ 31 ->
  exists ids,
    Device.launch_tasks max_blocks c = Some ids
    /\ NoDup ids
    /\ forall x, In x ids <-> 0 <= x /\ x / 128 * 128 < c.
Proof.
  intros Hm Hc Hw.
  destruct (launch_blocks_range max_blocks c Hm Hc ltac:(lia)) as [Hnb Hgrid].
  unfold Device.launch_tasks, launch_grid_size.
  set (nb := launch_blocks max_blocks c) in *.
  unfold BLOCK_SIZE in *.
  rewrite (to_uint32_small (nb * 128)) by lia.
  destruct (grid_visits nb c (Zrange (Z.to_nat nb)) Hnb Hc ltac:(lia)
              (Zrange_NoDup _))
    as (ids & Hrun & Hnd & Hmem).
  { intros block Hin. apply Zrange_mem in Hin. lia. }
  exists ids. split; [exact Hrun|]. split; [exact Hnd|].
  intros x. rewrite Hmem. split; [tauto|].
  intros (H0 & Hlt). split; [exact H0|]. split; [|exact Hlt].
  apply Zrange_mem.
  assert (0 <= x / 128) by (apply Z.div_pos; lia).
  pose proof (Z.mod_pos_bound (x / 128) nb ltac:(lia)). lia.
Qed.

(** Whatever the order of the visits, those that come to a task list the
    tasks [0 .. c - 1], each once. *)
Lemma launch_live max_blocks c ids order :
  1 <= max_blocks -> 0 < c -> c <= 2 ^ 31 ->
  Device.launch_tasks max_blocks c = Some ids ->
  Permutation order ids ->
  Permutation (filter (fun x => x <? c) order) (Zrange (Z.to_nat c)).
Proof.
  intros Hm Hc Hw Hrun Hp.
  destruct (launch_tasks_exact max_blocks c Hm Hc Hw)
    as (ids' & Hrun' & Hnd & Hmem).
  rewrite Hrun in Hrun'. injection Hrun' as <-.
  apply Zrange_order.
  - apply NoDup_filter. apply (Permutation_NoDup (Permutation_sym Hp) Hnd).
  - intros x. rewrite filter_In. split.
    + intros [Hin Hlt]. apply (Permutation_in _ Hp) in Hin.
      apply Hmem in Hin. destruct (Z.ltb_spec x c); [lia|discriminate].
    + intros Hx. split.
      * apply (Permutation_in _ (Permutation_sym Hp)). apply Hmem.
        split; [lia|].
        pose proof (Z.mul_div_le x 128 ltac:(lia)). lia.
      * destruct (Z.ltb_spec x c); [reflexivity|lia].
Qed.

End LaunchTasks.

(** ** The order of a launch *)

Section LaunchOrder.

(** The visits of a launch that come to a task, in their order. *)
Lemma launch_order sched max_blocks c :
  1 <= max_blocks -> 0 < c -> c <= 2 ^ 31 ->
  (forall ids, Permutation (sched ids) ids) ->
  exists live,
    Permutation live (Zrange (Z.to_nat c))
    /\ (forall task_id, In task_id live -> 0 <= task_id < c)
    /\ (forall mls ks codes q onc st,
           Device.split sched max_blocks mls ks codes c q onc st
           = Some (Device.run_visits (split_thread mls ks codes c q onc)
                     live st))
    /\ (forall q ls,
           Device.gen_leaves sched max_blocks c q ls
           = Some (Device.run_visits (gen_leaves_thread c q) live ls)).
Proof.
  intros Hm Hc Hw Hsched.
  destruct (launch_tasks_exact max_blocks c Hm Hc Hw)
    as (ids & Hrun & Hnd & Hmem).
  pose proof (launch_live max_blocks c ids (sched ids) Hm Hc Hw Hrun
                (Hsched ids)) as Hlive.
  exists (filter (fun x => x <? c) (sched ids)).
  split; [exact Hlive|]. split; [|split].
  - intros task_id Hin. apply (Permutation_in _ Hlive) in Hin.
    apply Zrange_mem in Hin. lia.
  - intros mls ks codes q onc st. unfold Device.split.
    rewrite Hrun. cbn [option_map]. f_equal.
    apply (run_visits_live _ (fun x => x <? c)).
    intros task_id st' E. apply split_thread_idle.
    destruct (Z.ltb_spec task_id c); [discriminate|assumption].
  - intros q ls. unfold Device.gen_leaves.
    rewrite Hrun. cbn [option_map]. f_equal.
    apply (run_visits_live _ (fun x => x <? c)).
    intros task_id st' E. apply gen_leaves_thread_idle.
    destruct (Z.ltb_spec task_id c); [discriminate|assumption].
Qed.

End LaunchOrder.

(** ** A launch of the Split Stage on the device *)

Section DeviceLaunch.

Variables (n max_leaf_size : Z) (keep_singletons : bool) (codes : list Z).

Hypothesis n_word : n < 2 ^ 32.

(** A property of the state of a launch and of the number of visits made
    that every visit carries on holds when the visits are over, in whatever
    order they came; the step may use the invariant of the launch. *)
Lemma run_split_visits_ind c q onc (Q : Z -> kernel_state -> Prop) :
  (forall task_id pending st k,
      0 <= task_id < c -> 0 <= k ->
      kernel_inv n max_leaf_size (fun _ => True) (fun _ => True)
        (q task_id :: pending) st ->
      Q k st ->
      Q (k + 1)
        (split_thread max_leaf_size keep_singletons codes c q onc task_id
           st)) ->
  forall order st0 k0,
    0 <= k0 ->
    (forall task_id, In task_id order -> 0 <= task_id < c) ->
    kernel_inv n max_leaf_size (fun _ => True) (fun _ => True)
      (map q order) st0 ->
    Q k0 st0 ->
    let st :=
      Device.run_visits
        (split_thread max_leaf_size keep_singletons codes c q onc) order st0 in
    kernel_inv n max_leaf_size (fun _ => True) (fun _ => True) [] st
    /\ Q (k0 + Z.of_nat (length order)) st.
Proof.
  intros Hstep order. cbn zeta.
  induction order as [|task_id order IH]; intros st0 k0 Hk0 Hin Hinv HQ.
  - cbn [length]. rewrite Z.add_0_r. split; assumption.
  - cbn [Device.run_visits fold_left]. cbn [map] in Hinv.
    assert (Hid : 0 <= task_id < c) by (apply Hin; left; reflexivity).
    replace (k0 + Z.of_nat (length (task_id :: order)))
      with (k0 + 1 + Z.of_nat (length order)) by (cbn [length]; lia).
    apply IH.
    + lia.
    + intros id Hid'. apply Hin. right. exact Hid'.
    + apply (split_thread_inv n max_leaf_size keep_singletons codes c q onc
               (fun _ => True) (fun _ => True) n_word (fun _ _ => I));
        assumption.
    + apply (Hstep task_id (map q order)); assumption.
Qed.

(** A launch of [split] over [c > 0] tasks, no more than [2^31], ends
    for every order of its visits, with the invariant of the launch and with
    every property the visits carry on; [live] is the order in which the
    tasks were visited. *)
Lemma split_launch sched max_blocks c q onc
    (Q : Z -> kernel_state -> Prop) st0 :
  1 <= max_blocks -> 0 < c -> c <= 2 ^ 31 ->
  (forall ids, Permutation (sched ids) ids) ->
  kernel_inv n max_leaf_size (fun _ => True) (fun _ => True)
    (queue_list q c) st0 ->
  Q 0 st0 ->
  (forall task_id pending st k,
      0 <= task_id < c -> 0 <= k ->
      kernel_inv n max_leaf_size (fun _ => True) (fun _ => True)
        (q task_id :: pending) st ->
      Q k st ->
      Q (k + 1)
        (split_thread max_leaf_size keep_singletons codes c q onc task_id
           st)) ->
  exists st live,
    Device.split sched max_blocks max_leaf_size keep_singletons codes c q onc
      st0 = Some st
    /\ kernel_inv n max_leaf_size (fun _ => True) (fun _ => True) [] st
    /\ Q c st
    /\ Permutation live (Zrange (Z.to_nat c))
    /\ (forall task_id, In task_id live -> 0 <= task_id < c)
    /\ st = Device.run_visits
              (split_thread max_leaf_size keep_singletons codes c q onc)
              live st0.
Proof.
  intros Hm Hc Hw Hsched Hinv HQ Hstep.
  destruct (launch_order sched max_blocks c Hm Hc Hw Hsched)
    as (live & Hlive & Hin & Hsplit & _).
  eexists. exists live. split; [apply Hsplit|].
  destruct (run_split_visits_ind c q onc Q Hstep live st0 0 ltac:(lia) Hin)
    as [K HQ'].
  - apply (kernel_inv_perm _ _ _ _ (queue_list q c)); [|exact Hinv].
    rewrite queue_list_Zrange. apply Permutation_map.
    apply Permutation_sym. exact Hlive.
  - exact HQ.
  - rewrite (Permutation_length Hlive), Zrange_length in HQ'.
    replace (0 + Z.of_nat (Z.to_nat c)) with c in HQ' by lia.
    split; [exact K|]. split; [exact HQ'|]. split; [exact Hlive|].
    split; [exact Hin|reflexivity].
Qed.

End DeviceLaunch.

(** ** A build on the device *)

Section DeviceRound.

Variables (d : Device.runtime) (n max_leaf_size : Z).
Variables (keep_singletons : bool) (codes : list Z).

Hypothesis device_runs : Device.runtime_ok d.
Hypothesis n_word : n < 2 ^ 32.

Lemma split_entry_fields s :
  out_queue s = 1 - in_queue s -> in_queue s = 0 \/ in_queue s = 1 ->
  k_tree (split_entry s) = b_tree s
  /\ k_out_tasks_count (split_entry s) = 0
  /\ k_out_leaf_count (split_entry s) = b_counters s 2.
Proof.
  intros Hout Hin. unfold split_entry.
  cbn [k_tree k_out_tasks_count k_out_leaf_count].
  rewrite set_counter_same, set_counter_other by lia.
  repeat split; reflexivity.
Qed.

(** A round on the device over no more than [2^31] pending tasks: the
    launch ends, the round leaves a state with the invariant of the build,
    and every property of the state and of the number of visits made that
    the visits of the launch carry on holds of what the launch returned. *)
Lemma device_round_counted s (Q : Z -> kernel_state -> Prop) :
  build_inv n max_leaf_size (fun _ _ => True) s ->
  loop_cond s = true ->
  b_counters s (in_queue s) <= 2 ^ 31 ->
  Q 0 (split_entry s) ->
  (forall task_id pending st k,
      0 <= task_id < b_counters s (in_queue s) -> 0 <= k ->
      kernel_inv n max_leaf_size (fun _ => True) (fun _ => True)
        (b_queues s (in_queue s) task_id :: pending) st ->
      Q k st ->
      Q (k + 1)
        (split_thread max_leaf_size keep_singletons codes
           (b_counters s (in_queue s)) (b_queues s (in_queue s)) (n_nodes s)
           task_id st)) ->
  exists st s' live,
    Device.loop_body d max_leaf_size keep_singletons codes s = Some s'
    /\ Q (b_counters s (in_queue s)) st
    /\ build_inv n max_leaf_size (fun _ _ => True) s'
    /\ b_counters s' (in_queue s') = k_out_tasks_count st
    /\ b_queues s' (in_queue s') = k_out_tasks st
    /\ b_counters s' 2 = k_out_leaf_count st
    /\ b_tree s' = k_tree st
    /\ n_nodes s' = to_uint32 (n_nodes s + k_out_tasks_count st)
    /\ level s' = level s - 1
    /\ Permutation live (Zrange (Z.to_nat (b_counters s (in_queue s))))
    /\ (forall task_id, In task_id live ->
                        0 <= task_id < b_counters s (in_queue s))
    /\ st = Device.run_visits
              (split_thread max_leaf_size keep_singletons codes
                 (b_counters s (in_queue s)) (b_queues s (in_queue s))
                 (n_nodes s))
              live (split_entry s).
Proof.
  intros Hinv Hcond Hfit HQ Hstep.
  destruct device_runs as (Hsb & _ & Hsched).
  assert (Hc : 0 < b_counters s (in_queue s)).
  { pose proof (bi_count _ _ _ _ Hinv).
    unfold loop_cond in Hcond. apply andb_prop in Hcond.
    destruct Hcond as [Hcond _].
    destruct (Z.eqb_spec (b_counters s (in_queue s)) 0); [discriminate|lia]. }
  destruct (split_launch n max_leaf_size keep_singletons codes n_word
              (Device.visit_order d (level s)) (Device.split_blocks d)
              (b_counters s (in_queue s)) (b_queues s (in_queue s))
              (n_nodes s) Q (split_entry s) Hsb Hc Hfit
              (Hsched (level s))
              (split_entry_inv n max_leaf_size (fun _ _ => True) s Hinv)
              HQ Hstep)
    as (st & live & Hrun & Kinv & HQ' & Hlive & Hlin & Hst).
  destruct Hinv as [Hin Hout _ _ _ _ _].
  assert (Hne : in_queue s <> out_queue s) by lia.
  assert (Hne2 : out_queue s <> 2) by lia.
  exists st. eexists. exists live. split.
  { unfold Device.loop_body.
    rewrite (set_counter_other _ _ _ (in_queue s)) by exact Hne.
    rewrite Hrun. reflexivity. }
  cbn [b_queues b_counters b_tree in_queue out_queue level n_nodes].
  rewrite set_queue_same.
  rewrite (set_counter_other _ 2) by exact Hne2.
  rewrite !set_counter_same.
  split; [exact HQ'|].
  destruct Kinv as [Kc Kout _ Kleaves Kcov Ksz].
  split; [|do 6 (split; [reflexivity|]); split; [exact Hlive|];
           split; [exact Hlin|exact Hst]].
  constructor;
    cbn [b_queues b_counters b_tree in_queue out_queue level n_nodes];
    unfold in_tasks_of;
    cbn [b_queues b_counters b_tree in_queue out_queue level n_nodes];
    rewrite ?set_queue_same, ?(set_counter_other _ 2) by exact Hne2;
    rewrite ?set_counter_same; try assumption.
  - lia.
  - lia.
  - intros i Hi. specialize (Kcov i Hi). cbn in Kcov. lia.
  - cbn in Ksz. lia.
Qed.

End DeviceRound.

Section DeviceBuild.

Variables (d : Device.runtime) (n max_leaf_size : Z).
Variables (keep_singletons : bool) (codes : list Z).

Hypothesis device_runs : Device.runtime_ok d.
Hypothesis launches_fit : n <= 2 ^ 31.

(** A round on the device of a build over no more than [2^31] keys, where
    no queue is longer than that. *)
Lemma device_round s (Q : kernel_state -> Prop) :
  build_inv n max_leaf_size (fun _ _ => True) s ->
  loop_cond s = true ->
  Q (split_entry s) ->
  (forall task_id pending st,
      0 <= task_id < b_counters s (in_queue s) ->
      kernel_inv n max_leaf_size (fun _ => True) (fun _ => True)
        (b_queues s (in_queue s) task_id :: pending) st ->
      Q st ->
      Q (split_thread max_leaf_size keep_singletons codes
           (b_counters s (in_queue s)) (b_queues s (in_queue s)) (n_nodes s)
           task_id st)) ->
  exists st s' live,
    Device.loop_body d max_leaf_size keep_singletons codes s = Some s'
    /\ Q st
    /\ build_inv n max_leaf_size (fun _ _ => True) s'
    /\ b_counters s' (in_queue s') = k_out_tasks_count st
    /\ b_queues s' (in_queue s') = k_out_tasks st
    /\ b_counters s' 2 = k_out_leaf_count st
    /\ b_tree s' = k_tree st
    /\ n_nodes s' = to_uint32 (n_nodes s + k_out_tasks_count st)
    /\ level s' = level s - 1
    /\ Permutation live (Zrange (Z.to_nat (b_counters s (in_queue s))))
    /\ (forall task_id, In task_id live ->
                        0 <= task_id < b_counters s (in_queue s))
    /\ st = Device.run_visits
              (split_thread max_leaf_size keep_singletons codes
                 (b_counters s (in_queue s)) (b_queues s (in_queue s))
                 (n_nodes s))
              live (split_entry s).
Proof.
  intros Hinv Hcond HQ Hstep.
  destruct (pending_plus_leaves n max_leaf_size s Hinv) as [Hc0 Hroom].
  apply (device_round_counted d n max_leaf_size keep_singletons codes
           device_runs ltac:(lia) s (fun _ => Q) Hinv Hcond ltac:(lia) HQ).
  intros task_id pending st _ Hid _. apply Hstep. exact Hid.
Qed.

End DeviceBuild.

(** ** The Leaf-Generation Stage on the device *)

Section DeviceLeaves.

Lemma combine_snoc {A B : Type} (l : list A) (l' : list B) a b :
  length l = length l' ->
  combine (l ++ [a]) (l' ++ [b]) = combine l l' ++ [(a, b)].
Proof.
  revert l'. induction l as [|x l IH]; intros [|y l'] H; cbn in *;
    try discriminate; [reflexivity|].
  f_equal. apply IH. lia.
Qed.

Lemma combine_fst {A B : Type} (l : list A) (l' : list B) :
  length l = length l' -> map fst (combine l l') = l.
Proof.
  revert l'. induction l as [|x l IH]; intros [|y l'] H; cbn in *;
    try discriminate; [reflexivity|].
  f_equal. apply IH. lia.
Qed.

Lemma combine_snd {A B : Type} (l : list A) (l' : list B) :
  length l = length l' -> map snd (combine l l') = l'.
Proof.
  revert l'. induction l as [|x l IH]; intros [|y l'] H; cbn in *;
    try discriminate; [reflexivity|].
  f_equal. apply IH. lia.
Qed.

(** The visits of the Leaf-Generation Stage, in the order they come: the
    [k]-th visit takes the leaf index [leaf_count + k]. *)
Lemma run_gen_leaves_visits c q live :
  forall tree leaf_count,
    (forall task_id, In task_id live -> 0 <= task_id < c) ->
    0 <= leaf_count -> leaf_count + Z.of_nat (length live) < 2 ^ 32 ->
    Device.run_visits (gen_leaves_thread c q) live (tree, leaf_count)
    = (tree ++ flat_map (Device.leaf_visit_writes q leaf_count)
                 (combine (Zrange (length live)) live),
       leaf_count + Z.of_nat (length live)).
Proof.
  induction live as [|task_id live IH] using rev_ind;
    intros tree lc Hin Hlc Hw.
  - cbn. rewrite app_nil_r, Z.add_0_r. reflexivity.
  - rewrite length_app in *. cbn [length] in *.
    rewrite run_visits_app, IH; [| |exact Hlc|lia].
    2:{ intros id Hid. apply Hin. apply in_or_app. left. exact Hid. }
    assert (Hid : 0 <= task_id < c).
    { apply Hin. apply in_or_app. right. left. reflexivity. }
    cbn [Device.run_visits fold_left]. unfold gen_leaves_thread.
    destruct (Z.ltb_spec task_id c); [|lia].
    cbn [alloc1 fst snd].
    rewrite (to_uint32_small (lc + Z.of_nat (length live) + 1)) by lia.
    rewrite Nat.add_1_r, Zrange_S.
    rewrite combine_snoc by apply Zrange_length.
    rewrite flat_map_app, <- app_assoc. cbn [flat_map].
    rewrite app_nil_r. unfold Device.leaf_visit_writes at 3. cbn [fst snd].
    f_equal. lia.
Qed.

(** A launch of [gen_leaves] over [c > 0] tasks, no more than [2^31],
    the leaf counter leaving room for [c] leaves: it ends for every order of
    its visits and gives the tasks, in the order [live] they are visited,
    the leaf indices from the counter on. *)
Lemma gen_leaves_launch sched max_blocks c q tree leaf_count :
  1 <= max_blocks -> 0 < c -> c <= 2 ^ 31 ->
  (forall ids, Permutation (sched ids) ids) ->
  0 <= leaf_count -> leaf_count + c < 2 ^ 32 ->
  exists live,
    Permutation live (Zrange (Z.to_nat c))
    /\ Device.gen_leaves sched max_blocks c q (tree, leaf_count)
       = Some (tree ++ flat_map (Device.leaf_visit_writes q leaf_count)
                         (combine (Zrange (Z.to_nat c)) live),
               leaf_count + c).
Proof.
  intros Hm Hc Hw Hsched Hlc Hroom.
  destruct (launch_order sched max_blocks c Hm Hc Hw Hsched)
    as (live & Hlive & Hin & _ & Hgen).
  exists live. split; [exact Hlive|].
  pose proof (Permutation_length Hlive) as Hlen.
  rewrite Zrange_length in Hlen.
  rewrite Hgen, run_gen_leaves_visits by (assumption || lia).
  rewrite Hlen, Z2Nat.id by lia. reflexivity.
Qed.

Lemma leaf_ranges_leaf_visits q lc ps :
  leaf_ranges (flat_map (Device.leaf_visit_writes q lc) ps)
  = map (fun p => task_range (q (snd p))) ps.
Proof.
  induction ps as [|p ps IH]; [reflexivity|].
  cbn [flat_map map]. rewrite leaf_ranges_app, IH. reflexivity.
Qed.

Lemma leaf_writes_leaf_visits q lc ps :
  leaf_writes (flat_map (Device.leaf_visit_writes q lc) ps)
  = map (fun p => lc + fst p) ps.
Proof.
  induction ps as [|p ps IH]; [reflexivity|].
  cbn [flat_map map]. rewrite leaf_writes_app, IH. reflexivity.
Qed.

Lemma node_writes_leaf_visits q lc ps :
  node_writes (flat_map (Device.leaf_visit_writes q lc) ps)
  = map (fun p => m_node (q (snd p))) ps.
Proof.
  induction ps as [|p ps IH]; [reflexivity|].
  cbn [flat_map map]. rewrite node_writes_app, IH. reflexivity.
Qed.

Lemma leaf_node_indices_app ops ops' :
  Device.leaf_node_indices (ops ++ ops')
  = Device.leaf_node_indices ops ++ Device.leaf_node_indices ops'.
Proof. unfold Device.leaf_node_indices. apply flat_map_app. Qed.

Lemma leaf_node_indices_leaf_visits q lc ps :
  Device.leaf_node_indices (flat_map (Device.leaf_visit_writes q lc) ps)
  = map (fun p => lc + fst p) ps.
Proof.
  induction ps as [|p ps IH]; [reflexivity|].
  cbn [flat_map map]. rewrite leaf_node_indices_app, IH. reflexivity.
Qed.

Lemma map_combine_fst {A B C : Type} (f : A -> C) (l : list A) (l' : list B) :
  length l = length l' -> map (fun p => f (fst p)) (combine l l') = map f l.
Proof.
  intros H. rewrite <- (combine_fst l l' H) at 2. rewrite map_map.
  reflexivity.
Qed.

Lemma map_combine_snd {A B C : Type} (f : B -> C) (l : list A) (l' : list B) :
  length l = length l' -> map (fun p => f (snd p)) (combine l l') = map f l'.
Proof.
  intros H. rewrite <- (combine_snd l l' H) at 2. rewrite map_map.
  reflexivity.
Qed.

End DeviceLeaves.

(** ** The loop of [generate] on the device *)

Section DeviceLoop.

Variables (d : Device.runtime) (context : Bintree_gen_context).
Variables (n_codes : Z) (codes : list Z) (bits max_leaf_size : Z).
Variable keep_singletons : bool.

Hypothesis device_runs : Device.runtime_ok d.
Hypothesis n_pos : 0 < n_codes.
Hypothesis launches_fit : n_codes <= 2 ^ 31.

(** A property of the build state that a round carries on, given the
    invariant of the build, holds of every round the device runs. *)
Lemma device_round_inv s s' :
  build_inv n_codes max_leaf_size (fun _ _ => True) s ->
  loop_cond s = true ->
  Device.loop_body d max_leaf_size keep_singletons codes s = Some s' ->
  build_inv n_codes max_leaf_size (fun _ _ => True) s'
  /\ level s' = level s - 1.
Proof.
  intros Hinv Hcond Hrun.
  destruct (device_round d n_codes max_leaf_size keep_singletons codes
              device_runs launches_fit s (fun _ => True) Hinv Hcond I
              (fun _ _ _ _ _ _ => I))
    as (st & s'' & live & Hrun' & _ & Hinv' & _ & _ & _ & _ & _ & Hl & _).
  rewrite Hrun in Hrun'. injection Hrun' as <-. split; assumption.
Qed.

Lemma device_reaches_inv s :
  Device.loop_reaches d max_leaf_size keep_singletons codes
    (seed_state context n_codes bits) s ->
  build_inv n_codes max_leaf_size (fun _ _ => True) s.
Proof.
  intros Hr. induction Hr as [|s s' Hr IH Hcond Hrun].
  - apply seed_state_inv; [exact n_pos|exact I].
  - exact (proj1 (device_round_inv s s' IH Hcond Hrun)).
Qed.

Lemma device_reaches_front s s' s'' :
  loop_cond s = true ->
  Device.loop_body d max_leaf_size keep_singletons codes s = Some s' ->
  Device.loop_reaches d max_leaf_size keep_singletons codes s' s'' ->
  Device.loop_reaches d max_leaf_size keep_singletons codes s s''.
Proof.
  intros Hc Hrun Hr. induction Hr as [|t t' Hr IH Hc' Hrun'].
  - apply (Device.reaches_round _ _ _ _ _ s); [apply Device.reaches_seed|
      exact Hc|exact Hrun].
  - apply (Device.reaches_round _ _ _ _ _ t); assumption.
Qed.

(** With fuel for the levels [level s .. 0] the loop returns on the device,
    in a state it reaches and where its condition fails. *)
Lemma device_generate_loop_total fuel :
  forall s,
    build_inv n_codes max_leaf_size (fun _ _ => True) s ->
    level s + 1 <= Z.of_nat fuel ->
    exists s',
      Device.generate_loop d fuel max_leaf_size keep_singletons codes s
      = Some s'
      /\ Device.loop_reaches d max_leaf_size keep_singletons codes s s'
      /\ loop_cond s' = false.
Proof.
  induction fuel as [|fuel IH]; intros s Hinv Hf.
  - cbn [Device.generate_loop].
    assert (Hc : loop_cond s = false).
    { unfold loop_cond. destruct (Z.geb_spec (level s) 0); [lia|].
      apply andb_false_r. }
    rewrite Hc. exists s. repeat split; [apply Device.reaches_seed|exact Hc].
  - cbn [Device.generate_loop]. destruct (loop_cond s) eqn:Hc.
    + destruct (device_round d n_codes max_leaf_size keep_singletons codes
                  device_runs launches_fit s (fun _ => True) Hinv Hc I
                  (fun _ _ _ _ _ _ => I))
        as (st & s1 & live & Hrun & _ & Hinv1 & _ & _ & _ & _ & _ & Hl & _).
      rewrite Hrun.
      destruct (IH s1 Hinv1 ltac:(lia)) as (s' & Hloop & Hr & Hc').
      exists s'. split; [exact Hloop|]. split; [|exact Hc'].
      apply (device_reaches_front s s1 s'); assumption.
    + exists s. repeat split; [apply Device.reaches_seed|exact Hc].
Qed.

(** The leaves written on the device are numbered on from 0 in the order
    the leaf counter was advanced. *)
Lemma device_reaches_leaves_numbered s :
  Device.loop_reaches d max_leaf_size keep_singletons codes
    (seed_state context n_codes bits) s ->
  leaves_numbered (b_tree s) (b_counters s 2).
Proof.
  intros Hr. induction Hr as [|s s' Hr IH Hcond Hrun].
  - split; [cbn; lia|reflexivity].
  - pose proof (device_reaches_inv s Hr) as Hinv.
    destruct (split_entry_fields s (bi_out _ _ _ _ Hinv) (bi_in _ _ _ _ Hinv))
      as (Rt0 & _ & Rl0).
    destruct (device_round d n_codes max_leaf_size keep_singletons codes
                device_runs launches_fit s
                (fun st => leaves_numbered (k_tree st) (k_out_leaf_count st))
                Hinv Hcond)
      as (st & s'' & live & Hrun' & HQ & _ & _ & _ & Rl & Rt & _).
    + rewrite Rt0, Rl0. exact IH.
    + intros k pending st Hk Kinv [Hlc HQ].
      assert (Hn : Z.of_nat (length (leaf_ranges (k_tree st)))
                   = k_out_leaf_count st).
      { rewrite <- leaf_writes_length, HQ, Zrange_length. lia. }
      destruct (split_thread_shape n_codes max_leaf_size keep_singletons codes
                  (b_counters s (in_queue s)) (b_queues s (in_queue s))
                  (n_nodes s) _ _ ltac:(lia) k pending st Hk Kinv)
        as [(_ & Hbe & _ & Hcnt & Hroom) [[_ ->]|[(_ & _ & ->)|(_ & _ & ->)]]];
        cbn [k_tree k_out_leaf_count].
      * rewrite (to_uint32_small (k_out_leaf_count st + 1)) by lia.
        split; [lia|].
        rewrite leaf_writes_app, HQ, Zrange_succ by lia. reflexivity.
      * split; [exact Hlc|].
        rewrite leaf_writes_app. cbn. rewrite app_nil_r. exact HQ.
      * split; [exact Hlc|].
        rewrite leaf_writes_app. cbn. rewrite app_nil_r. exact HQ.
    + rewrite Hrun in Hrun'. injection Hrun' as <-.
      rewrite Rl, Rt. exact HQ.
Qed.

(** [generate] returns on the device: the writes of the loop, then those of
    the finalize path for the tasks pending when the loop ends, visited in
    some order [live]. *)
Lemma device_generate_result :
  max_leaf_size <> 0 ->
  exists s context' live,
    Device.generate d context n_codes codes bits max_leaf_size
      keep_singletons
    = Some (context',
            b_tree s ++
              flat_map
                (Device.leaf_visit_writes (b_queues s (in_queue s))
                   (b_counters s 2))
                (combine (Zrange (Z.to_nat (b_counters s (in_queue s)))) live))
    /\ Device.loop_reaches d max_leaf_size keep_singletons codes
         (seed_state context n_codes bits) s
    /\ loop_cond s = false
    /\ Permutation live (Zrange (Z.to_nat (b_counters s (in_queue s))))
    /\ m_leaves context' = b_counters s 2 + b_counters s (in_queue s)
    /\ m_nodes context' = n_nodes s.
Proof.
  intros Hm. unfold Device.generate.
  destruct (Z.eqb_spec max_leaf_size 0); [contradiction|].
  destruct (device_generate_loop_total
              (Z.to_nat (level (seed_state context n_codes bits) + 1))
              (seed_state context n_codes bits))
    as (s & Hrun & Hr & Hc); [|lia|].
  { apply seed_state_inv; [exact n_pos|exact I]. }
  rewrite Hrun. exists s.
  pose proof (device_reaches_inv s Hr) as Hinv.
  destruct (pending_plus_leaves n_codes max_leaf_size s Hinv) as [Hc0 Hroom].
  destruct (device_reaches_leaves_numbered s Hr) as [Hlc HL].
  assert (Hn : Z.of_nat (length (leaf_ranges (b_tree s))) = b_counters s 2).
  { rewrite <- leaf_writes_length, HL, Zrange_length. lia. }
  destruct (Z.eqb_spec (b_counters s (in_queue s)) 0) as [Hz|Hnz];
    cbn [negb].
  - eexists. exists []. split.
    + rewrite Hz. cbn [Z.to_nat Zrange seq map combine flat_map].
      rewrite app_nil_r. reflexivity.
    + cbn [m_leaves m_nodes]. rewrite Hz.
      repeat split; try assumption; [constructor|lia].
  - destruct device_runs as (_ & Hgb & Hsched).
    destruct (gen_leaves_launch (Device.visit_order d (level s))
                (Device.gen_leaves_blocks d) (b_counters s (in_queue s))
                (b_queues s (in_queue s)) (b_tree s) (b_counters s 2)
                Hgb ltac:(lia) ltac:(lia) (Hsched (level s)) Hlc ltac:(lia))
      as (live & Hlive & Hgen).
    rewrite Hgen. eexists. exists live. split; [reflexivity|].
    cbn [m_leaves m_nodes]. repeat split; assumption.
Qed.

End DeviceLoop.

(** ** What a build on the device writes *)

Section DeviceWrites.

Lemma run_visits_node_writes mls ks codes c q onc live :
  forall st ls,
    (forall task_id, In task_id live -> 0 <= task_id < c) ->
    node_writes
      (k_tree (Device.run_visits (split_thread mls ks codes c q onc) live st))
    = node_writes (k_tree st) ++ map m_node (map q live)
    /\ node_writes
         (fst (Device.run_visits (gen_leaves_thread c q) live ls))
       = node_writes (fst ls) ++ map m_node (map q live).
Proof.
  induction live as [|task_id live IH]; intros st ls Hin.
  - cbn. rewrite !app_nil_r. split; reflexivity.
  - assert (Hid : 0 <= task_id < c) by (apply Hin; left; reflexivity).
    cbn [Device.run_visits fold_left map].
    destruct (IH (split_thread mls ks codes c q onc task_id st)
                (gen_leaves_thread c q task_id ls)) as [IH1 IH2].
    { intros id Hid'. apply Hin. right. exact Hid'. }
    unfold Device.run_visits in IH1, IH2. rewrite IH1, IH2.
    rewrite split_thread_node_write, gen_leaves_thread_node_write by exact Hid.
    rewrite <- !app_assoc. split; reflexivity.
Qed.

End DeviceWrites.

(** ** Launches on the device *)

Section DeviceLaunchFacts.

(** X12: a launch of [split] or of [gen_leaves] over [c > 0] tasks,
    no more than [2^31], ends whatever the number of active blocks and
    the order of its visits, and hands [write_node] the node index of each
    task of the input queue exactly once, and no other node index. *)
Theorem launch_writes_each_task_node
    sched max_blocks max_leaf_size keep_singletons codes in_tasks_count
    in_tasks out_nodes_count st ls :
  1 <= max_blocks -> 0 < in_tasks_count ->
  in_tasks_count <= 2 ^ 31 ->
  (forall ids, Permutation (sched ids) ids) ->
  (exists st',
      Device.split sched max_blocks max_leaf_size keep_singletons codes
        in_tasks_count in_tasks out_nodes_count st = Some st'
      /\ Permutation (node_writes (k_tree st'))
           (node_writes (k_tree st)
              ++ map m_node (queue_list in_tasks in_tasks_count)))
  /\ (exists ls',
         Device.gen_leaves sched max_blocks in_tasks_count in_tasks ls
         = Some ls'
         /\ Permutation (node_writes (fst ls'))
              (node_writes (fst ls)
                 ++ map m_node (queue_list in_tasks in_tasks_count))).
Proof.
  intros Hm Hc Hw Hsched.
  destruct (launch_order sched max_blocks in_tasks_count Hm Hc Hw Hsched)
    as (live & Hlive & Hin & Hsplit & Hgen).
  destruct (run_visits_node_writes max_leaf_size keep_singletons codes
              in_tasks_count in_tasks out_nodes_count live st ls Hin)
    as [H1 H2].
  assert (Hp : Permutation (map m_node (map in_tasks live))
                 (map m_node (queue_list in_tasks in_tasks_count))).
  { rewrite queue_list_Zrange. do 2 apply Permutation_map. exact Hlive. }
  split.
  - eexists. split; [apply Hsplit|]. rewrite H1.
    apply Permutation_app_head. exact Hp.
  - eexists. split; [apply Hgen|]. rewrite H2.
    apply Permutation_app_head. exact Hp.
Qed.

(** X13: the Leaf-Generation Stage over [c > 0] tasks, no more than
    [2^31], the leaf counter standing at [leaf_count] with room for [c]
    more: whatever the order of the visits, the launch ends, leaves the
    counter at [leaf_count + c], and gives the leaf indices
    [leaf_count .. leaf_count + c - 1] to the tasks one each - the task
    visited as the [k]-th gets [leaf_count + k] - writing for each task its
    leaf node and its leaf record under that index, and nothing else. *)
Theorem gen_leaves_numbers_tasks
    sched max_blocks in_tasks_count in_tasks tree leaf_count :
  1 <= max_blocks -> 0 < in_tasks_count ->
  in_tasks_count <= 2 ^ 31 ->
  (forall ids, Permutation (sched ids) ids) ->
  0 <= leaf_count -> leaf_count + in_tasks_count < 2 ^ 32 ->
  exists live written,
    Permutation live (Zrange (Z.to_nat in_tasks_count))
    /\ Device.gen_leaves sched max_blocks in_tasks_count in_tasks
         (tree, leaf_count)
       = Some (tree ++ written, leaf_count + in_tasks_count)
    /\ Permutation written
         (flat_map (Device.leaf_visit_writes in_tasks leaf_count)
            (combine (Zrange (Z.to_nat in_tasks_count)) live)).
Proof.
  intros Hm Hc Hw Hsched Hlc Hroom.
  destruct (gen_leaves_launch sched max_blocks in_tasks_count in_tasks tree
              leaf_count Hm Hc Hw Hsched Hlc Hroom)
    as (live & Hlive & Hrun).
  exists live. eexists. split; [exact Hlive|]. split; [exact Hrun|].
  apply Permutation_refl.
Qed.

(** A launch over [2^32 - 127] tasks or more has no block: the sum
    [in_tasks_count + BLOCK_SIZE - 1] wraps before the division. *)
Lemma launch_blocks_wrap max_blocks c :
  0 <= max_blocks -> 2 ^ 32 - 127 <= c < 2 ^ 32 ->
  launch_blocks max_blocks c = 0.
Proof.
  intros Hm Hc. unfold launch_blocks, BLOCK_SIZE, to_uint32.
  assert (E : (c + 128 - 1) mod 2 ^ 32 = c + 127 - 2 ^ 32).
  { symmetry. apply (Z.mod_unique _ _ 1); [left; lia|lia]. }
  rewrite E. rewrite Z.div_small by lia. lia.
Qed.

Lemma gen_leaves_no_block sched max_blocks c q ls :
  (forall ids, Permutation (sched ids) ids) ->
  launch_blocks max_blocks c = 0 ->
  Device.gen_leaves sched max_blocks c q ls = Some ls.
Proof.
  intros Hsched Hb. unfold Device.gen_leaves, Device.launch_tasks.
  rewrite Hb. cbn [Z.to_nat Zrange seq map Device.grid_tasks option_map].
  rewrite (Permutation_nil (Permutation_sym (Hsched []))). reflexivity.
Qed.

(** X22: a launch of [gen_leaves] over [2^32 - 127] tasks or more computes
    its block count from [in_tasks_count + BLOCK_SIZE - 1] wrapped to 32
    bits, gets 0 blocks, and writes no leaf and no node for any of the
    tasks, leaving the tree and the leaf counter as they were; a build whose
    loop ends with that many tasks pending returns the writes of the loop
    alone and reports the leaf count of the loop. *)
Theorem gen_leaves_drops_tasks_near_wrap
    sched max_blocks in_tasks_count in_tasks ls :
  0 <= max_blocks ->
  2 ^ 32 - 127 <= in_tasks_count < 2 ^ 32 ->
  (forall ids, Permutation (sched ids) ids) ->
  launch_blocks max_blocks in_tasks_count = 0
  /\ Device.gen_leaves sched max_blocks in_tasks_count in_tasks ls = Some ls
  /\ forall d context n_codes codes bits max_leaf_size keep_singletons s,
       Device.runtime_ok d -> max_leaf_size <> 0 ->
       Device.generate_loop d
         (Z.to_nat (level (seed_state context n_codes bits) + 1))
         max_leaf_size keep_singletons codes
         (seed_state context n_codes bits) = Some s ->
       b_counters s (in_queue s) = in_tasks_count ->
       exists context',
         Device.generate d context n_codes codes bits max_leaf_size
           keep_singletons = Some (context', b_tree s)
         /\ m_leaves context' = b_counters s 2.
Proof.
  intros Hm Hc Hsched.
  pose proof (launch_blocks_wrap max_blocks in_tasks_count Hm Hc) as Hb.
  split; [exact Hb|]. split; [apply gen_leaves_no_block; assumption|].
  intros d context n_codes codes bits mls ks s (_ & Hgb & Hd) Hmls Hloop Hcnt.
  unfold Device.generate.
  destruct (Z.eqb_spec mls 0); [contradiction|].
  rewrite Hloop, Hcnt.
  destruct (Z.eqb_spec in_tasks_count 0); [lia|]. cbn [negb].
  rewrite gen_leaves_no_block;
    [|apply Hd|apply launch_blocks_wrap; [lia|exact Hc]].
  eexists. split; reflexivity.
Qed.

End DeviceLaunchFacts.

(** ** A build whose finalize launch wraps *)

Section NearWrap.











Variables (d : Device.runtime) (n : Z).

Hypothesis device_runs : Device.runtime_ok d.
Hypothesis n_pos : 0 < n.
Hypothesis n_word : n < 2 ^ 32.






End NearWrap.

(** ** Builds on the device *)

Section DeviceClaims.

Variables (d : Device.runtime) (context : Bintree_gen_context).
Variables (n_codes : Z) (codes : list Z) (bits max_leaf_size : Z).
Variable keep_singletons : bool.

Hypothesis device_runs : Device.runtime_ok d.
Hypothesis n_pos : 0 < n_codes.
Hypothesis launches_fit : n_codes <= 2 ^ 31.
Hypothesis leaf_size : 1 <= max_leaf_size.

(** [generate] returns on the device; the leaves it wrote are those of the
    loop, then one for each task pending when the loop ends. *)
Lemma device_generate_leaves :
  exists s context' ops finalized,
    Device.generate d context n_codes codes bits max_leaf_size
      keep_singletons = Some (context', ops)
    /\ Device.loop_reaches d max_leaf_size keep_singletons codes
         (seed_state context n_codes bits) s
    /\ loop_cond s = false
    /\ leaf_ranges ops = leaf_ranges (b_tree s) ++ finalized
    /\ Permutation finalized (map task_range (in_tasks_of s)).
Proof.
  destruct (device_generate_result d context n_codes codes bits
              max_leaf_size keep_singletons device_runs n_pos launches_fit
              ltac:(lia))
    as (s & context' & live & Hgen & Hr & Hc & Hlive & _).
  exists s, context'. eexists. eexists. split; [exact Hgen|].
  split; [exact Hr|]. split; [exact Hc|].
  rewrite leaf_ranges_app, leaf_ranges_leaf_visits. split; [reflexivity|].
  pose proof (Permutation_length Hlive) as Hlen.
  rewrite Zrange_length in Hlen.
  rewrite (map_combine_snd
             (fun k => task_range (b_queues s (in_queue s) k)))
    by (rewrite Zrange_length; lia).
  unfold in_tasks_of. rewrite queue_list_Zrange, map_map.
  apply Permutation_map. exact Hlive.
Qed.


(** X15: a build on the device over [n > 0] keys, [n <= 2^31],
    numbers its leaves densely whatever the orders of the visits: the leaf
    indices handed to [write_leaf] are [0 .. m_leaves - 1], each once; the
    leaf count it reports is the number of leaves written, at least 1 and
    at most [n]. *)
Theorem leaf_indices_each_once :
  exists context' ops,
    Device.generate d context n_codes codes bits max_leaf_size
      keep_singletons = Some (context', ops)
    /\ Permutation (leaf_writes ops) (Zrange (Z.to_nat (m_leaves context')))
    /\ m_leaves context' = Z.of_nat (length (leaf_ranges ops))
    /\ 1 <= m_leaves context' <= n_codes.
Proof.
  destruct (device_generate_result d context n_codes codes bits
              max_leaf_size keep_singletons device_runs n_pos launches_fit
              ltac:(lia))
    as (s & context' & live & Hgen & Hr & _ & Hlive & Hleaves & _).
  pose proof (device_reaches_inv d context n_codes codes bits max_leaf_size
                keep_singletons device_runs n_pos launches_fit s Hr) as Hinv.
  destruct (pending_plus_leaves n_codes max_leaf_size s Hinv) as [Hc0 Hroom].
  destruct (device_reaches_leaves_numbered d context n_codes codes bits
              max_leaf_size keep_singletons device_runs n_pos launches_fit
              s Hr) as [Hlc HL].
  assert (Hn : Z.of_nat (length (leaf_ranges (b_tree s))) = b_counters s 2).
  { rewrite <- leaf_writes_length, HL, Zrange_length. lia. }
  pose proof (Permutation_length Hlive) as Hlen.
  rewrite Zrange_length in Hlen.
  eexists. eexists. split; [exact Hgen|].
  match goal with
  | |- Permutation (leaf_writes ?o) _ /\ _ =>
      assert (Hw : leaf_writes o = Zrange (Z.to_nat (m_leaves context')))
  end.
  { rewrite leaf_writes_app, leaf_writes_leaf_visits, HL, Hleaves.
    rewrite (map_combine_fst (fun k => b_counters s 2 + k))
      by (rewrite Zrange_length; lia).
    rewrite Zrange_add_Z by lia. reflexivity. }
  split; [rewrite Hw; apply Permutation_refl|]. split.
  - rewrite <- leaf_writes_length, Hw, Zrange_length. lia.
  - split; [|lia].
    destruct (Z_lt_ge_dec 0 (m_leaves context')); [lia|].
    exfalso. pose proof (bi_size _ _ _ _ Hinv) as Hsz.
    assert (Hc : b_counters s (in_queue s) = 0) by lia.
    assert (Hl : leaf_ranges (b_tree s) = []).
    { apply length_zero_iff_nil. lia. }
    unfold in_tasks_of in Hsz. rewrite Hc, Hl in Hsz. cbn in Hsz. lia.
Qed.

End DeviceClaims.

(** ** Builds of any size with keys of at most 32 bits *)

Section DeviceWide.

Variables (d : Device.runtime) (context : Bintree_gen_context).
Variables (n_codes : Z) (codes : list Z) (bits max_leaf_size : Z).
Variable keep_singletons : bool.

Hypothesis device_runs : Device.runtime_ok d.
Hypothesis n_pos : 0 < n_codes.
Hypothesis n_word : n_codes < 2 ^ 32.
Hypothesis bits_range : 0 <= bits <= 32.

(** A round over no more than [2^31] tasks: the launch is exact, and the
    round leaves no more than twice the tasks. *)
Lemma wide_round s :
  build_inv n_codes max_leaf_size (fun _ _ => True) s ->
  b_counters s (in_queue s) <= 2 ^ 31 ->
  loop_cond s = true ->
  exists s',
    Device.loop_body d max_leaf_size keep_singletons codes s = Some s'
    /\ build_inv n_codes max_leaf_size (fun _ _ => True) s'
    /\ level s' = level s - 1
    /\ b_counters s' (in_queue s') <= 2 * b_counters s (in_queue s).
Proof.
  intros Hinv Hfit Hcond.
  destruct (split_entry_fields s (bi_out _ _ _ _ Hinv) (bi_in _ _ _ _ Hinv))
    as (_ & Rc0 & _).
  destruct (device_round_counted d n_codes max_leaf_size keep_singletons
              codes device_runs n_word s
              (fun k st => k_out_tasks_count st <= 2 * k)
              Hinv Hcond Hfit)
    as (st & s' & live & Hrun & HQ & Hinv' & Rc & _ & _ & _ & _ & Rl & _).
  - rewrite Rc0. lia.
  - intros task_id pending st k Hid Hk Kinv HQ.
    destruct (split_thread_shape n_codes max_leaf_size keep_singletons codes
                (b_counters s (in_queue s)) (b_queues s (in_queue s))
                (n_nodes s) _ _ n_word task_id pending st Hid Kinv)
      as [_ [[_ ->]|[(_ & _ & ->)|(_ & _ & ->)]]];
      cbn [k_out_tasks_count]; lia.
  - exists s'. split; [exact Hrun|]. split; [exact Hinv'|].
    split; [exact Rl|]. rewrite Rc. exact HQ.
Qed.

(** At level [g >= 0] a queue of no more than [2^(31 - g)] tasks has no
    more than [2^31], and twice as many are no more than
    [2^(31 - (g - 1))]. *)
Lemma level_room g c c' :
  0 <= g <= 31 -> c <= 2 ^ (31 - g) -> c' <= 2 * c ->
  c <= 2 ^ 31 /\ c' <= 2 ^ (31 - (g - 1)).
Proof.
  intros Hg Hc Hc'. split.
  - etransitivity; [exact Hc|]. apply Z.pow_le_mono_r; lia.
  - replace (31 - (g - 1)) with (31 - g + 1) by lia.
    rewrite Z.pow_add_r by lia. change (2 ^ 1) with 2. lia.
Qed.

Lemma loop_cond_level_nonneg s : loop_cond s = true -> 0 <= level s.
Proof.
  unfold loop_cond. intros Hcond. apply andb_prop in Hcond.
  destruct Hcond as [_ Hcond].
  destruct (Z.geb_spec (level s) 0); [lia|discriminate].
Qed.

Lemma wide_seed :
  level (seed_state context n_codes bits) <= 31
  /\ b_counters (seed_state context n_codes bits)
       (in_queue (seed_state context n_codes bits))
     <= 2 ^ (31 - level (seed_state context n_codes bits)).
Proof.
  cbn [seed_state level in_queue b_counters].
  rewrite to_int32_small by lia. split; [lia|].
  rewrite set_counter_other, set_counter_other, set_counter_same by lia.
  assert (0 < 2 ^ (31 - (bits - 1))) by (apply Z.pow_pos_nonneg; lia). lia.
Qed.

(** Every state the loop reaches on the device holds the invariant of the
    build, with a queue that the launch of the next round runs exactly. *)
Lemma wide_reaches_inv s :
  Device.loop_reaches d max_leaf_size keep_singletons codes
    (seed_state context n_codes bits) s ->
  build_inv n_codes max_leaf_size (fun _ _ => True) s
  /\ level s <= 31
  /\ b_counters s (in_queue s) <= 2 ^ (31 - level s).
Proof.
  intros Hr. induction Hr as [|s s' Hr (Hinv & Hlvl & Hcnt) Hcond Hrun].
  - split; [apply seed_state_inv; [exact n_pos|exact I]|exact wide_seed].
  - pose proof (loop_cond_level_nonneg s Hcond) as Hg.
    destruct (wide_round s Hinv) as (s'' & Hrun' & Hinv' & Hl & Hc);
      [|exact Hcond|].
    { exact (proj1 (level_room (level s) _ _ ltac:(lia) Hcnt
                      (Z.le_refl _))). }
    rewrite Hrun in Hrun'. injection Hrun' as <-.
    split; [exact Hinv'|]. split; [lia|]. rewrite Hl.
    exact (proj2 (level_room (level s) _ _ ltac:(lia) Hcnt Hc)).
Qed.

(** With fuel for the levels [level s .. 0] the loop returns. *)
Lemma wide_loop_total fuel :
  forall s,
    build_inv n_codes max_leaf_size (fun _ _ => True) s ->
    level s <= 31 ->
    b_counters s (in_queue s) <= 2 ^ (31 - level s) ->
    level s + 1 <= Z.of_nat fuel ->
    exists s',
      Device.generate_loop d fuel max_leaf_size keep_singletons codes s
      = Some s'
      /\ Device.loop_reaches d max_leaf_size keep_singletons codes s s'
      /\ loop_cond s' = false.
Proof.
  induction fuel as [|fuel IH]; intros s Hinv Hlvl Hcnt Hf.
  - cbn [Device.generate_loop].
    assert (Hc : loop_cond s = false).
    { unfold loop_cond. destruct (Z.geb_spec (level s) 0); [lia|].
      apply andb_false_r. }
    rewrite Hc. exists s.
    split; [reflexivity|]. split; [apply Device.reaches_seed|exact Hc].
  - cbn [Device.generate_loop]. destruct (loop_cond s) eqn:Hc.
    + pose proof (loop_cond_level_nonneg s Hc) as Hg.
      destruct (wide_round s Hinv) as (s1 & Hrun & Hinv1 & Hl & Hc1);
        [|exact Hc|].
      { exact (proj1 (level_room (level s) _ _ ltac:(lia) Hcnt
                        (Z.le_refl _))). }
      rewrite Hrun.
      destruct (IH s1 Hinv1) as (s' & Hloop & Hr & Hc'); [lia| |lia|].
      { rewrite Hl.
        exact (proj2 (level_room (level s) _ _ ltac:(lia) Hcnt Hc1)). }
      exists s'. split; [exact Hloop|]. split; [|exact Hc'].
      apply (device_reaches_front d codes max_leaf_size keep_singletons
               s s1 s'); assumption.
    + exists s.
      split; [reflexivity|]. split; [apply Device.reaches_seed|exact Hc].
Qed.

End DeviceWide.

Section FinalizeWithin.

Lemma block_tasks_nonneg base x : In x (Device.block_tasks base) -> 0 <= x.
Proof.
  unfold Device.block_tasks. rewrite in_map_iff.
  intros (thread & <- & _). apply to_uint32_range.
Qed.

Lemma grid_tasks_nonneg grid_size c blocks :
  forall ids,
    Device.grid_tasks grid_size c blocks = Some ids ->
    forall x, In x ids -> 0 <= x.
Proof.
  induction blocks as [|block blocks IH]; intros ids Hids x Hx;
    cbn [Device.grid_tasks] in Hids.
  - injection Hids as <-. destruct Hx.
  - destruct (block_bases _ _ _ _) as [bases|]; [|discriminate].
    destruct (Device.grid_tasks grid_size c blocks) as [rest|];
      [|discriminate].
    cbn [option_map] in Hids. injection Hids as <-.
    apply in_app_or in Hx. destruct Hx as [Hx|Hx].
    + apply in_flat_map in Hx. destruct Hx as (base & _ & Hx).
      exact (block_tasks_nonneg base x Hx).
    + exact (IH rest eq_refl x Hx).
Qed.

(** Whatever task ids the threads of [gen_leaves_kernel] visit, and however
    often, a leaf they write is the range of a task of the queue. *)
Lemma gen_leaves_visits_within c q order :
  forall ls,
    (forall task_id, In task_id order -> 0 <= task_id) ->
    exists written,
      leaf_ranges (fst (Device.run_visits (gen_leaves_thread c q) order ls))
      = leaf_ranges (fst ls) ++ written
      /\ forall r, In r written -> In r (map task_range (queue_list q c)).
Proof.
  induction order as [|task_id order IH]; intros ls Hin.
  - exists []. rewrite app_nil_r. split; [reflexivity|]. intros r [].
  - cbn [Device.run_visits fold_left].
    destruct (IH (gen_leaves_thread c q task_id ls)) as (written & Hw & Hsub).
    { intros id Hid. apply Hin. right. exact Hid. }
    unfold Device.run_visits in Hw. rewrite Hw.
    unfold gen_leaves_thread. destruct (Z.ltb_spec task_id c) as [Hlt|Hge].
    + cbn [alloc1 fst snd]. rewrite leaf_ranges_app.
      cbn [leaf_ranges flat_map app]. rewrite <- app_assoc. cbn [app].
      eexists. split; [reflexivity|].
      intros r [<-|Hr]; [|apply Hsub; exact Hr].
      apply in_map_iff. exists (q task_id). split; [reflexivity|].
      rewrite queue_list_Zrange. apply in_map. apply Zrange_mem.
      specialize (Hin task_id (or_introl eq_refl)). lia.
    + exists written. split; [reflexivity|exact Hsub].
Qed.

(** A launch of [gen_leaves] that returns has written leaves for tasks of
    its queue only. *)
Lemma gen_leaves_within sched max_blocks c q ls ls' :
  (forall ids, Permutation (sched ids) ids) ->
  Device.gen_leaves sched max_blocks c q ls = Some ls' ->
  exists written,
    leaf_ranges (fst ls') = leaf_ranges (fst ls) ++ written
    /\ forall r, In r written -> In r (map task_range (queue_list q c)).
Proof.
  intros Hsched Hrun. unfold Device.gen_leaves in Hrun.
  destruct (Device.launch_tasks max_blocks c) as [ids|] eqn:Hids;
    [|discriminate].
  cbn [option_map] in Hrun. injection Hrun as <-.
  apply gen_leaves_visits_within.
  intros id Hid. apply (Permutation_in _ (Hsched ids)) in Hid.
  exact (grid_tasks_nonneg _ _ _ ids Hids id Hid).
Qed.

End FinalizeWithin.

Section DeviceWideClaims.

Variables (d : Device.runtime) (context : Bintree_gen_context).
Variables (n_codes : Z) (codes : list Z) (bits max_leaf_size : Z).
Variable keep_singletons : bool.

Hypothesis device_runs : Device.runtime_ok d.
Hypothesis n_pos : 0 < n_codes.
Hypothesis n_word : n_codes < 2 ^ 32.
Hypothesis bits_range : 0 <= bits <= 32.
Hypothesis leaf_size : 1 <= max_leaf_size.

Lemma loop_exit_levels s :
  loop_cond s = false -> in_tasks_of s <> [] -> level s < 0.
Proof.
  intros Hc Hne. unfold loop_cond in Hc.
  destruct (Z.eqb_spec (b_counters s (in_queue s)) 0) as [Hz|Hnz].
  - exfalso. apply Hne. unfold in_tasks_of. rewrite Hz. reflexivity.
  - cbn [negb andb] in Hc.
    destruct (Z.geb_spec (level s) 0); [discriminate|lia].
Qed.

(** What [generate] returns, when it returns: the leaves of the loop, then
    leaves of the finalize path, each the range of a task pending when the
    loop ended. *)
Lemma wide_generate_leaves context' ops :
  Device.generate d context n_codes codes bits max_leaf_size keep_singletons
  = Some (context', ops) ->
  exists s finalized,
    Device.loop_reaches d max_leaf_size keep_singletons codes
      (seed_state context n_codes bits) s
    /\ loop_cond s = false
    /\ leaf_ranges ops = leaf_ranges (b_tree s) ++ finalized
    /\ forall r, In r finalized -> In r (map task_range (in_tasks_of s)).
Proof.
  unfold Device.generate.
  destruct (Z.eqb_spec max_leaf_size 0); [lia|].
  destruct (wide_seed context n_codes bits bits_range) as [Hl0 Hc0].
  destruct (wide_loop_total d n_codes codes max_leaf_size keep_singletons
              device_runs n_word
              (Z.to_nat (level (seed_state context n_codes bits) + 1))
              (seed_state context n_codes bits))
    as (s & Hrun & Hr & Hc); [|exact Hl0|exact Hc0|lia|].
  { apply seed_state_inv; [exact n_pos|exact I]. }
  cbn zeta. rewrite Hrun.
  destruct (Z.eqb_spec (b_counters s (in_queue s)) 0) as [Hz|Hnz];
    cbn [negb].
  - intros H. injection H as _ <-. exists s, [].
    split; [exact Hr|]. split; [exact Hc|]. rewrite app_nil_r.
    split; [reflexivity|]. intros r [].
  - destruct (Device.gen_leaves _ _ _ _ _) as [[tree leaves]|] eqn:Hgen;
      [|discriminate].
    intros H. injection H as _ <-.
    destruct device_runs as (_ & _ & Hsched).
    destruct (gen_leaves_within _ _ _ _ _ _ (Hsched (level s)) Hgen)
      as (written & Hw & Hsub).
    exists s, written. split; [exact Hr|]. split; [exact Hc|].
    split; [exact Hw|exact Hsub].
Qed.

(** X24: in a build over [n < 2^32] keys of at most 32 bits the launches
    of [split] never wrap.  Every state the loop reaches at level [g] has
    no more than [2^(31 - g)] tasks pending, and pending tasks and leaves
    together are no more than [n]; a round that runs has no more than
    [2^31] tasks, its launch returns whatever the order of the visits, and
    it leaves no more than twice the tasks one level down.  The loop of
    [generate] returns. *)
Theorem split_launches_fit :
  (forall s,
      Device.loop_reaches d max_leaf_size keep_singletons codes
        (seed_state context n_codes bits) s ->
      level s <= 31
      /\ 0 <= b_counters s (in_queue s) <= 2 ^ (31 - level s)
      /\ b_counters s (in_queue s)
         + Z.of_nat (length (leaf_ranges (b_tree s))) <= n_codes
      /\ (loop_cond s = true ->
          b_counters s (in_queue s) <= 2 ^ 31
          /\ exists s',
               Device.loop_body d max_leaf_size keep_singletons codes s
               = Some s'
               /\ level s' = level s - 1
               /\ b_counters s' (in_queue s')
                  <= 2 * b_counters s (in_queue s)))
  /\ exists s,
       Device.generate_loop d
         (Z.to_nat (level (seed_state context n_codes bits) + 1))
         max_leaf_size keep_singletons codes
         (seed_state context n_codes bits) = Some s
       /\ Device.loop_reaches d max_leaf_size keep_singletons codes
            (seed_state context n_codes bits) s
       /\ loop_cond s = false.
Proof.
  split.
  - intros s Hs.
    destruct (wide_reaches_inv d context n_codes codes bits max_leaf_size
                keep_singletons device_runs n_pos n_word bits_range s Hs)
      as (Hinv & Hlvl & Hcnt).
    destruct (pending_plus_leaves n_codes max_leaf_size s Hinv)
      as [Hc0 Hroom].
    split; [exact Hlvl|]. split; [lia|]. split; [exact Hroom|].
    intros Hcond.
    pose proof (loop_cond_level_nonneg s Hcond) as Hg.
    pose proof (proj1 (level_room (level s) _ _ ltac:(lia) Hcnt
                         (Z.le_refl _))) as Hfit.
    split; [exact Hfit|].
    destruct (wide_round d n_codes codes max_leaf_size keep_singletons
                device_runs n_word s Hinv Hfit Hcond)
      as (s' & Hrun & _ & Hl & Hc).
    exists s'. split; [exact Hrun|]. split; [exact Hl|exact Hc].
  - destruct (wide_seed context n_codes bits bits_range) as [Hl0 Hc0].
    apply (wide_loop_total d n_codes codes max_leaf_size keep_singletons
             device_runs n_word); [|exact Hl0|exact Hc0|lia].
    apply seed_state_inv; [exact n_pos|exact I].
Qed.

(** C8: in a build over [n < 2^32] keys of at most 32 bits, run by the
    device in any order: every leaf written while the loop runs - that is,
    by the Split Stage - has [end - begin <= max_leaf_size]; the leaves
    [generate] returns beyond those are leaves of the finalize path, each
    the range of a task pending when the loop ended, of whatever size, and
    tasks are pending then only when the bit levels are exhausted.  For
    [n <= 2^31] the build returns, with one finalize leaf for each
    pending task. *)
Theorem split_stage_leaves_bounded :
  (forall s,
      Device.loop_reaches d max_leaf_size keep_singletons codes
        (seed_state context n_codes bits) s ->
      forall b e, In (b, e) (leaf_ranges (b_tree s)) ->
                  e - b <= max_leaf_size)
  /\ (forall context' ops,
         Device.generate d context n_codes codes bits max_leaf_size
           keep_singletons = Some (context', ops) ->
         exists s finalized,
           Device.loop_reaches d max_leaf_size keep_singletons codes
             (seed_state context n_codes bits) s
           /\ loop_cond s = false
           /\ (in_tasks_of s <> [] -> level s < 0)
           /\ leaf_ranges ops = leaf_ranges (b_tree s) ++ finalized
           /\ forall r, In r finalized ->
                        In r (map task_range (in_tasks_of s)))
  /\ (n_codes <= 2 ^ 31 ->
      exists s context' ops finalized,
        Device.generate d context n_codes codes bits max_leaf_size
          keep_singletons = Some (context', ops)
        /\ Device.loop_reaches d max_leaf_size keep_singletons codes
             (seed_state context n_codes bits) s
        /\ loop_cond s = false
        /\ (in_tasks_of s <> [] -> level s < 0)
        /\ leaf_ranges ops = leaf_ranges (b_tree s) ++ finalized
        /\ Permutation finalized (map task_range (in_tasks_of s))).
Proof.
  split; [|split].
  - intros s Hs b e Hin.
    destruct (wide_reaches_inv d context n_codes codes bits max_leaf_size
                keep_singletons device_runs n_pos n_word bits_range s Hs)
      as [[_ _ _ _ Hl _ _] _].
    rewrite Forall_forall in Hl. destruct (Hl _ Hin) as [_ H]. exact H.
  - intros context' ops Hgen.
    destruct (wide_generate_leaves context' ops Hgen)
      as (s & fin & Hr & Hc & Hops & Hsub).
    exists s, fin. split; [exact Hr|]. split; [exact Hc|].
    split; [exact (loop_exit_levels s Hc)|]. split; [exact Hops|exact Hsub].
  - intros Hfit.
    destruct (device_generate_leaves d context n_codes codes bits
                max_leaf_size keep_singletons device_runs n_pos Hfit
                leaf_size)
      as (s & context' & ops & fin & Hgen & Hr & Hc & Hops & Hfin).
    exists s, context', ops, fin. split; [exact Hgen|]. split; [exact Hr|].
    split; [exact Hc|]. split; [exact (loop_exit_levels s Hc)|].
    split; [exact Hops|exact Hfin].
Qed.

End DeviceWideClaims.

(** ** Node indices on the device *)

Section DeviceNodes.

Variables (d : Device.runtime) (context : Bintree_gen_context).
Variables (n_codes : Z) (codes : list Z) (bits max_leaf_size : Z).
Variable keep_singletons : bool.

Hypothesis device_runs : Device.runtime_ok d.
Hypothesis n_pos : 0 < n_codes.
Hypothesis launches_fit : n_codes <= 2 ^ 31.

(** A round numbers the tasks it emits from [n_nodes] on, by output slot,
    and writes the nodes of the tasks it was given. *)
Lemma device_round_nodes_counted s s' :
  build_inv n_codes max_leaf_size (fun _ _ => True) s ->
  loop_cond s = true ->
  Device.nodes_counted s -> 1 <= n_nodes s -> n_nodes s + n_codes < 2 ^ 32 ->
  Device.loop_body d max_leaf_size keep_singletons codes s = Some s' ->
  Device.nodes_counted s'
  /\ n_nodes s <= n_nodes s' <= n_nodes s + n_codes.
Proof.
  intros Hinv Hcond (Hbase & Hnodes & Hslots) Hn1 Hfit Hrun.
  destruct (split_entry_fields s (bi_out _ _ _ _ Hinv) (bi_in _ _ _ _ Hinv))
    as (Rt0 & Rc0 & _).
  destruct (pending_plus_leaves n_codes max_leaf_size s Hinv) as [Hc0 _].
  destruct (device_round d n_codes max_leaf_size keep_singletons codes
              device_runs launches_fit s
              (fun st => forall i, 0 <= i < k_out_tasks_count st ->
                   m_node (k_out_tasks st i) = to_uint32 (n_nodes s + i))
              Hinv Hcond)
    as (st & s'' & live & Hrun' & HQ & Hinv' & Rc & Rq & _ & Rt & Rn & _
        & Hlive & Hlin & Hst).
  - rewrite Rc0. intros i Hi. lia.
  - intros k pending st Hk Kinv HQ.
    destruct (split_thread_shape n_codes max_leaf_size keep_singletons
                codes (b_counters s (in_queue s)) (b_queues s (in_queue s))
                (n_nodes s) _ _ ltac:(lia) k pending st Hk Kinv)
      as [_ [[_ ->]|[(_ & _ & ->)|(_ & _ & ->)]]];
      cbn [k_out_tasks_count k_out_tasks]; intros i Hi.
    + apply HQ. exact Hi.
    + unfold store. destruct (Z.eqb_spec i (k_out_tasks_count st)) as [->|].
      * cbn [m_node]. rewrite Z.add_0_r. reflexivity.
      * apply HQ. lia.
    + unfold store.
      destruct (Z.eqb_spec i (k_out_tasks_count st + 1)) as [->|].
      * cbn [m_node]. f_equal. lia.
      * destruct (Z.eqb_spec i (k_out_tasks_count st)) as [->|].
        -- cbn [m_node]. rewrite Z.add_0_r. reflexivity.
        -- apply HQ. lia.
  - rewrite Hrun in Hrun'. injection Hrun' as <-.
    destruct (pending_plus_leaves n_codes max_leaf_size s' Hinv')
      as [Hc0' Hroom'].
    assert (Hn' : n_nodes s' = n_nodes s + b_counters s' (in_queue s')).
    { rewrite Rn, Rc. apply to_uint32_small. rewrite Rc in *. lia. }
    split; [|lia].
    unfold Device.nodes_counted. cbn zeta.
    replace (n_nodes s' - b_counters s' (in_queue s')) with (n_nodes s)
      by lia.
    split; [lia|]. split.
    + rewrite Rt, Hst.
      rewrite (proj1 (run_visits_node_writes max_leaf_size keep_singletons
                        codes (b_counters s (in_queue s))
                        (b_queues s (in_queue s)) (n_nodes s) live
                        (split_entry s) ([], 0) Hlin)).
      rewrite Rt0.
      assert (E : Zrange (Z.to_nat (n_nodes s))
                  = Zrange (Z.to_nat (n_nodes s - b_counters s (in_queue s)))
                    ++ map (fun j => n_nodes s - b_counters s (in_queue s) + j)
                         (Zrange (Z.to_nat (b_counters s (in_queue s))))).
      { rewrite <- Zrange_add_Z by lia. do 2 f_equal. lia. }
      rewrite E. apply Permutation_app; [exact Hnodes|].
      rewrite map_map.
      rewrite (Permutation_map
                 (fun j => m_node (b_queues s (in_queue s) j)) Hlive).
      rewrite (map_ext_in
                 (fun j => m_node (b_queues s (in_queue s) j))
                 (fun j => n_nodes s - b_counters s (in_queue s) + j)).
      * apply Permutation_refl.
      * intros j Hj. apply Zrange_mem in Hj. apply Hslots. lia.
    + intros j Hj. rewrite Rq. rewrite Rc in Hj.
      rewrite (HQ j Hj). apply to_uint32_small. rewrite Rc in *. lia.
Qed.

Hypothesis bits_range : 0 <= bits <= 32.
Hypothesis nodes_fit : 1 + bits * n_codes < 2 ^ 32.

Lemma seed_state_level : level (seed_state context n_codes bits) = bits - 1.
Proof. cbn [seed_state level]. apply to_int32_small. lia. Qed.

(** Along a build on the device the nodes stay counted, and each round adds
    at most [n] of them. *)
Lemma device_reaches_nodes_counted s :
  Device.loop_reaches d max_leaf_size keep_singletons codes
    (seed_state context n_codes bits) s ->
  Device.nodes_counted s /\ 1 <= n_nodes s
  /\ n_nodes s <= 1 + (bits - 1 - level s) * n_codes
  /\ -1 <= level s <= bits - 1.
Proof.
  intros Hr. induction Hr as [|s s' Hr IH Hcond Hrun].
  - rewrite seed_state_level.
    assert (Hc : b_counters (seed_state context n_codes bits)
                   (in_queue (seed_state context n_codes bits)) = 1)
      by reflexivity.
    assert (Hn : n_nodes (seed_state context n_codes bits) = 1)
      by reflexivity.
    unfold Device.nodes_counted. cbn zeta. rewrite Hc, Hn.
    split; [|lia]. split; [lia|]. split; [apply Permutation_refl|].
    intros j Hj. assert (j = 0) as -> by lia. reflexivity.
  - destruct IH as (HN & H1 & Hb & Hl).
    pose proof (device_reaches_inv d context n_codes codes bits max_leaf_size
                  keep_singletons device_runs n_pos launches_fit s Hr)
      as Hinv.
    pose proof (loop_cond_level s Hcond) as Hg.
    assert (Hfit : n_nodes s + n_codes < 2 ^ 32) by nia.
    destruct (device_round_nodes_counted s s' Hinv Hcond HN H1 Hfit Hrun)
      as [HN' Hn'].
    destruct (device_round_inv d n_codes codes max_leaf_size keep_singletons
                device_runs launches_fit s s' Hinv Hcond Hrun) as [_ Hl'].
    split; [exact HN'|]. split; [lia|]. rewrite Hl'. split; [nia|lia].
Qed.

(** X16: a build on the device over [n > 0] keys of at most 32 bits, with
    [n <= 2^31] and [1 + bits * n] below [2^32], numbers its nodes densely
    whatever the orders of the visits: the node indices handed to
    [write_node] are [0 .. m_nodes - 1], each once, and the node count it
    reports is the number of nodes written. *)
Theorem node_indices_each_once :
  1 <= max_leaf_size ->
  exists context' ops,
    Device.generate d context n_codes codes bits max_leaf_size
      keep_singletons = Some (context', ops)
    /\ Permutation (node_writes ops) (Zrange (Z.to_nat (m_nodes context')))
    /\ m_nodes context' = Z.of_nat (length (node_writes ops))
    /\ 1 <= m_nodes context' <= 1 + bits * n_codes.
Proof.
  intros Hm.
  destruct (device_generate_result d context n_codes codes bits
              max_leaf_size keep_singletons device_runs n_pos launches_fit
              ltac:(lia))
    as (s & context' & live & Hgen & Hr & _ & Hlive & _ & Hnodes).
  pose proof (device_reaches_inv d context n_codes codes bits max_leaf_size
                keep_singletons device_runs n_pos launches_fit s Hr) as Hinv.
  destruct (pending_plus_leaves n_codes max_leaf_size s Hinv) as [Hc0 _].
  destruct (device_reaches_nodes_counted s Hr)
    as ((Hbase & HN & Hslots) & H1 & Hb & Hl).
  pose proof (Permutation_length Hlive) as Hlen.
  rewrite Zrange_length in Hlen.
  eexists. eexists. split; [exact Hgen|].
  match goal with
  | |- Permutation (node_writes ?o) _ /\ _ =>
      assert (Hw : Permutation (node_writes o)
                     (Zrange (Z.to_nat (m_nodes context'))))
  end.
  { rewrite node_writes_app, node_writes_leaf_visits, Hnodes.
    rewrite (map_combine_snd (fun k => m_node (b_queues s (in_queue s) k)))
      by (rewrite Zrange_length; lia).
    assert (E : Zrange (Z.to_nat (n_nodes s))
                = Zrange (Z.to_nat (n_nodes s - b_counters s (in_queue s)))
                  ++ map (fun j => n_nodes s - b_counters s (in_queue s) + j)
                       (Zrange (Z.to_nat (b_counters s (in_queue s))))).
    { rewrite <- Zrange_add_Z by lia. do 2 f_equal. lia. }
    rewrite E. apply Permutation_app; [exact HN|].
    rewrite (Permutation_map
               (fun j => m_node (b_queues s (in_queue s) j)) Hlive).
    rewrite (map_ext_in
               (fun j => m_node (b_queues s (in_queue s) j))
               (fun j => n_nodes s - b_counters s (in_queue s) + j)).
    - apply Permutation_refl.
    - intros j Hj. apply Zrange_mem in Hj. apply Hslots. lia. }
  split; [exact Hw|]. split.
  - rewrite (Permutation_length Hw), Zrange_length. lia.
  - rewrite Hnodes. split; [lia|]. nia.
Qed.

End DeviceNodes.

(** ** Leaf nodes and leaf records on the device *)

Section DeviceLeafNodes.

Variables (d : Device.runtime) (context : Bintree_gen_context).
Variables (n_codes : Z) (codes : list Z) (bits max_leaf_size : Z).
Variable keep_singletons : bool.

Hypothesis device_runs : Device.runtime_ok d.
Hypothesis n_pos : 0 < n_codes.
Hypothesis launches_fit : n_codes <= 2 ^ 31.

Lemma device_reaches_leaf_nodes s :
  Device.loop_reaches d max_leaf_size keep_singletons codes
    (seed_state context n_codes bits) s ->
  Device.leaf_node_indices (b_tree s) = leaf_writes (b_tree s).
Proof.
  intros Hr. induction Hr as [|s s' Hr IH Hcond Hrun]; [reflexivity|].
  pose proof (device_reaches_inv d context n_codes codes bits max_leaf_size
                keep_singletons device_runs n_pos launches_fit s Hr) as Hinv.
  destruct (split_entry_fields s (bi_out _ _ _ _ Hinv) (bi_in _ _ _ _ Hinv))
    as (Rt0 & _ & _).
  destruct (device_round d n_codes max_leaf_size keep_singletons codes
              device_runs launches_fit s
              (fun st => Device.leaf_node_indices (k_tree st)
                         = leaf_writes (k_tree st))
              Hinv Hcond)
    as (st & s'' & live & Hrun' & HQ & _ & _ & _ & _ & Rt & _).
  - rewrite Rt0. exact IH.
  - intros k pending st Hk Kinv HQ.
    destruct (split_thread_shape n_codes max_leaf_size keep_singletons codes
                (b_counters s (in_queue s)) (b_queues s (in_queue s))
                (n_nodes s) _ _ ltac:(lia) k pending st Hk Kinv)
      as [(_ & Hbe & _) [[_ ->]|[(_ & Hs & ->)|(_ & Hs & ->)]]];
      cbn [k_tree]; rewrite leaf_node_indices_app, leaf_writes_app, HQ;
      f_equal.
    + destruct (Z.eqb_spec (split_pivot keep_singletons codes
                              (b_queues s (in_queue s) k))
                  (m_begin (b_queues s (in_queue s) k))),
        (Z.eqb_spec (split_pivot keep_singletons codes
                       (b_queues s (in_queue s) k))
           (m_end (b_queues s (in_queue s) k)));
        cbn; try reflexivity. lia.
    + destruct (Z.eqb_spec (split_pivot keep_singletons codes
                              (b_queues s (in_queue s) k))
                  (m_begin (b_queues s (in_queue s) k))); [lia|].
      reflexivity.
  - rewrite Hrun in Hrun'. injection Hrun' as <-. rewrite Rt. exact HQ.
Qed.

(** X20: in the writes of a build on the device over [n > 0] keys,
    [n <= 2^31], the nodes written with neither child flag set
    carry exactly the indices of the leaf records written, each as often as
    it is written: no leaf record without its leaf node, no node left
    without children and without a record. *)
Theorem leaf_nodes_match_records :
  1 <= max_leaf_size ->
  exists context' ops,
    Device.generate d context n_codes codes bits max_leaf_size
      keep_singletons = Some (context', ops)
    /\ Permutation (Device.leaf_node_indices ops) (leaf_writes ops).
Proof.
  intros Hm.
  destruct (device_generate_result d context n_codes codes bits
              max_leaf_size keep_singletons device_runs n_pos launches_fit
              ltac:(lia))
    as (s & context' & live & Hgen & Hr & _).
  eexists. eexists. split; [exact Hgen|].
  rewrite leaf_node_indices_app, leaf_writes_app.
  rewrite (device_reaches_leaf_nodes s Hr).
  rewrite leaf_node_indices_leaf_visits, leaf_writes_leaf_visits.
  apply Permutation_refl.
Qed.

End DeviceLeafNodes.

(** ** The reference run *)

Section ReferenceRun.

Lemma run_threads_ext {S : Type} (f g : Z -> S -> S) k s :
  (forall j st, 0 <= j < Z.of_nat k -> f j st = g j st) ->
  run_threads f k s = run_threads g k s.
Proof.
  intros H. induction k as [|k IH]; [reflexivity|].
  rewrite !run_threads_S, IH by (intros j st Hj; apply H; lia).
  apply H. lia.
Qed.

(** Threads that read the queue only at the slot of their task: visiting
    the tasks in the order [live] is the reference run on the queue
    reordered by [live]. *)
Lemma reference_run {S : Type} (thread : task_buffer -> Z -> S -> S) c q :
  (forall q1 q2 i j st,
      0 <= i < c -> 0 <= j < c -> q1 i = q2 j ->
      thread q1 i st = thread q2 j st) ->
  forall live s,
    (forall task_id, In task_id live -> 0 <= task_id < c) ->
    Z.of_nat (length live) <= c ->
    Device.run_visits (thread q) live s
    = run_threads (thread (Device.reorder q live)) (length live) s.
Proof.
  intros Hslot live.
  induction live as [|task_id live IH] using rev_ind; intros s Hin Hlen.
  - reflexivity.
  - rewrite length_app in *. cbn [length] in *.
    rewrite Nat.add_1_r, run_threads_S, run_visits_app.
    cbn [Device.run_visits fold_left].
    rewrite IH; [| |lia].
    2:{ intros id Hid. apply Hin. apply in_or_app. left. exact Hid. }
    rewrite (run_threads_ext
               (thread (Device.reorder q (live ++ [task_id])))
               (thread (Device.reorder q live))).
    2:{ intros j st Hj. apply Hslot; try lia.
        unfold Device.reorder. f_equal. apply app_nth1. lia. }
    apply Hslot.
    + apply Hin. apply in_or_app. right. left. reflexivity.
    + lia.
    + unfold Device.reorder. rewrite Nat2Z.id, nth_middle. reflexivity.
Qed.

Lemma queue_list_reorder q live :
  queue_list (Device.reorder q live) (Z.of_nat (length live)) = map q live.
Proof.
  unfold queue_list, Device.reorder. rewrite Nat2Z.id.
  induction live as [|x l IH] using rev_ind; [reflexivity|].
  rewrite length_app. cbn [length]. rewrite Nat.add_1_r, seq_S, !map_app.
  cbn [map Nat.add]. rewrite Nat2Z.id, nth_middle. f_equal.
  rewrite <- IH. apply map_ext_in. intros k Hk.
  apply in_seq in Hk. rewrite Nat2Z.id. f_equal. apply app_nth1. lia.
Qed.

Lemma split_thread_slot mls ks codes c onc q1 q2 i j st :
  0 <= i < c -> 0 <= j < c -> q1 i = q2 j ->
  split_thread mls ks codes c q1 onc i st
  = split_thread mls ks codes c q2 onc j st.
Proof.
  intros Hi Hj E. unfold split_thread.
  destruct (Z.ltb_spec i c); [|lia]. destruct (Z.ltb_spec j c); [|lia].
  rewrite E. reflexivity.
Qed.

Lemma gen_leaves_thread_slot c q1 q2 i j ls :
  0 <= i < c -> 0 <= j < c -> q1 i = q2 j ->
  gen_leaves_thread c q1 i ls = gen_leaves_thread c q2 j ls.
Proof.
  intros Hi Hj E. unfold gen_leaves_thread.
  destruct (Z.ltb_spec i c); [|lia]. destruct (Z.ltb_spec j c); [|lia].
  rewrite E. reflexivity.
Qed.

(** X23: a launch of [split] or of [gen_leaves] over [c > 0] tasks,
    no more than [2^31], whatever the number of active blocks and the
    order of its visits, ends and returns what the reference run - one
    logical thread per task, in the order of the task ids - returns on the
    input queue read in the order [live] of the visits, a reordering of its
    [c] tasks. *)
Theorem launch_is_reference_run sched max_blocks in_tasks_count :
  1 <= max_blocks -> 0 < in_tasks_count ->
  in_tasks_count <= 2 ^ 31 ->
  (forall ids, Permutation (sched ids) ids) ->
  exists live,
    Permutation live (Zrange (Z.to_nat in_tasks_count))
    /\ (forall in_tasks,
           Permutation
             (queue_list (Device.reorder in_tasks live) in_tasks_count)
             (queue_list in_tasks in_tasks_count))
    /\ (forall max_leaf_size keep_singletons codes in_tasks out_nodes_count
               st,
           Device.split sched max_blocks max_leaf_size keep_singletons codes
             in_tasks_count in_tasks out_nodes_count st
           = Some (split_kernel max_leaf_size keep_singletons codes
                     in_tasks_count (Device.reorder in_tasks live)
                     out_nodes_count st))
    /\ (forall in_tasks ls,
           Device.gen_leaves sched max_blocks in_tasks_count in_tasks ls
           = Some (gen_leaves_kernel in_tasks_count
                     (Device.reorder in_tasks live) ls)).
Proof.
  intros Hm Hc Hw Hsched.
  destruct (launch_order sched max_blocks in_tasks_count Hm Hc Hw Hsched)
    as (live & Hlive & Hin & Hsplit & Hgen).
  pose proof (Permutation_length Hlive) as Hlen.
  rewrite Zrange_length in Hlen.
  exists live. split; [exact Hlive|]. split; [|split].
  - intros q. rewrite <- (Z2Nat.id in_tasks_count) at 1 by lia.
    rewrite <- Hlen, queue_list_reorder, queue_list_Zrange.
    apply Permutation_map. exact Hlive.
  - intros mls ks codes q onc st.
    rewrite Hsplit, split_kernel_tasks by lia. f_equal.
    rewrite <- Hlen.
    apply (reference_run
             (fun q' => split_thread mls ks codes in_tasks_count q' onc)
             in_tasks_count q); [|exact Hin|lia].
    intros q1 q2 i j st'. apply split_thread_slot.
  - intros q ls.
    rewrite Hgen, gen_leaves_kernel_tasks by lia. f_equal.
    rewrite <- Hlen.
    apply (reference_run (gen_leaves_thread in_tasks_count)
             in_tasks_count q); [|exact Hin|lia].
    intros q1 q2 i j st'. apply gen_leaves_thread_slot.
Qed.

End ReferenceRun.

(** ** The further properties on concrete inputs *)

Section MoreWitnesses.

Lemma Octree_node_leaf_fields_witness :
  0 <= 5 < 2 ^ 32
  /\ is_leaf (Octree_node_leaf 5) = true
  /\ get_child_offset (Octree_node_leaf 5) = 5 mod 2 ^ 24.
Proof.
  split; [lia|].
  destruct (Octree_node_leaf_fields 5 ltac:(lia)) as (H1 & _ & H3 & _).
  split; assumption.
Defined.

Lemma node_word_is_packed_fields_witness :
  (0 <= 767 < 2 ^ 32 /\ 0 <= 5 < 256 /\ 0 <= 7 < 2 ^ 24)
  /\ Z.lor (shl32 (get_child_offset 767) 8) (get_child_mask 767) = 767
  /\ set_child_offset (set_child_mask 767 5) 7 = Z.lor (shl32 7 8) 5.
Proof.
  split; [lia|].
  destruct (node_word_is_packed_fields 767 5 7 ltac:(lia) ltac:(lia)
              ltac:(lia)) as (H1 & H2 & _).
  split; assumption.
Defined.

Lemma setters_with_wide_arguments_witness :
  (0 <= 3 < 2 ^ 32 /\ 0 <= 511 < 2 ^ 32 /\ 0 <= 16777217 < 2 ^ 32)
  /\ get_child_offset (set_child_mask 3 511)
     = Z.lor (get_child_offset 3) (511 / 256)
  /\ get_child_offset (set_child_offset 3 16777217) = 16777217 mod 2 ^ 24.
Proof.
  split; [lia|].
  destruct (setters_with_wide_arguments 3 511 16777217 ltac:(lia) ltac:(lia)
              ltac:(lia)) as (_ & H2 & H3 & _).
  split; assumption.
Defined.

Lemma setters_overwrite_and_commute_witness :
  (0 <= 3 < 2 ^ 32 /\ 0 <= 5 < 256 /\ 0 <= 6 < 256
   /\ 0 <= 7 < 2 ^ 32 /\ 0 <= 8 < 2 ^ 32)
  /\ set_child_mask (set_child_mask 3 5) 6 = set_child_mask 3 6
  /\ set_child_mask (set_child_offset 3 7) 5
     = set_child_offset (set_child_mask 3 5) 7.
Proof.
  split; [lia|].
  destruct (setters_overwrite_and_commute 3 5 6 7 8 ltac:(lia) ltac:(lia)
              ltac:(lia) ltac:(lia) ltac:(lia)) as (H1 & _ & H3).
  split; assumption.
Defined.

Lemma active_octants_have_slots_witness :
  0 <= 3 < 2 ^ 32
  /\ (is_active 3 0 = true <-> get_octant_host 3 0 <> kInvalid).
Proof.
  split; [lia|].
  destruct (active_octants_have_slots 3 ltac:(lia)) as [H _].
  apply H. lia.
Defined.

Lemma octant_slots_dense_witness :
  0 <= 517 < 2 ^ 32
  /\ get_octant_host 517 0 < get_octant_host 517 2.
Proof.
  split; [lia|].
  destruct (octant_slots_dense 517 ltac:(lia)) as (_ & H & _).
  apply H; [lia|lia|lia|reflexivity|reflexivity].
Defined.

Lemma get_octant_device_past_slots_witness :
  (0 <= 3 < 2 ^ 32 /\ is_active 3 0 = true /\ is_active 3 1 = true)
  /\ get_octant_host 3 1 < get_octant_device 3 0.
Proof.
  split; [repeat split; lia || reflexivity|].
  apply (get_octant_device_past_slots 3 0 1);
    [lia|lia|lia|reflexivity|reflexivity].
Defined.

Lemma find_leading_bit_difference_bounds_witness :
  - 2 ^ 31 <= -2 < 32
  /\ find_leading_bit_difference (-2) 5 9 = to_uint32 (-2).
Proof.
  split; [lia|].
  apply (find_leading_bit_difference_bounds (-2) 5 9); lia.
Defined.

Lemma find_leading_bit_difference_sym_idem_witness :
  - 2 ^ 31 <= 3 < 32
  /\ find_leading_bit_difference 3 10 12 = find_leading_bit_difference 3 12 10.
Proof.
  split; [lia|].
  apply (find_leading_bit_difference_sym_idem 3 10 12). lia.
Defined.

Lemma distinct_end_keys_split_in_two_witness :
  (code_at keys8 0 < code_at keys8 (8 - 1)
   /\ Z.shiftr (code_at keys8 0) (2 + 1)
      = Z.shiftr (code_at keys8 (8 - 1)) (2 + 1))
  /\ split_output_count 1 false keys8 (mk_Split_task 0 0 8 2) = 2.
Proof.
  split; [split; reflexivity|].
  apply (distinct_end_keys_split_in_two 1 keys8 (mk_Split_task 0 0 8 2));
    try (vm_compute; repeat split; discriminate || reflexivity).
Defined.

Lemma split_thread_node_flags_witness :
  (0 <= 0 < 1 /\ 1 < 8 - 0)
  /\ split_output_count 1 false keys8 (eight_key_queue 0)
     = Z.b2z (0 <? split_pivot false keys8 (eight_key_queue 0))
       + Z.b2z (split_pivot false keys8 (eight_key_queue 0) <? 8).
Proof.
  split; [lia|].
  apply (split_thread_node_flags 1 false keys8 1 eight_key_queue 1 0
           launch_start);
    try (vm_compute; repeat split; discriminate || reflexivity).
Defined.


Lemma generate_single_leaf_witness :
  (0 < 5 < 2 ^ 32 /\ 5 <= 9 /\ 1 <= 9)
  /\ exists context',
       generate fresh_context 5 [4; 4; 6; 7; 7] 3 9 true
       = Some (context', [write_node 0 false false 0; write_leaf 0 0 5])
       /\ m_nodes context' = 1 /\ m_leaves context' = 1.
Proof.
  split; [lia|].
  apply (generate_single_leaf fresh_context 5 [4; 4; 6; 7; 7] 3 9 true); lia.
Defined.


Lemma launch_visits_each_task_once_witness :
  (1 <= 2 /\ 0 < 300 /\ 2 * 300 + 127 < 2 ^ 32)
  /\ 1 <= launch_blocks 2 300
  /\ launch_grid_size 2 300 = launch_blocks 2 300 * BLOCK_SIZE.
Proof.
  split; [lia|].
  destruct (launch_visits_each_task_once 2 300 ltac:(lia) ltac:(lia)
              ltac:(lia)) as (H1 & H2 & _).
  split; assumption.
Defined.

Lemma resize_if_needed_grows_witness :
  (0 <= 5 /\ 0 <= 3)
  /\ Z.of_nat (length (resize_if_needed 0 [1; 2] 5))
     = Z.max (Z.of_nat (length [1; 2])) 5.
Proof.
  split; [lia|].
  apply (resize_if_needed_grows 0 [1; 2] 5 3); lia.
Defined.

End MoreWitnesses.

(** ** Launches and builds on the device, on concrete inputs *)

Section DeviceWitnesses.

Lemma rev_order (ids : list Z) : Permutation (rev ids) ids.
Proof. apply Permutation_sym, Permutation_rev. Qed.

Lemma backwards_ok : Device.runtime_ok Device.backwards.
Proof.
  split; [cbn; lia|]. split; [cbn; lia|].
  intros g ids. apply rev_order.
Qed.


Lemma gen_leaves_drops_tasks_near_wrap_witness :
  (0 <= 8 /\ 2 ^ 32 - 127 <= 4294967294 < 2 ^ 32)
  /\ launch_blocks 8 4294967294 = 0
  /\ Device.gen_leaves (@rev Z) 8 4294967294 Device.pair_queue ([], 0)
     = Some ([], 0).
Proof.
  split; [lia|].
  destruct (gen_leaves_drops_tasks_near_wrap (@rev Z) 8 4294967294
              Device.pair_queue ([], 0) ltac:(lia) ltac:(lia) rev_order)
    as (H1 & H2 & _).
  split; assumption.
Defined.

Lemma split_launches_fit_witness :
  (0 < 8 /\ 8 < 2 ^ 32 /\ 0 <= 3 <= 32)
  /\ option_map (fun s => (level s, b_counters s (in_queue s)))
       (Device.generate_loop Device.backwards
          (Z.to_nat (level (seed_state fresh_context 8 3) + 1)) 1 false
          keys8 (seed_state fresh_context 8 3))
     = Some (-1, 8)
  /\ exists s,
       Device.generate_loop Device.backwards
         (Z.to_nat (level (seed_state fresh_context 8 3) + 1)) 1 false
         keys8 (seed_state fresh_context 8 3) = Some s
       /\ Device.loop_reaches Device.backwards 1 false keys8
            (seed_state fresh_context 8 3) s
       /\ loop_cond s = false.
Proof.
  split; [lia|]. split; [vm_compute; reflexivity|].
  apply (split_launches_fit Device.backwards fresh_context 8 keys8 3 1
           false backwards_ok); lia.
Defined.

Lemma split_stage_leaves_bounded_witness :
  (0 < 5 /\ 5 < 2 ^ 32 /\ 0 <= 3 <= 32 /\ 1 <= 2 /\ 5 <= 2 ^ 31)
  /\ (forall s,
         Device.loop_reaches Device.backwards 2 false Device.keys5
           (seed_state fresh_context 5 3) s ->
         forall b e, In (b, e) (leaf_ranges (b_tree s)) -> e - b <= 2)
  /\ (exists s context' ops finalized,
         Device.generate Device.backwards fresh_context 5 Device.keys5 3 2
           false = Some (context', ops)
         /\ Device.loop_reaches Device.backwards 2 false Device.keys5
              (seed_state fresh_context 5 3) s
         /\ loop_cond s = false
         /\ (in_tasks_of s <> [] -> level s < 0)
         /\ leaf_ranges ops = leaf_ranges (b_tree s) ++ finalized
         /\ Permutation finalized (map task_range (in_tasks_of s)))
  /\ option_map (fun r => leaf_ranges (snd r))
       (Device.generate Device.backwards fresh_context 5 Device.keys5 3 2
          false)
     = Some [(3, 5); (0, 3)].
Proof.
  split; [lia|].
  destruct (split_stage_leaves_bounded Device.backwards fresh_context 5
              Device.keys5 3 2 false backwards_ok ltac:(lia) ltac:(lia)
              ltac:(lia) ltac:(lia))
    as (Hloop & _ & Hgen).
  split; [exact Hloop|]. split; [apply Hgen; lia|].
  vm_compute. reflexivity.
Defined.

Lemma launch_writes_each_task_node_witness :
  (1 <= 2 /\ 0 < 3 /\ 3 <= 2 ^ 31)
  /\ (exists st',
         Device.split (@rev Z) 2 1 false keys8 3 Device.pair_queue 7
           launch_start = Some st'
         /\ Permutation (node_writes (k_tree st'))
              (node_writes (k_tree launch_start)
                 ++ map m_node (queue_list Device.pair_queue 3)))
  /\ (exists ls',
         Device.gen_leaves (@rev Z) 2 3 Device.pair_queue ([], 4) = Some ls'
         /\ Permutation (node_writes (fst ls'))
              (node_writes (fst ([], 4))
                 ++ map m_node (queue_list Device.pair_queue 3))).
Proof.
  split; [lia|].
  apply (launch_writes_each_task_node (@rev Z) 2 1 false keys8 3
           Device.pair_queue 7 launch_start ([], 4));
    [lia|lia|lia|exact rev_order].
Defined.

Lemma gen_leaves_numbers_tasks_witness :
  (1 <= 2 /\ 0 < 3 /\ 3 <= 2 ^ 31 /\ 0 <= 4 /\ 4 + 3 < 2 ^ 32)
  /\ exists live written,
       Permutation live (Zrange (Z.to_nat 3))
       /\ Device.gen_leaves (@rev Z) 2 3 Device.pair_queue ([], 4)
          = Some ([] ++ written, 4 + 3)
       /\ Permutation written
            (flat_map (Device.leaf_visit_writes Device.pair_queue 4)
               (combine (Zrange (Z.to_nat 3)) live)).
Proof.
  split; [lia|].
  apply (gen_leaves_numbers_tasks (@rev Z) 2 3 Device.pair_queue [] 4);
    [lia|lia|lia|exact rev_order|lia|lia].
Defined.


Lemma leaf_indices_each_once_witness :
  (0 < 8 /\ 8 <= 2 ^ 31 /\ 1 <= 1)
  /\ exists context' ops,
       Device.generate Device.backwards fresh_context 8 keys8 3 1 false
       = Some (context', ops)
       /\ Permutation (leaf_writes ops)
            (Zrange (Z.to_nat (m_leaves context')))
       /\ m_leaves context' = Z.of_nat (length (leaf_ranges ops))
       /\ 1 <= m_leaves context' <= 8.
Proof.
  split; [lia|].
  apply (leaf_indices_each_once Device.backwards fresh_context 8 keys8 3 1
           false backwards_ok); lia.
Defined.

Lemma node_indices_each_once_witness :
  (0 < 8 /\ 8 <= 2 ^ 31 /\ 0 <= 3 <= 32 /\ 1 + 3 * 8 < 2 ^ 32 /\ 1 <= 1)
  /\ exists context' ops,
       Device.generate Device.backwards fresh_context 8 keys8 3 1 false
       = Some (context', ops)
       /\ Permutation (node_writes ops)
            (Zrange (Z.to_nat (m_nodes context')))
       /\ m_nodes context' = Z.of_nat (length (node_writes ops))
       /\ 1 <= m_nodes context' <= 1 + 3 * 8.
Proof.
  split; [lia|].
  apply (node_indices_each_once Device.backwards fresh_context 8 keys8 3 1
           false backwards_ok); lia.
Defined.

Lemma leaf_nodes_match_records_witness :
  (0 < 5 /\ 5 <= 2 ^ 31 /\ 1 <= 2)
  /\ exists context' ops,
       Device.generate Device.backwards fresh_context 5 Device.keys5 3 2
         false = Some (context', ops)
       /\ Permutation (Device.leaf_node_indices ops) (leaf_writes ops).
Proof.
  split; [lia|].
  apply (leaf_nodes_match_records Device.backwards fresh_context 5
           Device.keys5 3 2 false backwards_ok); lia.
Defined.

Lemma launch_is_reference_run_witness :
  (1 <= 2 /\ 0 < 300 /\ 300 <= 2 ^ 31)
  /\ exists live,
       Permutation live (Zrange (Z.to_nat 300))
       /\ Device.gen_leaves (@rev Z) 2 300 Device.pair_queue ([], 0)
          = Some (gen_leaves_kernel 300 (Device.reorder Device.pair_queue live)
                    ([], 0)).
Proof.
  split; [lia|].
  destruct (launch_is_reference_run (@rev Z) 2 300 ltac:(lia) ltac:(lia)
              ltac:(lia) rev_order)
    as (live & Hlive & _ & _ & Hgen).
  exists live. split; [exact Hlive|apply Hgen].
Defined.

End DeviceWitnesses.
